(** * Tool schemas, the tool registry and the JSON-schema converter

    A shallow embedding of [src/toolConfiguration/toolSchema.ts] (the zod
    schemas, [validateTool], [toolToJsonSchema]) and of the [ToolRegistry]
    class, followed by the properties stated about them.

    Conventions.
    - A JavaScript value of unknown type is a [value]: a tree of scalars,
      arrays and objects.  A plain object used as a record or dictionary is a
      [gmap string value]; two objects with the same keys and values are
      equal, whatever the order their keys were written in.
    - A JavaScript number is an IEEE 754 binary64 [float].
    - A value that went through a zod schema is typed: [Param] and [Tool]
      follow the types the schemas infer, an [.optional()] key being an
      [option].
    - The types of TypeScript are gone at run time: [toolToJsonSchema] takes a
      [value], and a [Tool] is handed to it as the object it is.
    - A string is the sequence of its code units, an [ascii] for each.
    - [Map] and [Set] objects keep insertion order; they are association
      lists and duplicate-free lists, see [JsMap] and [JsSet].
    - A function that can throw returns a [result]. *)

From Stdlib Require Import PrimFloat.
From stdpp Require Import gmap strings list pretty.

Set Warnings "-register-all".
Set Default Proof Using "Type".

Open Scope string_scope.

(** ** Thrown values *)

(** [ZodError] is what [schema.parse] throws (the spec's ValidationError);
    [Error message] is [new Error(message)]; [TypeError] is what the engine
    throws on reading a property of [undefined]. *)
Inductive error :=
| ZodError
| Error (message : string)
| TypeError.

Inductive result (A : Type) :=
| Ok (a : A)
| Err (e : error).
Arguments Ok {A} a.
Arguments Err {A} e.

(** Sequencing: [x ← r; k] runs [k] on the value of [r], or rethrows. *)
#[global] Instance result_bind : MBind result := λ A B k r,
  match r with
  | Ok a => k a
  | Err e => Err e
  end.

Definition is_ok {A} (r : result A) : bool :=
  match r with Ok _ => true | Err _ => false end.

Definition ok_value {A} (r : result A) : option A :=
  match r with Ok a => Some a | Err _ => None end.

(** [xs.map(f)] where [f] may throw: left to right, the first throw wins. *)
Fixpoint mapR {A B} (f : A → result B) (xs : list A) : result (list B) :=
  match xs with
  | [] => Ok []
  | x :: xs' => y ← f x; ys ← mapR f xs'; Ok (y :: ys)
  end.

(** All entries of a dictionary, each of which may have failed; every failure
    in one traversal is an error of the same kind [e]. *)
Definition sequence_map {A} (e : error) (m : gmap string (result A))
  : result (gmap string A) :=
  if decide (map_Forall (λ _ r, is_ok r = true) m)
  then Ok (omap ok_value m)
  else Err e.

(** ** JavaScript values *)

Inductive value :=
| VUndefined
| VNull
| VBool (b : bool)
| VNum (x : float)
| VStr (s : string)
| VArr (xs : list value)
| VObj (fields : gmap string value).

(** [data[key]]: a missing key reads as [undefined]. *)
Definition get (key : string) (data : gmap string value) : value :=
  default VUndefined (data !! key).

(** [Number.isInteger]: finite and without fractional part.  Below 2^52 a
    binary64 is an integer exactly when adding and removing 2^52 (round to
    nearest) gives it back; from 2^52 on every finite binary64 is one. *)
Definition isInteger (x : float) : bool :=
  let a := PrimFloat.abs x in
  PrimFloat.eqb x x && PrimFloat.ltb a infinity &&
  (PrimFloat.leb 0x1p52%float a || PrimFloat.eqb ((a + 0x1p52) - 0x1p52)%float a).

(** [v[key]] for a [v] that is neither [undefined] nor [null] and a [key]
    that no prototype defines: an own key of an object, and nothing of a
    scalar or an array. *)
Definition read (key : string) (v : value) : value :=
  match v with
  | VObj data => get key data
  | _ => VUndefined
  end.

(** [!!v]: [undefined], [null], [false], [0], [-0], [NaN] and the empty
    string are falsy. *)
Definition truthy (v : value) : bool :=
  match v with
  | VUndefined | VNull => false
  | VBool b => b
  | VNum x => negb (PrimFloat.eqb x 0) && PrimFloat.eqb x x
  | VStr s => negb (bool_decide (s = ""))
  | VArr _ | VObj _ => true
  end.

(** [v === s] for a string [s] *)
Definition is_string (s : string) (v : value) : bool :=
  match v with
  | VStr s' => bool_decide (s' = s)
  | _ => false
  end.

(** The dictionary of a list under its indices, ["0"], ["1"], ... *)
Definition indexed {A} (xs : list A) : gmap string A :=
  list_to_map (imap (λ i x, (pretty i, x)) xs).

(** The code units of a string, each as a string. *)
Definition chars (s : string) : list value :=
  (λ c, VStr (String c EmptyString)) <$> String.list_ascii_of_string s.

(** [Object.entries(v)], as a dictionary: the own keys of an object, the
    indices of an array and of a string, nothing of another scalar.  (It
    throws on [undefined] and [null], where the converter does not call
    it.) *)
Definition Object_entries (v : value) : gmap string value :=
  match v with
  | VObj m => m
  | VArr xs => indexed xs
  | VStr s => indexed (chars s)
  | _ => ∅
  end.

(** [s.includes(x)] for two strings: [x] occurs in [s]. *)
Fixpoint string_includes (x s : string) : bool :=
  String.prefix x s ||
  match s with
  | String _ s' => string_includes x s'
  | EmptyString => false
  end.

(** [xs.includes(x)] for a string [x]: the method of arrays and of strings;
    on anything else [xs.includes] is not a function, and the call throws. *)
Definition includes (x : string) (xs : value) : result bool :=
  match xs with
  | VArr ys => Ok (existsb (is_string x) ys)
  | VStr s => Ok (string_includes x s)
  | _ => Err TypeError
  end.

(** [xs?.includes(x) || false] *)
Definition optional_includes (x : string) (xs : value) : result bool :=
  match xs with
  | VUndefined | VNull => Ok false
  | _ => includes x xs
  end.

(** ** zod primitives

    A schema over [A] is a parser [value → result A]; only success or failure
    is kept of a [ZodError], not its list of issues.  The library is not part
    of the repository; what is modelled is its documented behaviour: a
    number schema refuses [NaN], [.int()] asks for [Number.isInteger], an
    object schema drops the keys it does not name, a union returns the
    result of the first option that accepts. *)

Definition schema (A : Type) := value → result A.

(** [z.string()] *)
Definition z_string : schema string := λ v,
  match v with VStr s => Ok s | _ => Err ZodError end.

(** [z.string().min(n)] *)
Definition z_string_min (n : nat) : schema string := λ v,
  s ← z_string v;
  if decide (n ≤ String.length s)%nat then Ok s else Err ZodError.

(** [z.boolean()] *)
Definition z_boolean : schema bool := λ v,
  match v with VBool b => Ok b | _ => Err ZodError end.

(** [z.number()]: a number that is not NaN. *)
Definition z_number : schema float := λ v,
  match v with
  | VNum x => if PrimFloat.eqb x x then Ok x else Err ZodError
  | _ => Err ZodError
  end.

(** [z.number().int()] *)
Definition z_int : schema float := λ v,
  x ← z_number v;
  if isInteger x then Ok x else Err ZodError.

(** [z.any()] *)
Definition z_any : schema value := λ v, Ok v.

(** [s.optional()] *)
Definition z_optional {A} (s : schema A) : schema (option A) := λ v,
  match v with
  | VUndefined => Ok None
  | _ => a ← s v; Ok (Some a)
  end.

(** [s.default(d)] *)
Definition z_default {A} (d : A) (s : schema A) : schema A := λ v,
  match v with
  | VUndefined => Ok d
  | _ => s v
  end.

(** [z.array(s)] *)
Definition z_array {A} (s : schema A) : schema (list A) := λ v,
  match v with
  | VArr xs => mapR s xs
  | _ => Err ZodError
  end.

(** [z.record(z.string(), z.any())] *)
Definition z_record_any : schema (gmap string value) := λ v,
  match v with
  | VObj m => Ok m
  | _ => Err ZodError
  end.

(** [z.enum([...])] and [z.literal(...)], the members given with the typed
    constant each one denotes. *)
Fixpoint z_enum {A} (members : list (string * A)) : schema A := λ v,
  match members with
  | [] => Err ZodError
  | (lit, a) :: rest =>
      match v with
      | VStr s => if decide (s = lit) then Ok a else z_enum rest v
      | _ => Err ZodError
      end
  end.

(** [a.or(b)] and [z.union([a, b])]: the first option that accepts wins. *)
Definition z_or {A} (a b : result A) : result A :=
  match a with
  | Ok x => Ok x
  | Err _ => b
  end.

(** [z.object(shape)]: only an object is accepted; the keys the shape does not
    name are dropped (zod's default [strip] mode), which the typed result
    makes implicit. *)
Definition z_object {A} (shape : gmap string value → result A) : schema A := λ v,
  match v with
  | VObj data => shape data
  | _ => Err ZodError
  end.

(** [z.record(z.string(), s)] *)
Definition z_record {A} (s : schema A) : schema (gmap string A) := λ v,
  match v with
  | VObj m => sequence_map ZodError (s <$> m)
  | _ => Err ZodError
  end.

(** * toolSchema.ts *)

Module toolSchema.

(** ** The parameter model *)

Inductive ParamType := TString | TNumber | TBoolean | TArray | TObject.

Inductive StringFormat := FDate | FDateTime | FEmail | FUri | FRegex | FText.

Inductive NumberFormat := FFloat | FDouble | FInt32 | FInt64.

Definition ParamType_members : list (string * ParamType) :=
  [("string", TString); ("number", TNumber); ("boolean", TBoolean);
   ("array", TArray); ("object", TObject)].

Definition StringFormat_members : list (string * StringFormat) :=
  [("date", FDate); ("date-time", FDateTime); ("email", FEmail);
   ("uri", FUri); ("regex", FRegex); ("text", FText)].

Definition NumberFormat_members : list (string * NumberFormat) :=
  [("float", FFloat); ("double", FDouble); ("int32", FInt32); ("int64", FInt64)].

Definition ParamType_literal (t : ParamType) : string :=
  match t with
  | TString => "string" | TNumber => "number" | TBoolean => "boolean"
  | TArray => "array" | TObject => "object"
  end.

Definition StringFormat_literal (f : StringFormat) : string :=
  match f with
  | FDate => "date" | FDateTime => "date-time" | FEmail => "email"
  | FUri => "uri" | FRegex => "regex" | FText => "text"
  end.

Definition NumberFormat_literal (f : NumberFormat) : string :=
  match f with
  | FFloat => "float" | FDouble => "double" | FInt32 => "int32" | FInt64 => "int64"
  end.

(** What the parameter schemas return.  [PBase] is the output of the bare
    [toolParameterSchema]: the four common keys and nothing else, whatever
    the [type].  The five others are the outputs of the extended schemas; in
    [PObject] the key [required] is the list of required property names,
    which replaces the boolean of the base schema. *)
Inductive Param :=
| PBase (name description : string) (type : ParamType) (required : bool)
| PString (name description : string) (required : bool)
    (format : option StringFormat) (minLength maxLength : option float)
    (pattern : option string) (enum : option (list string))
    (default : option string)
| PNumber (name description : string) (required : bool)
    (minimum maximum multipleOf : option float)
    (format : option NumberFormat) (default : option float)
| PBoolean (name description : string) (required : bool)
    (default : option bool)
| PArray (name description : string) (required : bool) (items : Param)
    (minItems maxItems : option float) (uniqueItems : option bool)
    (default : option (list value))
| PObject (name description : string)
    (properties : option (gmap string Param))
    (required : option (list string)) (additionalProperties : option bool)
    (default : option (gmap string value)).

(** [param.type] and [param.description] *)
Definition param_type (param : Param) : ParamType :=
  match param with
  | PBase _ _ type _ => type
  | PString _ _ _ _ _ _ _ _ _ => TString
  | PNumber _ _ _ _ _ _ _ _ => TNumber
  | PBoolean _ _ _ _ => TBoolean
  | PArray _ _ _ _ _ _ _ _ => TArray
  | PObject _ _ _ _ _ _ => TObject
  end.

Definition param_description (param : Param) : string :=
  match param with
  | PBase _ d _ _ | PString _ d _ _ _ _ _ _ _ | PNumber _ d _ _ _ _ _ _
  | PBoolean _ d _ _ | PArray _ d _ _ _ _ _ _ | PObject _ d _ _ _ _ => d
  end.

(** ** The parameter schemas *)

(** [toolParameterSchema] *)
Definition toolParameterSchema (data : gmap string value) : result Param :=
  name ← z_string_min 1 (get "name" data);
  description ← z_string (get "description" data);
  type ← z_enum ParamType_members (get "type" data);
  required ← z_default false z_boolean (get "required" data);
  Ok (PBase name description type required).

(** [stringParameterSchema] *)
Definition stringParameterSchema (data : gmap string value) : result Param :=
  name ← z_string_min 1 (get "name" data);
  description ← z_string (get "description" data);
  _ ← z_enum [("string", TString)] (get "type" data);
  required ← z_default false z_boolean (get "required" data);
  format ← z_optional (z_enum StringFormat_members) (get "format" data);
  minLength ← z_optional z_int (get "minLength" data);
  maxLength ← z_optional z_int (get "maxLength" data);
  pattern ← z_optional z_string (get "pattern" data);
  enum ← z_optional (z_array z_string) (get "enum" data);
  default ← z_optional z_string (get "default" data);
  Ok (PString name description required format minLength maxLength pattern
        enum default).

(** [numberParameterSchema] *)
Definition numberParameterSchema (data : gmap string value) : result Param :=
  name ← z_string_min 1 (get "name" data);
  description ← z_string (get "description" data);
  _ ← z_enum [("number", TNumber)] (get "type" data);
  required ← z_default false z_boolean (get "required" data);
  minimum ← z_optional z_number (get "minimum" data);
  maximum ← z_optional z_number (get "maximum" data);
  multipleOf ← z_optional z_number (get "multipleOf" data);
  format ← z_optional (z_enum NumberFormat_members) (get "format" data);
  default ← z_optional z_number (get "default" data);
  Ok (PNumber name description required minimum maximum multipleOf format
        default).

(** [booleanParameterSchema] *)
Definition booleanParameterSchema (data : gmap string value) : result Param :=
  name ← z_string_min 1 (get "name" data);
  description ← z_string (get "description" data);
  _ ← z_enum [("boolean", TBoolean)] (get "type" data);
  required ← z_default false z_boolean (get "required" data);
  default ← z_optional z_boolean (get "default" data);
  Ok (PBoolean name description required default).

(** [arrayParameterSchema]; [items] is the outcome of the lazy union on
    [data.items]. *)
Definition arrayParameterSchema (items : result Param)
    (data : gmap string value) : result Param :=
  name ← z_string_min 1 (get "name" data);
  description ← z_string (get "description" data);
  _ ← z_enum [("array", TArray)] (get "type" data);
  required ← z_default false z_boolean (get "required" data);
  items ← items;
  minItems ← z_optional z_int (get "minItems" data);
  maxItems ← z_optional z_int (get "maxItems" data);
  uniqueItems ← z_optional z_boolean (get "uniqueItems" data);
  default ← z_optional (z_array z_any) (get "default" data);
  Ok (PArray name description required items minItems maxItems uniqueItems
        default).

(** [objectParameterSchema]; [properties] is the outcome of the optional
    record of lazy unions on [data.properties]. *)
Definition objectParameterSchema (properties : result (option (gmap string Param)))
    (data : gmap string value) : result Param :=
  name ← z_string_min 1 (get "name" data);
  description ← z_string (get "description" data);
  _ ← z_enum [("object", TObject)] (get "type" data);
  properties ← properties;
  required ← z_optional (z_array z_string) (get "required" data);
  additionalProperties ← z_optional z_boolean (get "additionalProperties" data);
  default ← z_optional z_record_any (get "default" data);
  Ok (PObject name description properties required additionalProperties
        default).

(** The union inside [z.lazy]:
    [toolParameterSchema.or(stringParameterSchema.or(... objectParameterSchema))],
    the bare base schema first. *)
Definition lazyUnion (items : result Param)
    (properties : result (option (gmap string Param)))
    (data : gmap string value) : result Param :=
  z_or (toolParameterSchema data)
    (z_or (stringParameterSchema data)
      (z_or (numberParameterSchema data)
        (z_or (booleanParameterSchema data)
          (z_or (arrayParameterSchema items data)
                (objectParameterSchema properties data))))).

(** The schema of a nested parameter ([items] of an array, a value of
    [properties] of an object).  The recursive calls go through [<$>] over
    the fields so that they are structural; [lazySchema_unfold] below gives
    the equation one reads in the source. *)
Fixpoint lazySchema (v : value) : result Param :=
  match v with
  | VObj data =>
      let items :=
        default (Err ZodError) ((lazySchema <$> data) !! "items") in
      let properties :=
        default (Ok None)
          ((z_optional (z_record lazySchema) <$> data) !! "properties") in
      lazyUnion items properties data
  | _ => Err ZodError
  end.

(** [parameterSchema]: the union of the five extended schemas. *)
Definition parameterSchema : schema Param := z_object (λ data,
  let items := lazySchema (get "items" data) in
  let properties := z_optional (z_record lazySchema) (get "properties" data) in
  z_or (stringParameterSchema data)
    (z_or (numberParameterSchema data)
      (z_or (booleanParameterSchema data)
        (z_or (arrayParameterSchema items data)
              (objectParameterSchema properties data))))).

(** ** The tool model *)

Record ToolExample := {
  input : gmap string value;
  output : value;
  example_description : option string;
}.

Record Tool := {
  name : string;
  description : string;
  parameters : option (gmap string Param);
  requiredParameters : option (list string);
  returns : option Param;
  tags : option (list string);
  examples : option (list ToolExample);
  metadata : option (gmap string value);
}.

Definition exampleSchema : schema ToolExample := z_object (λ data,
  input ← z_record_any (get "input" data);
  output ← z_any (get "output" data);
  description ← z_optional z_string (get "description" data);
  Ok {| input := input; output := output; example_description := description |}).

(** [toolSchema] *)
Definition toolSchema : schema Tool := z_object (λ data,
  name ← z_string_min 1 (get "name" data);
  description ← z_string_min 1 (get "description" data);
  parameters ← z_optional (z_record parameterSchema) (get "parameters" data);
  requiredParameters ← z_optional (z_array z_string) (get "requiredParameters" data);
  returns ← z_optional parameterSchema (get "returns" data);
  tags ← z_optional (z_array z_string) (get "tags" data);
  examples ← z_optional (z_array exampleSchema) (get "examples" data);
  metadata ← z_optional z_record_any (get "metadata" data);
  Ok {| name := name; description := description; parameters := parameters;
        requiredParameters := requiredParameters; returns := returns;
        tags := tags; examples := examples; metadata := metadata |}).

(** [validateParameter] and [validateTool] *)
Definition validateParameter (parameter : value) : result Param :=
  parameterSchema parameter.

Definition validateTool (tool : value) : result Tool :=
  toolSchema tool.

(** ** The converter

    The type [Tool] of the argument of [toolToJsonSchema] is erased when the
    source is compiled; the function runs on whatever it is handed, and the
    repository hands it tools that no schema has seen.  It is a function of
    a [value]; a [Tool] is converted as the object it is, [Tool_to_value]
    below. *)

(** An object literal [{ ...base, k1: v1, ...(guard2 && { k2: v2 }), ... }]:
    the entries are added to [base] one after the other, an entry whose guard
    is falsy ([None]) adding nothing. *)
Definition literal (base : gmap string value)
    (entries : list (string * option value)) : gmap string value :=
  foldl (λ obj entry,
           match entry.2 with
           | Some v => <[entry.1 := v]> obj
           | None => obj
           end) base entries.

(** [x !== undefined && { key: x }] *)
Definition if_defined (x : value) : option value :=
  match x with
  | VUndefined => None
  | _ => Some x
  end.

(** [x && { key: x }] *)
Definition if_truthy (x : value) : option value :=
  if truthy x then Some x else None.

(** What [parameterToJsonSchema] returns for a scalar or an array: [type]
    and [description] read [undefined] on it. *)
Definition scalarToJsonSchema : value :=
  VObj {[ "type" := VUndefined; "description" := VUndefined ]}.

(** The converted entries of [Object.entries(v)], each still waiting for its
    [isRequired]: [convert] on the entries of an object and of an array,
    [scalarToJsonSchema] for the code units of a string. *)
Definition convert_entries (convert : value → bool → result value)
    (v : value) : gmap string (bool → result value) :=
  match v with
  | VObj m => convert <$> m
  | VArr xs => indexed (convert <$> xs)
  | VStr s => indexed ((λ _ _, Ok scalarToJsonSchema) <$> chars s)
  | _ => ∅
  end.

(** [Object.entries(...).forEach(([name, param]) => ...)]: for every
    entry, [isRequired name] is worked out, then the entry is converted.  The
    first throw ends the loop; all throws here are [TypeError]s. *)
Definition forEach_entry (isRequired : string → result bool)
    (entries : gmap string (bool → result value))
    : result (gmap string value) :=
  sequence_map TypeError
    (map_imap (λ name convert,
       Some (required ← isRequired name; convert required)) entries).

(** [properties[propName] = converted] for every entry.  The assignment to
    [__proto__] goes to the setter of [Object.prototype]: it replaces the
    prototype of [properties] and makes no key of it. *)
Definition assign_all (converted : gmap string value) : value :=
  VObj (delete "__proto__" converted).

(** The body of the helper [parameterToJsonSchema] of [toolToJsonSchema], on
    an object [data].  [items] is the outcome of the recursive call on
    [data.items]; [entries] holds, for each entry of
    [Object.entries(data.properties)], the recursive call on it. *)
Definition convertParameter (data : gmap string value)
    (items : result value) (entries : gmap string (bool → result value))
    : result value :=
  let base : gmap string value :=
    {[ "type" := get "type" data;
       "description" := get "description" data ]} in
  if is_string "string" (get "type" data) then
    Ok (VObj (literal base
      [("format", if_truthy (get "format" data));
       ("minLength", if_defined (get "minLength" data));
       ("maxLength", if_defined (get "maxLength" data));
       ("pattern", if_truthy (get "pattern" data));
       ("enum", if_truthy (get "enum" data));
       ("default", if_defined (get "default" data))]))
  else if is_string "number" (get "type" data) then
    Ok (VObj (literal base
      [("minimum", if_defined (get "minimum" data));
       ("maximum", if_defined (get "maximum" data));
       ("multipleOf", if_defined (get "multipleOf" data));
       ("format", if_truthy (get "format" data));
       ("default", if_defined (get "default" data))]))
  else if is_string "boolean" (get "type" data) then
    Ok (VObj (literal base
      [("default", if_defined (get "default" data))]))
  else if is_string "array" (get "type" data) then
    items' ← items;
    Ok (VObj (literal base
      [("items", Some items');
       ("minItems", if_defined (get "minItems" data));
       ("maxItems", if_defined (get "maxItems" data));
       ("uniqueItems", if_defined (get "uniqueItems" data));
       ("default", if_defined (get "default" data))]))
  else if is_string "object" (get "type" data) then
    properties ←
      (if truthy (get "properties" data) then
         forEach_entry
           (λ propName, optional_includes propName (get "required" data))
           entries
       else Ok ∅);
    Ok (VObj (literal base
      [("properties", Some (assign_all properties));
       ("required", if_truthy (get "required" data));
       ("additionalProperties", if_defined (get "additionalProperties" data));
       ("default", if_defined (get "default" data))]))
  else Ok (VObj base).

(** [parameterToJsonSchema].  Reading [param.type] throws on [undefined] and
    [null].  The recursive calls go through [<$>] over the fields so that
    they are structural; [parameterToJsonSchema_unfold] below gives the
    equation one reads in the source. *)
Fixpoint parameterToJsonSchema (param : value) (isRequired : bool)
    {struct param} : result value :=
  match param with
  | VUndefined | VNull => Err TypeError
  | VObj data =>
      convertParameter data
        (default (Err TypeError)
           (((λ v, parameterToJsonSchema v false) <$> data) !! "items"))
        (default ∅
           ((convert_entries parameterToJsonSchema <$> data) !! "properties"))
  | _ => Ok scalarToJsonSchema
  end.

(** [toolToJsonSchema].  Reading [tool.requiredParameters] throws on
    [undefined] and [null]. *)
Definition toolToJsonSchema (tool : value) : result value :=
  match tool with
  | VUndefined | VNull => Err TypeError
  | _ =>
      let required :=
        match read "requiredParameters" tool with
        | VUndefined | VNull => VArr []
        | requiredParameters => requiredParameters
        end in
      properties ←
        (if truthy (read "parameters" tool) then
           forEach_entry (λ name, includes name required)
             (parameterToJsonSchema <$> Object_entries (read "parameters" tool))
         else Ok ∅);
      returns' ←
        (if truthy (read "returns" tool) then
           r ← parameterToJsonSchema (read "returns" tool) true; Ok (Some r)
         else Ok None);
      Ok (VObj (literal
        {[ "name" := read "name" tool;
           "description" := read "description" tool;
           "parameters" := VObj {[ "type" := VStr "object";
                                   "properties" := assign_all properties;
                                   "required" := required ]} ]}
        [("returns", returns')]))
  end.

(** ** Typed values as the objects they are

    A [Param] or [Tool] is, at run time, a plain object; an absent optional
    key is not a key of it. *)

(** An optional key of a typed value, [None] when it is absent. *)
Definition defined {A} (to_value : A → value) (x : option A) : option value :=
  to_value <$> x.

Definition strings (xs : list string) : value := VArr (VStr <$> xs).

Fixpoint Param_to_value (param : Param) : value :=
  VObj
    match param with
    | PBase name description type required =>
        literal ∅
          [("name", Some (VStr name));
           ("description", Some (VStr description));
           ("type", Some (VStr (ParamType_literal type)));
           ("required", Some (VBool required))]
    | PString name description required format minLength maxLength pattern
        enum default =>
        literal ∅
          [("name", Some (VStr name));
           ("description", Some (VStr description));
           ("type", Some (VStr "string"));
           ("required", Some (VBool required));
           ("format", defined (VStr ∘ StringFormat_literal) format);
           ("minLength", defined VNum minLength);
           ("maxLength", defined VNum maxLength);
           ("pattern", defined VStr pattern);
           ("enum", defined strings enum);
           ("default", defined VStr default)]
    | PNumber name description required minimum maximum multipleOf format
        default =>
        literal ∅
          [("name", Some (VStr name));
           ("description", Some (VStr description));
           ("type", Some (VStr "number"));
           ("required", Some (VBool required));
           ("minimum", defined VNum minimum);
           ("maximum", defined VNum maximum);
           ("multipleOf", defined VNum multipleOf);
           ("format", defined (VStr ∘ NumberFormat_literal) format);
           ("default", defined VNum default)]
    | PBoolean name description required default =>
        literal ∅
          [("name", Some (VStr name));
           ("description", Some (VStr description));
           ("type", Some (VStr "boolean"));
           ("required", Some (VBool required));
           ("default", defined VBool default)]
    | PArray name description required items minItems maxItems uniqueItems
        default =>
        literal ∅
          [("name", Some (VStr name));
           ("description", Some (VStr description));
           ("type", Some (VStr "array"));
           ("required", Some (VBool required));
           ("items", Some (Param_to_value items));
           ("minItems", defined VNum minItems);
           ("maxItems", defined VNum maxItems);
           ("uniqueItems", defined VBool uniqueItems);
           ("default", defined VArr default)]
    | PObject name description properties required additionalProperties
        default =>
        literal ∅
          [("name", Some (VStr name));
           ("description", Some (VStr description));
           ("type", Some (VStr "object"));
           ("properties",
             defined (λ props, VObj (Param_to_value <$> props)) properties);
           ("required", defined strings required);
           ("additionalProperties", defined VBool additionalProperties);
           ("default", defined VObj default)]
    end.

Definition ToolExample_to_value (example : ToolExample) : value :=
  VObj (literal ∅
    [("input", Some (VObj (input example)));
     ("output", match output example with
                | VUndefined => None
                | v => Some v
                end);
     ("description", defined VStr (example_description example))]).

Definition Tool_to_value (tool : Tool) : value :=
  VObj (literal ∅
    [("name", Some (VStr (name tool)));
     ("description", Some (VStr (description tool)));
     ("parameters",
       defined (λ params, VObj (Param_to_value <$> params)) (parameters tool));
     ("requiredParameters", defined strings (requiredParameters tool));
     ("returns", defined Param_to_value (returns tool));
     ("tags", defined strings (tags tool));
     ("examples",
       defined (λ xs, VArr (ToolExample_to_value <$> xs)) (examples tool));
     ("metadata", defined VObj (metadata tool))]).

End toolSchema.

(** * Map and Set objects

    Both iterate in insertion order; a key of a [Map] and an element of a
    [Set] occur once. *)

Module JsMap.

(** [m.get(key)] *)
Fixpoint get {V} (key : string) (m : list (string * V)) : option V :=
  match m with
  | [] => None
  | (k, v) :: m' => if decide (k = key) then Some v else get key m'
  end.

(** [m.has(key)] *)
Definition has {V} (key : string) (m : list (string * V)) : bool :=
  bool_decide (is_Some (get key m)).

(** [m.set(key, v)]: an existing key keeps its place, a new one goes last. *)
Fixpoint set {V} (key : string) (v : V) (m : list (string * V))
    : list (string * V) :=
  match m with
  | [] => [(key, v)]
  | (k, x) :: m' =>
      if decide (k = key) then (k, v) :: m' else (k, x) :: set key v m'
  end.

(** [m.delete(key)] *)
Fixpoint delete {V} (key : string) (m : list (string * V))
    : list (string * V) :=
  match m with
  | [] => []
  | (k, x) :: m' =>
      if decide (k = key) then delete key m' else (k, x) :: delete key m'
  end.

(** [m.size], [m.keys()], [m.values()] *)
Definition size {V} (m : list (string * V)) : nat := length m.
Definition keys {V} (m : list (string * V)) : list string := fst <$> m.
Definition values {V} (m : list (string * V)) : list V := snd <$> m.

End JsMap.

Module JsSet.

(** [s.add(x)] *)
Definition add (x : string) (s : list string) : list string :=
  if decide (x ∈ s) then s else s ++ [x].

(** [s.delete(x)] *)
Fixpoint delete (x : string) (s : list string) : list string :=
  match s with
  | [] => []
  | y :: s' => if decide (y = x) then delete x s' else y :: delete x s'
  end.

(** [s.size] *)
Definition size (s : list string) : nat := length s.

End JsSet.

(** * toolRegistry.ts *)

Module toolRegistry.
Import toolSchema.

(** The two private fields of the class. *)
Record ToolRegistry := {
  tools : list (string * Tool);
  tags : list (string * list string);
}.

(** [new ToolRegistry()] *)
Definition empty : ToolRegistry := {| tools := []; tags := [] |}.

(** The errors the registry throws, under the names the specification gives
    them; both are plain [Error]s told apart by their message. *)
Definition DuplicateNameError (name : string) : error :=
  Error ("Tool '" ++ name ++ "' is already registered").

Definition RegistryCorruptionError (name : string) : error :=
  Error ("Inconsistency in tool registry: tool '" ++ name
         ++ "' is referenced but not found").

(** The body of the [forEach] of [registerTool]: create the bucket of [tag]
    when there is none, then add [name] to it. *)
Definition indexTag (name : string) (index : list (string * list string))
    (tag : string) : list (string * list string) :=
  let index1 := if JsMap.has tag index then index else JsMap.set tag [] index in
  match JsMap.get tag index1 with
  | Some bucket => JsMap.set tag (JsSet.add name bucket) index1
  | None => index1
  end.

(** [registerTool]: the result or the error thrown, and the registry after
    the call. *)
Definition registerTool (tool : value) (this : ToolRegistry)
    : result Tool * ToolRegistry :=
  match validateTool tool with
  | Err e => (Err e, this)
  | Ok validatedTool =>
      if JsMap.has (name validatedTool) (tools this)
      then (Err (DuplicateNameError (name validatedTool)), this)
      else
        let tools1 := JsMap.set (name validatedTool) validatedTool (tools this) in
        let tags1 :=
          match toolSchema.tags validatedTool with
          | Some ts =>
              if decide (0 < length ts)%nat
              then foldl (indexTag (name validatedTool)) (tags this) ts
              else tags this
          | None => tags this
          end in
        (Ok validatedTool, {| tools := tools1; tags := tags1 |})
  end.

(** [getTool], [hasTool], [getAllTools], [getAllTags], [size], [tagCount] *)
Definition getTool (name : string) (this : ToolRegistry) : option Tool :=
  JsMap.get name (tools this).

Definition hasTool (name : string) (this : ToolRegistry) : bool :=
  JsMap.has name (tools this).

Definition getAllTools (this : ToolRegistry) : list Tool :=
  JsMap.values (tools this).

Definition getAllTags (this : ToolRegistry) : list string :=
  JsMap.keys (tags this).

Definition size (this : ToolRegistry) : nat := JsMap.size (tools this).

Definition tagCount (this : ToolRegistry) : nat := JsMap.size (tags this).

(** [getToolsByTag] *)
Definition getToolsByTag (tag : string) (this : ToolRegistry)
    : result (list Tool) :=
  match JsMap.get tag (tags this) with
  | None => Ok []
  | Some toolNames =>
      mapR (λ name,
              match JsMap.get name (tools this) with
              | Some tool => Ok tool
              | None => Err (RegistryCorruptionError name)
              end) toolNames
  end.

(** The body of the [forEach] of [unregisterTool]. *)
Definition scrubTag (name : string) (index : list (string * list string))
    (tag : string) : list (string * list string) :=
  match JsMap.get tag index with
  | Some toolsWithTag =>
      let toolsWithTag1 := JsSet.delete name toolsWithTag in
      let index1 := JsMap.set tag toolsWithTag1 index in
      if decide (JsSet.size toolsWithTag1 = 0)%nat
      then JsMap.delete tag index1
      else index1
  | None => index
  end.

(** [unregisterTool] *)
Definition unregisterTool (name : string) (this : ToolRegistry)
    : bool * ToolRegistry :=
  match JsMap.get name (tools this) with
  | None => (false, this)
  | Some tool =>
      let tools1 := JsMap.delete name (tools this) in
      let tags1 :=
        match toolSchema.tags tool with
        | Some ts => foldl (scrubTag name) (tags this) ts
        | None => tags this
        end in
      (true, {| tools := tools1; tags := tags1 |})
  end.

(** [registerTools]: [tools.map(tool => this.registerTool(tool))]; a throw of
    the callback ends the [map]. *)
Fixpoint registerTools (tools : list value) (this : ToolRegistry)
    : result (list Tool) * ToolRegistry :=
  match tools with
  | [] => (Ok [], this)
  | tool :: rest =>
      match registerTool tool this with
      | (Ok registered, this1) =>
          match registerTools rest this1 with
          | (Ok others, this2) => (Ok (registered :: others), this2)
          | (Err e, this2) => (Err e, this2)
          end
      | (Err e, this1) => (Err e, this1)
      end
  end.

(** [clear] *)
Definition clear (this : ToolRegistry) : ToolRegistry := empty.

End toolRegistry.

(** * Sample tools *)

Module samples.
Import toolSchema.

(** The tool of the specification's scenario: two string parameters, the
    second with an [enum]. *)
Definition httpRequest_value : value :=
  VObj {[
    "name" := VStr "httpRequest";
    "description" := VStr "Make an HTTP request to an external API";
    "parameters" := VObj {[
      "url" := VObj {[ "name" := VStr "url";
                       "description" := VStr "The URL to send the request to";
                       "type" := VStr "string";
                       "required" := VBool true ]};
      "method" := VObj {[ "name" := VStr "method";
                          "description" := VStr "The HTTP method to use";
                          "type" := VStr "string";
                          "required" := VBool true;
                          "enum" := VArr [VStr "GET"; VStr "POST"] ]} ]};
    "requiredParameters" := VArr [VStr "url"; VStr "method"];
    "tags" := VArr [VStr "http"; VStr "api"]
  ]}.

Definition httpRequest : Tool := {|
  name := "httpRequest";
  description := "Make an HTTP request to an external API";
  parameters := Some {[
    "url" := PString "url" "The URL to send the request to" true
               None None None None None None;
    "method" := PString "method" "The HTTP method to use" true
               None None None None (Some ["GET"; "POST"]) None ]};
  requiredParameters := Some ["url"; "method"];
  returns := None;
  tags := Some ["http"; "api"];
  examples := None;
  metadata := None;
|}.

(** A tool with no parameters and no tags. *)
Definition ping_value : value :=
  VObj {[ "name" := VStr "ping"; "description" := VStr "Check liveness" ]}.

Definition ping : Tool := {|
  name := "ping";
  description := "Check liveness";
  parameters := None;
  requiredParameters := None;
  returns := None;
  tags := None;
  examples := None;
  metadata := None;
|}.

(** A tool whose cross-references dangle: [requiredParameters] names
    [ghost], and the example feeds [nonexistent]. *)
Definition dangling : Tool := {|
  name := "fetch";
  description := "Fetch a page";
  parameters := Some {[
    "url" := PString "url" "Where to fetch from" true
               None None None None None None ]};
  requiredParameters := Some ["url"; "ghost"];
  returns := Some (PNumber "status" "The status code" false
                     None None None None None);
  tags := None;
  examples := Some [ {| input := {[ "nonexistent" := VNum 1 ]};
                        output := VNum 200;
                        example_description := None |} ];
  metadata := None;
|}.

Definition dangling_value : value :=
  VObj {[
    "name" := VStr "fetch";
    "description" := VStr "Fetch a page";
    "parameters" := VObj {[
      "url" := VObj {[ "name" := VStr "url";
                       "description" := VStr "Where to fetch from";
                       "type" := VStr "string";
                       "required" := VBool true ]} ]};
    "requiredParameters" := VArr [VStr "url"; VStr "ghost"];
    "returns" := VObj {[ "name" := VStr "status";
                         "description" := VStr "The status code";
                         "type" := VStr "number";
                         "required" := VBool false ]};
    "examples" := VArr [ VObj {[ "input" := VObj {[ "nonexistent" := VNum 1 ]};
                                 "output" := VNum 200 ]} ]
  ]}.

(** A tool with constraints on nested parameters, and what [validateTool]
    returns for it. *)
Definition nested : Tool := {|
  name := "createIssue";
  description := "Create an issue";
  parameters := Some {[
    "labels" := PArray "labels" "Labels to attach" false
                  (PString "label" "One label" false
                     None (Some 3%float) None None (Some ["bug"; "feature"]) None)
                  None None (Some true) None;
    "owner" := PObject "owner" "Who owns it"
                 (Some {[ "age" := PNumber "age" "Age in years" false
                                     (Some 0%float) None None None None ]})
                 None None None ]};
  requiredParameters := None;
  returns := None;
  tags := None;
  examples := None;
  metadata := None;
|}.

Definition nested_validated : Tool := {|
  name := "createIssue";
  description := "Create an issue";
  parameters := Some {[
    "labels" := PArray "labels" "Labels to attach" false
                  (PBase "label" "One label" TString false)
                  None None (Some true) None;
    "owner" := PObject "owner" "Who owns it"
                 (Some {[ "age" := PBase "age" "Age in years" TNumber false ]})
                 None None None ]};
  requiredParameters := None;
  returns := None;
  tags := None;
  examples := None;
  metadata := None;
|}.











(** An array of arrays of numbers. *)
Definition matrix : Tool := {|
  name := "matrix";
  description := "Sum a matrix";
  parameters := Some {[
    "rows" := PArray "rows" "The rows" true
                (PArray "row" "One row" false
                   (PNumber "cell" "One cell" false None None None None None)
                   None None None None)
                None None None None ]};
  requiredParameters := Some ["rows"];
  returns := None;
  tags := Some ["math"];
  examples := None;
  metadata := None;
|}.

Definition matrix_value : value :=
  VObj {[
    "name" := VStr "matrix";
    "description" := VStr "Sum a matrix";
    "parameters" := VObj {[
      "rows" := VObj {[
        "name" := VStr "rows";
        "description" := VStr "The rows";
        "type" := VStr "array";
        "required" := VBool true;
        "items" := VObj {[
          "name" := VStr "row";
          "description" := VStr "One row";
          "type" := VStr "array";
          "required" := VBool false;
          "items" := VObj {[ "name" := VStr "cell";
                             "description" := VStr "One cell";
                             "type" := VStr "number";
                             "required" := VBool false ]} ]} ]} ]};
    "requiredParameters" := VArr [VStr "rows"];
    "tags" := VArr [VStr "math"]
  ]}.

(** What [validateTool] returns for [matrix_value]: the inner array is a
    bare base parameter, its [items] gone. *)
Definition matrix_validated : Tool := {|
  name := "matrix";
  description := "Sum a matrix";
  parameters := Some {[
    "rows" := PArray "rows" "The rows" true
                (PBase "row" "One row" TArray false)
                None None None None ]};
  requiredParameters := Some ["rows"];
  returns := None;
  tags := Some ["math"];
  examples := None;
  metadata := None;
|}.


End samples.

(** * What the converter is expected to do with one parameter *)

Module conversion.
Import toolSchema.








(** [v.includes] is not a function, [v] being neither [undefined] nor
    [null]: [v] is a boolean, a number or an object. *)
Definition no_includes (v : value) : Prop :=
  match v with
  | VBool _ | VNum _ | VObj _ => True
  | _ => False
  end.

(** When [parameterToJsonSchema] throws on [param]: [param] is [undefined]
    or [null]; or it is an array parameter and the conversion of its [items]
    throws; or it is an object parameter with an entry in [properties] whose
    conversion throws, or with some entry in [properties] and a [required]
    that has no [includes]. *)
Inductive throws : value → Prop :=
| throws_undefined : throws VUndefined
| throws_null : throws VNull
| throws_items data :
    is_string "array" (get "type" data) = true →
    throws (get "items" data) →
    throws (VObj data)
| throws_property data key prop :
    is_string "object" (get "type" data) = true →
    Object_entries (get "properties" data) !! key = Some prop →
    throws prop →
    throws (VObj data)
| throws_required data :
    is_string "object" (get "type" data) = true →
    Object_entries (get "properties" data) ≠ ∅ →
    no_includes (get "required" data) →
    throws (VObj data).

(** When [toolToJsonSchema] throws on [tool]. *)
Inductive tool_throws : value → Prop :=
| tool_throws_undefined : tool_throws VUndefined
| tool_throws_null : tool_throws VNull
| tool_throws_parameter tool key param :
    Object_entries (read "parameters" tool) !! key = Some param →
    throws param →
    tool_throws tool
| tool_throws_required tool :
    Object_entries (read "parameters" tool) ≠ ∅ →
    no_includes (read "requiredParameters" tool) →
    tool_throws tool
| tool_throws_returns tool :
    truthy (read "returns" tool) = true →
    throws (read "returns" tool) →
    tool_throws tool.

(** Every array inside [param], [param] included, has its [items]. *)
Fixpoint items_present (param : Param) : bool :=
  match param with
  | PBase _ _ TArray _ => false
  | PArray _ _ _ items _ _ _ _ => items_present items
  | PObject _ _ (Some props) _ _ _ =>
      bool_decide (map_Forall (λ _ b, b = true) (items_present <$> props))
  | _ => true
  end.

Definition tool_items_present (tool : Tool) : bool :=
  bool_decide (map_Forall (λ _ param, items_present param = true)
                 (default ∅ (parameters tool))) &&
  from_option items_present true (returns tool).

Fixpoint Param_size (param : Param) : nat :=
  match param with
  | PArray _ _ _ items _ _ _ _ => S (Param_size items)
  | PObject _ _ (Some props) _ _ _ =>
      S (map_fold (λ _ n acc, n + acc)%nat 0%nat (Param_size <$> props))
  | _ => 0%nat
  end.

(** The nesting of a value, for inductions. *)
Fixpoint value_size (v : value) : nat :=
  match v with
  | VArr xs => S (foldr (λ n acc, n + acc)%nat 0%nat (value_size <$> xs))
  | VObj m => S (map_fold (λ _ n acc, n + acc)%nat 0%nat (value_size <$> m))
  | _ => 0%nat
  end.

(** The entry of an object literal that gives [key] its value: the last one
    with that key and a truthy guard. *)
Fixpoint entry_for (key : string) (entries : list (string * option value))
    : option value :=
  match entries with
  | [] => None
  | (k, field) :: rest =>
      match entry_for key rest with
      | Some v => Some v
      | None => if decide (k = key) then field else None
      end
  end.

End conversion.

(** * Statements about the registry and about values *)

Import toolSchema.
Import conversion.
Import toolRegistry.

(** [name] is a member of the bucket of [tag]. *)
Definition inBucket (index : list (string * list string)) (tag name : string) : Prop :=
  ∃ bucket, JsMap.get tag index = Some bucket ∧ name ∈ bucket.

(** [name] is a key of [tools] and [tag] occurs in the tags of its tool. *)
Definition tagged (tools : list (string * Tool)) (tag name : string) : Prop :=
  ∃ tool, JsMap.get name tools = Some tool ∧ tag ∈ default [] (toolSchema.tags tool).

(** The registries that [new ToolRegistry()] and the four mutators produce. *)
Inductive reachable : ToolRegistry → Prop :=
| reachable_new : reachable empty
| reachable_registerTool tool this :
    reachable this → reachable (registerTool tool this).2
| reachable_registerTools tools this :
    reachable this → reachable (registerTools tools this).2
| reachable_unregisterTool name this :
    reachable this → reachable (unregisterTool name this).2
| reachable_clear this :
    reachable this → reachable (clear this).

(** What the invariant proof carries along: the index mirrors the tags of the
    tools, no bucket is empty, every tool is stored under its own name. *)
Record consistent (this : ToolRegistry) : Prop := {
  consistent_index : ∀ tag name,
    inBucket (toolRegistry.tags this) tag name ↔ tagged (tools this) tag name;
  consistent_nonempty : ∀ tag bucket,
    JsMap.get tag (toolRegistry.tags this) = Some bucket → bucket ≠ [];
  consistent_keys : ∀ key tool,
    JsMap.get key (tools this) = Some tool → name tool = key;
}.

(** The bucket of [tag] once [name] was scrubbed from it: gone when nothing
    is left. *)
Definition scrubbed (name : string) (bucket : option (list string))
    : option (list string) :=
  match bucket with
  | Some b => if decide (JsSet.delete name b = []) then None
              else Some (JsSet.delete name b)
  | None => None
  end.

(** The [name] key of a value handed to [registerTool]. *)
Definition name_of (tool : value) : value :=
  match tool with
  | VObj data => get "name" data
  | _ => VUndefined
  end.

(** The value at the end of a chain of keys. *)
Definition at_path (path : list string) (v : value) : value :=
  foldl (λ v key, match v with VObj data => get key data | _ => VUndefined end)
        v path.


(** * Further statements about the registry *)

(** The representation of the two [Map]s and of the [Set]s: a key occurs
    once, a name occurs once in a bucket. *)
Record well_formed (this : ToolRegistry) : Prop := {
  well_formed_tools : NoDup (JsMap.keys (tools this));
  well_formed_tags : NoDup (JsMap.keys (toolRegistry.tags this));
  well_formed_buckets : ∀ tag bucket,
    JsMap.get tag (toolRegistry.tags this) = Some bucket → NoDup bucket;
}.

(** [name] is not in the bucket of [tag], and that bucket is not empty; or
    there is no such bucket. *)
Definition clean_at (name : string) (index : list (string * list string))
    (tag : string) : Prop :=
  ∀ bucket, JsMap.get tag index = Some bucket → (name ∉ bucket) ∧ bucket ≠ [].

(** * Further statements about validation *)

(** Parsing what was parsed: the schema [s] accepts the encoding [encode a]
    of every result [a] it returns, and returns [a] for it. *)
Definition stable {A} (s : schema A) (encode : A → value) : Prop :=
  ∀ v a, s v = Ok a → s (encode a) = Ok a.

(** The only thing a parser throws is a [ZodError]. *)
Definition throws_ZodError {A} (r : result A) : Prop :=
  ∀ e, r = Err e → e = ZodError.

(** [param.name] *)
Definition param_name (param : Param) : string :=
  match param with
  | PBase n _ _ _ | PString n _ _ _ _ _ _ _ _ | PNumber n _ _ _ _ _ _ _
  | PBoolean n _ _ _ | PArray n _ _ _ _ _ _ _ | PObject n _ _ _ _ _ => n
  end.

(** The parameter is a bare base one. *)
Definition is_base (param : Param) : Prop :=
  match param with PBase _ _ _ _ => True | _ => False end.

(** * builtInTools.ts *)

Module builtInTools.
Import toolSchema toolRegistry.

(** The double quote, for the one string of the file that holds some. *)
Definition dq : string := String (Ascii.ascii_of_nat 34) EmptyString.

Definition httpRequestTool : value :=
  VObj {[
    "name" := VStr "httpRequest";
    "description" := VStr "Make an HTTP request to an external API";
    "parameters" := VObj {[
      "url" := VObj {[
        "name" := VStr "url";
        "description" := VStr "The URL to send the request to";
        "type" := VStr "string";
        "required" := VBool true ]};
      "method" := VObj {[
        "name" := VStr "method";
        "description" := VStr "The HTTP method to use";
        "type" := VStr "string";
        "required" := VBool true;
        "enum" := VArr [
          VStr "GET";
          VStr "POST";
          VStr "PUT";
          VStr "DELETE";
          VStr "PATCH";
          VStr "HEAD";
          VStr "OPTIONS" ] ]};
      "headers" := VObj {[
        "name" := VStr "headers";
        "description" := VStr "HTTP headers to include in the request";
        "type" := VStr "object";
        "required" := VBool false;
        "properties" := VObj ∅;
        "additionalProperties" := VBool true ]};
      "queryParameters" := VObj {[
        "name" := VStr "queryParameters";
        "description" := VStr "Query parameters to include in the URL";
        "type" := VStr "object";
        "required" := VBool false;
        "properties" := VObj ∅;
        "additionalProperties" := VBool true ]};
      "body" := VObj {[
        "name" := VStr "body";
        "description" := VStr "The body of the request (for POST, PUT, PATCH)";
        "type" := VStr "string";
        "required" := VBool false ]} ]};
    "requiredParameters" := VArr [
      VStr "url";
      VStr "method" ];
    "returns" := VObj {[
      "name" := VStr "response";
      "description" := VStr "The HTTP response";
      "type" := VStr "object";
      "properties" := VObj {[
        "statusCode" := VObj {[
          "name" := VStr "statusCode";
          "description" := VStr "The HTTP status code";
          "type" := VStr "number";
          "required" := VBool true ]};
        "headers" := VObj {[
          "name" := VStr "headers";
          "description" := VStr "The response headers";
          "type" := VStr "object";
          "required" := VBool true;
          "properties" := VObj ∅;
          "additionalProperties" := VBool true ]};
        "body" := VObj {[
          "name" := VStr "body";
          "description" := VStr "The response body";
          "type" := VStr "string";
          "required" := VBool true ]} ]};
      "required" := VBool true ]};
    "tags" := VArr [
      VStr "http";
      VStr "api";
      VStr "external" ];
    "examples" := VArr [
      VObj {[
        "input" := VObj {[
          "url" := VStr "https://api.example.com/data";
          "method" := VStr "GET";
          "headers" := VObj {[
            "Content-Type" := VStr "application/json";
            "Authorization" := VStr "Bearer abc123" ]} ]};
        "output" := VObj {[
          "statusCode" := VNum 200;
          "headers" := VObj {[
            "content-type" := VStr "application/json" ]};
          "body" := VStr ("{" ++ dq ++ "data" ++ dq ++ ": {" ++ dq ++ "id" ++ dq ++ ": 1, " ++ dq ++ "name" ++ dq ++ ": " ++ dq ++ "Example" ++ dq ++ "}}") ]};
        "description" := VStr "Get data from an example API" ]} ] ]}.

Definition databaseQueryTool : value :=
  VObj {[
    "name" := VStr "databaseQuery";
    "description" := VStr "Query a database to retrieve or manipulate data";
    "parameters" := VObj {[
      "connectionName" := VObj {[
        "name" := VStr "connectionName";
        "description" := VStr "The name of the database connection to use";
        "type" := VStr "string";
        "required" := VBool true ]};
      "query" := VObj {[
        "name" := VStr "query";
        "description" := VStr "The SQL query to execute";
        "type" := VStr "string";
        "required" := VBool true ]};
      "parameters" := VObj {[
        "name" := VStr "parameters";
        "description" := VStr "Parameters for the query (to prevent SQL injection)";
        "type" := VStr "array";
        "required" := VBool false;
        "items" := VObj {[
          "name" := VStr "parameter";
          "description" := VStr "A parameter value";
          "type" := VStr "string";
          "required" := VBool true ]} ]} ]};
    "requiredParameters" := VArr [
      VStr "connectionName";
      VStr "query" ];
    "returns" := VObj {[
      "name" := VStr "result";
      "description" := VStr "The query result";
      "type" := VStr "object";
      "properties" := VObj {[
        "rows" := VObj {[
          "name" := VStr "rows";
          "description" := VStr "The rows returned by the query";
          "type" := VStr "array";
          "required" := VBool true;
          "items" := VObj {[
            "name" := VStr "row";
            "description" := VStr "A result row";
            "type" := VStr "object";
            "required" := VBool true;
            "properties" := VObj ∅;
            "additionalProperties" := VBool true ]} ]};
        "rowCount" := VObj {[
          "name" := VStr "rowCount";
          "description" := VStr "The number of rows affected or returned";
          "type" := VStr "number";
          "required" := VBool true ]} ]};
      "required" := VBool true ]};
    "tags" := VArr [
      VStr "database";
      VStr "sql";
      VStr "data" ];
    "examples" := VArr [
      VObj {[
        "input" := VObj {[
          "connectionName" := VStr "postgres";
          "query" := VStr "SELECT * FROM users WHERE id = $1";
          "parameters" := VArr [
            VStr "123" ] ]};
        "output" := VObj {[
          "rows" := VArr [
            VObj {[
              "id" := VNum 123;
              "name" := VStr "John Doe";
              "email" := VStr "john@example.com" ]} ];
          "rowCount" := VNum 1 ]};
        "description" := VStr "Query a user from a PostgreSQL database" ]} ] ]}.

Definition fileOperationTool : value :=
  VObj {[
    "name" := VStr "fileOperation";
    "description" := VStr "Perform operations on files and directories";
    "parameters" := VObj {[
      "operation" := VObj {[
        "name" := VStr "operation";
        "description" := VStr "The operation to perform";
        "type" := VStr "string";
        "required" := VBool true;
        "enum" := VArr [
          VStr "read";
          VStr "write";
          VStr "list";
          VStr "delete";
          VStr "exists" ] ]};
      "path" := VObj {[
        "name" := VStr "path";
        "description" := VStr "The path to the file or directory";
        "type" := VStr "string";
        "required" := VBool true ]};
      "content" := VObj {[
        "name" := VStr "content";
        "description" := VStr "The content to write (for write operation)";
        "type" := VStr "string";
        "required" := VBool false ]};
      "encoding" := VObj {[
        "name" := VStr "encoding";
        "description" := VStr "The encoding to use for reading or writing";
        "type" := VStr "string";
        "required" := VBool false;
        "default" := VStr "utf8" ]} ]};
    "requiredParameters" := VArr [
      VStr "operation";
      VStr "path" ];
    "returns" := VObj {[
      "name" := VStr "result";
      "description" := VStr "The result of the file operation";
      "type" := VStr "object";
      "properties" := VObj {[
        "success" := VObj {[
          "name" := VStr "success";
          "description" := VStr "Whether the operation was successful";
          "type" := VStr "boolean";
          "required" := VBool true ]};
        "data" := VObj {[
          "name" := VStr "data";
          "description" := VStr "The operation result data";
          "type" := VStr "string";
          "required" := VBool false ]};
        "files" := VObj {[
          "name" := VStr "files";
          "description" := VStr "List of files (for list operation)";
          "type" := VStr "array";
          "required" := VBool false;
          "items" := VObj {[
            "name" := VStr "file";
            "description" := VStr "A file or directory";
            "type" := VStr "object";
            "required" := VBool true;
            "properties" := VObj {[
              "name" := VObj {[
                "name" := VStr "name";
                "description" := VStr "The file or directory name";
                "type" := VStr "string";
                "required" := VBool true ]};
              "path" := VObj {[
                "name" := VStr "path";
                "description" := VStr "The full path";
                "type" := VStr "string";
                "required" := VBool true ]};
              "type" := VObj {[
                "name" := VStr "type";
                "description" := VStr "The item type (file or directory)";
                "type" := VStr "string";
                "required" := VBool true;
                "enum" := VArr [
                  VStr "file";
                  VStr "directory" ] ]};
              "size" := VObj {[
                "name" := VStr "size";
                "description" := VStr "The file size in bytes";
                "type" := VStr "number";
                "required" := VBool false ]} ]} ]} ]};
        "error" := VObj {[
          "name" := VStr "error";
          "description" := VStr "Error message if the operation failed";
          "type" := VStr "string";
          "required" := VBool false ]} ]};
      "required" := VBool true ]};
    "tags" := VArr [
      VStr "file";
      VStr "filesystem";
      VStr "io" ] ]}.

Definition weatherTool : value :=
  VObj {[
    "name" := VStr "weatherInfo";
    "description" := VStr "Get weather information for a location";
    "parameters" := VObj {[
      "location" := VObj {[
        "name" := VStr "location";
        "description" := VStr "The location to get weather for (city name, zip code, or coordinates)";
        "type" := VStr "string";
        "required" := VBool true ]};
      "units" := VObj {[
        "name" := VStr "units";
        "description" := VStr "The units to use for temperature and other measurements";
        "type" := VStr "string";
        "required" := VBool false;
        "enum" := VArr [
          VStr "metric";
          VStr "imperial" ];
        "default" := VStr "metric" ]} ]};
    "requiredParameters" := VArr [
      VStr "location" ];
    "returns" := VObj {[
      "name" := VStr "weather";
      "description" := VStr "Weather information";
      "type" := VStr "object";
      "properties" := VObj {[
        "temperature" := VObj {[
          "name" := VStr "temperature";
          "description" := VStr "Current temperature";
          "type" := VStr "number";
          "required" := VBool true ]};
        "feelsLike" := VObj {[
          "name" := VStr "feelsLike";
          "description" := VStr "What the temperature feels like";
          "type" := VStr "number";
          "required" := VBool true ]};
        "conditions" := VObj {[
          "name" := VStr "conditions";
          "description" := VStr "Weather conditions description";
          "type" := VStr "string";
          "required" := VBool true ]};
        "humidity" := VObj {[
          "name" := VStr "humidity";
          "description" := VStr "Humidity percentage";
          "type" := VStr "number";
          "required" := VBool true ]};
        "windSpeed" := VObj {[
          "name" := VStr "windSpeed";
          "description" := VStr "Wind speed";
          "type" := VStr "number";
          "required" := VBool true ]};
        "forecast" := VObj {[
          "name" := VStr "forecast";
          "description" := VStr "Forecast for upcoming days";
          "type" := VStr "array";
          "required" := VBool false;
          "items" := VObj {[
            "name" := VStr "day";
            "description" := VStr "Forecast for a single day";
            "type" := VStr "object";
            "required" := VBool true;
            "properties" := VObj {[
              "date" := VObj {[
                "name" := VStr "date";
                "description" := VStr "The date of the forecast";
                "type" := VStr "string";
                "required" := VBool true ]};
              "high" := VObj {[
                "name" := VStr "high";
                "description" := VStr "High temperature";
                "type" := VStr "number";
                "required" := VBool true ]};
              "low" := VObj {[
                "name" := VStr "low";
                "description" := VStr "Low temperature";
                "type" := VStr "number";
                "required" := VBool true ]};
              "conditions" := VObj {[
                "name" := VStr "conditions";
                "description" := VStr "Weather conditions description";
                "type" := VStr "string";
                "required" := VBool true ]} ]} ]} ]} ]};
      "required" := VBool true ]};
    "tags" := VArr [
      VStr "weather";
      VStr "external";
      VStr "api" ] ]}.

Definition builtInTools : list value :=
  [httpRequestTool; databaseQueryTool; fileOperationTool; weatherTool].

(** [globalToolRegistry.hasTool(tool.name)]: the keys of the registry are
    strings, so a name that is not one is not found. *)
Definition hasToolNamed (tool : value) (globalToolRegistry : ToolRegistry) : bool :=
  match name_of tool with
  | VStr name => hasTool name globalToolRegistry
  | _ => false
  end.

(** The [forEach] of [registerBuiltInTools], over any array of tools: a
    throw of [registerTool] ends it. *)
Fixpoint registerEach (tools : list value) (globalToolRegistry : ToolRegistry)
    : result unit * ToolRegistry :=
  match tools with
  | [] => (Ok tt, globalToolRegistry)
  | tool :: rest =>
      if negb (hasToolNamed tool globalToolRegistry)
      then
        match registerTool tool globalToolRegistry with
        | (Ok _, registry1) => registerEach rest registry1
        | (Err e, registry1) => (Err e, registry1)
        end
      else registerEach rest globalToolRegistry
  end.

(** [registerBuiltInTools] *)
Definition registerBuiltInTools (globalToolRegistry : ToolRegistry)
    : result unit * ToolRegistry :=
  registerEach builtInTools globalToolRegistry.

(** [tool.name === name] *)
Definition isNamed (name : string) (tool : value) : bool :=
  match name_of tool with
  | VStr n => bool_decide (n = name)
  | _ => false
  end.

(** [getBuiltInTool] *)
Definition getBuiltInTool (name : string) : option value :=
  List.find (isNamed name) builtInTools.

End builtInTools.

#[local] Arguments literal : simpl never.

(** * Properties *)

(** ** Results and schemas *)

Lemma bind_Ok {A B} (r : result A) (k : A → result B) b :
  r ≫= k = Ok b ↔ ∃ a, r = Ok a ∧ k a = Ok b.
Proof.
  destruct r as [a|e]; simpl.
  - split; [by eauto|]. by intros (? & [= <-] & ?).
  - split; [done|]. by intros (? & [=] & _).
Qed.

Lemma Ok_inj {A} (a b : A) : Ok a = Ok b → a = b.
Proof. congruence. Qed.

Lemma z_string_Ok v s : z_string v = Ok s ↔ v = VStr s.
Proof. destruct v; simpl; split; congruence. Qed.

Lemma z_string_min_Ok n v s : z_string_min n v = Ok s → v = VStr s.
Proof.
  unfold z_string_min. intros (s' & Hs%z_string_Ok & Hk)%bind_Ok.
  destruct (decide _); [|done]. congruence.
Qed.

(** [Number.isInteger] on a few numbers. *)
Example isInteger_samples :
  isInteger 3%float = true ∧ isInteger (-0)%float = true ∧
  isInteger 0x1p60%float = true ∧ isInteger 2.5%float = false ∧
  isInteger infinity = false ∧ isInteger nan = false.
Proof. vm_compute. done. Qed.

(** Validation does reject: an empty name, a fractional [minLength] on a
    parameter of the tool, a value that is not an object. *)
Example validateTool_rejects :
  validateTool (VObj {[ "name" := VStr EmptyString; "description" := VStr "x" ]})
    = Err ZodError ∧
  validateTool (VObj {[
    "name" := VStr "t"; "description" := VStr "x";
    "parameters" := VObj {[
      "p" := VObj {[ "name" := VStr "p"; "description" := VStr "d";
                     "type" := VStr "string"; "minLength" := VNum 2.5 ]} ]} ]})
    = Err ZodError ∧
  validateTool (VArr []) = Err ZodError.
Proof. vm_compute. done. Qed.

(** ** Map and Set lemmas *)

Section JsMap_facts.
Context {V : Type}.
Implicit Types (m : list (string * V)) (k : string) (v : V).

Lemma JsMap_get_set k k' v m :
  JsMap.get k' (JsMap.set k v m) = if decide (k = k') then Some v else JsMap.get k' m.
Proof.
  induction m as [|[k0 x] m IH]; simpl.
  - by destruct (decide (k = k')).
  - destruct (decide (k0 = k)) as [->|Hne]; simpl.
    + by destruct (decide (k = k')).
    + destruct (decide (k0 = k')) as [->|Hne'].
      * by rewrite decide_False by congruence.
      * done.
Qed.

Lemma JsMap_get_set_eq k v m : JsMap.get k (JsMap.set k v m) = Some v.
Proof. by rewrite JsMap_get_set, decide_True. Qed.

Lemma JsMap_get_set_ne k k' v m :
  k ≠ k' → JsMap.get k' (JsMap.set k v m) = JsMap.get k' m.
Proof. intros. by rewrite JsMap_get_set, decide_False. Qed.

Lemma JsMap_get_delete k k' m :
  JsMap.get k' (JsMap.delete k m) = if decide (k = k') then None else JsMap.get k' m.
Proof.
  induction m as [|[k0 x] m IH]; simpl.
  - by destruct (decide (k = k')).
  - destruct (decide (k0 = k)) as [->|Hne]; simpl.
    + rewrite IH. destruct (decide (k = k')); done.
    + rewrite IH. destruct (decide (k0 = k')) as [->|Hne'].
      * by rewrite decide_False by congruence.
      * done.
Qed.

Lemma JsMap_has_true k m : JsMap.has k m = true ↔ is_Some (JsMap.get k m).
Proof. unfold JsMap.has. apply bool_decide_eq_true. Qed.

Lemma JsMap_has_false k m : JsMap.has k m = false ↔ JsMap.get k m = None.
Proof.
  unfold JsMap.has. rewrite bool_decide_eq_false. symmetry. apply eq_None_not_Some.
Qed.

Lemma JsMap_delete_absent k m : JsMap.get k m = None → JsMap.delete k m = m.
Proof.
  induction m as [|[k0 x] m IH]; simpl; [done|].
  destruct (decide (k0 = k)); [done|]. intros H. by rewrite IH.
Qed.
End JsMap_facts.

Lemma JsSet_elem_of_add x y s : y ∈ JsSet.add x s ↔ y = x ∨ y ∈ s.
Proof.
  unfold JsSet.add. destruct (decide (x ∈ s)).
  - split; [auto|]. intros [->|]; done.
  - rewrite elem_of_app, list_elem_of_singleton. tauto.
Qed.

Lemma JsSet_add_nonempty x s : JsSet.add x s ≠ [].
Proof.
  intros H. assert (x ∈ JsSet.add x s) as Hin by (apply JsSet_elem_of_add; auto).
  rewrite H in Hin. by apply elem_of_nil in Hin.
Qed.

Lemma JsSet_elem_of_delete x y s : y ∈ JsSet.delete x s ↔ y ≠ x ∧ y ∈ s.
Proof.
  induction s as [|z s IH]; simpl.
  - rewrite elem_of_nil. tauto.
  - destruct (decide (z = x)) as [->|Hne].
    + rewrite IH, elem_of_cons. split; [tauto|]. intros [? [->|?]]; done.
    + rewrite !elem_of_cons, IH. split.
      * intros [->|[? ?]]; auto.
      * intros [? [->|?]]; auto.
Qed.

Lemma JsSet_delete_idemp x s : JsSet.delete x (JsSet.delete x s) = JsSet.delete x s.
Proof.
  induction s as [|z s IH]; simpl; [done|].
  destruct (decide (z = x)); simpl; [done|].
  rewrite decide_False by done. by rewrite IH.
Qed.

Lemma JsSet_delete_absent x s : x ∉ s → JsSet.delete x s = s.
Proof.
  induction s as [|z s IH]; simpl; [done|].
  rewrite not_elem_of_cons. intros [? ?].
  rewrite decide_False by done. by rewrite IH.
Qed.

(** ** The tag index *)

Lemma indexTag_get name index tag t :
  JsMap.get t (indexTag name index tag) =
  if decide (tag = t)
  then Some (JsSet.add name (default [] (JsMap.get tag index)))
  else JsMap.get t index.
Proof.
  unfold indexTag. destruct (JsMap.has tag index) eqn:Hhas.
  - apply JsMap_has_true in Hhas as [b Hb]. rewrite Hb.
    rewrite JsMap_get_set. by destruct (decide (tag = t)).
  - apply JsMap_has_false in Hhas. rewrite JsMap_get_set_eq, Hhas.
    rewrite !JsMap_get_set. by destruct (decide (tag = t)).
Qed.

Lemma indexTag_inBucket name index tag t n :
  inBucket (indexTag name index tag) t n ↔
  inBucket index t n ∨ (t = tag ∧ n = name).
Proof.
  unfold inBucket. rewrite indexTag_get.
  destruct (decide (tag = t)) as [->|Hne].
  - split.
    + intros (b & [= <-] & Hin). apply JsSet_elem_of_add in Hin as [->|Hin]; [by right|].
      left. destruct (JsMap.get t index) as [b|]; simpl in *; [eauto|].
      by apply elem_of_nil in Hin.
    + intros [(b & Hb & Hin)|[_ ->]]; eexists; (split; [done|]);
        apply JsSet_elem_of_add; [|by left]. rewrite Hb. by right.
  - split; [by left|]. intros [?|[-> _]]; done.
Qed.

Lemma indexTag_nonempty name index tag :
  (∀ t b, JsMap.get t index = Some b → b ≠ []) →
  ∀ t b, JsMap.get t (indexTag name index tag) = Some b → b ≠ [].
Proof.
  intros Hidx t b. rewrite indexTag_get.
  destruct (decide (tag = t)); [|by apply Hidx].
  intros [= <-]. apply JsSet_add_nonempty.
Qed.

Lemma foldl_indexTag_inBucket name ts index t n :
  inBucket (foldl (indexTag name) index ts) t n ↔
  inBucket index t n ∨ (t ∈ ts ∧ n = name).
Proof.
  revert index. induction ts as [|tag ts IH]; intros index; simpl.
  - rewrite elem_of_nil. tauto.
  - rewrite IH, indexTag_inBucket, elem_of_cons. tauto.
Qed.

Lemma foldl_indexTag_nonempty name ts index :
  (∀ t b, JsMap.get t index = Some b → b ≠ []) →
  ∀ t b, JsMap.get t (foldl (indexTag name) index ts) = Some b → b ≠ [].
Proof.
  revert index. induction ts as [|tag ts IH]; intros index Hidx; simpl; [done|].
  apply IH. by apply indexTag_nonempty.
Qed.

Lemma scrubbed_idemp name bucket :
  scrubbed name (scrubbed name bucket) = scrubbed name bucket.
Proof.
  destruct bucket as [b|]; simpl; [|done].
  destruct (decide (JsSet.delete name b = [])) as [|Hne]; simpl; [done|].
  rewrite JsSet_delete_idemp. by rewrite decide_False.
Qed.

Lemma scrubTag_get name index tag t :
  JsMap.get t (scrubTag name index tag) =
  if decide (tag = t) then scrubbed name (JsMap.get tag index)
  else JsMap.get t index.
Proof.
  unfold scrubTag, scrubbed, JsSet.size.
  destruct (JsMap.get tag index) as [b|] eqn:Hb.
  - destruct (decide (length (JsSet.delete name b) = 0)%nat) as [Hlen|Hlen].
    + apply length_zero_iff_nil in Hlen.
      rewrite (decide_True (P := JsSet.delete name b = [])) by done.
      rewrite JsMap_get_delete. destruct (decide (tag = t)); [done|].
      by rewrite JsMap_get_set_ne.
    + rewrite (decide_False (P := JsSet.delete name b = []))
        by (by rewrite <-length_zero_iff_nil).
      by rewrite JsMap_get_set.
  - destruct (decide (tag = t)) as [<-|]; done.
Qed.

Lemma foldl_scrubTag_get name ts index t :
  JsMap.get t (foldl (scrubTag name) index ts) =
  if decide (t ∈ ts) then scrubbed name (JsMap.get t index)
  else JsMap.get t index.
Proof.
  revert index. induction ts as [|tag ts IH]; intros index; cbn [foldl].
  - destruct (decide (t ∈ [])) as [[]%elem_of_nil|]; done.
  - rewrite IH, !scrubTag_get.
    destruct (decide (tag = t)) as [->|Hne].
    + rewrite scrubbed_idemp.
      destruct (decide (t ∈ t :: ts)) as [_|[]]; [|apply list_elem_of_here].
      by destruct (decide (t ∈ ts)).
    + destruct (decide (t ∈ ts)) as [Hin|Hnin];
        destruct (decide (t ∈ tag :: ts)) as [Hin'|Hnin']; try done.
      * destruct Hnin'. by apply list_elem_of_further.
      * apply elem_of_cons in Hin' as [->|?]; done.
Qed.

Lemma scrubbed_Some name bucket b :
  scrubbed name bucket = Some b ↔
  ∃ b0, bucket = Some b0 ∧ b = JsSet.delete name b0 ∧ b ≠ [].
Proof.
  destruct bucket as [b0|]; simpl.
  - destruct (decide (JsSet.delete name b0 = [])) as [He|Hne].
    + split; [done|]. intros (? & [= <-] & -> & ?). done.
    + split.
      * intros [= <-]. eauto.
      * intros (? & [= <-] & -> & ?). done.
  - split; [done|]. intros (? & ? & _). done.
Qed.

Lemma foldl_scrubTag_inBucket name ts index t n :
  inBucket (foldl (scrubTag name) index ts) t n ↔
  inBucket index t n ∧ ¬ (t ∈ ts ∧ n = name).
Proof.
  unfold inBucket. rewrite foldl_scrubTag_get.
  destruct (decide (t ∈ ts)) as [Hin|Hnin].
  - split.
    + intros (b & (b0 & Hb0 & -> & Hne)%scrubbed_Some & Hn).
      apply JsSet_elem_of_delete in Hn as [? ?]. split; [eauto|]. tauto.
    + intros [(b0 & Hb0 & Hn) Hnot].
      assert (n ∈ JsSet.delete name b0) as Hn'.
      { apply JsSet_elem_of_delete. split; [|done]. intros ->. tauto. }
      exists (JsSet.delete name b0). split; [|done].
      apply scrubbed_Some. exists b0. split_and!; [done..|].
      intros He. rewrite He in Hn'. by apply elem_of_nil in Hn'.
  - split; [|tauto]. intros H. split; [done|]. tauto.
Qed.

Lemma foldl_scrubTag_nonempty name ts index :
  (∀ t b, JsMap.get t index = Some b → b ≠ []) →
  ∀ t b, JsMap.get t (foldl (scrubTag name) index ts) = Some b → b ≠ [].
Proof.
  intros Hidx t b. rewrite foldl_scrubTag_get.
  destruct (decide (t ∈ ts)); [|by apply Hidx].
  intros (b0 & _ & _ & ?)%scrubbed_Some. done.
Qed.

(** ** Normal forms of the mutators *)

Lemma registerTool_invalid tool this e :
  validateTool tool = Err e → registerTool tool this = (Err e, this).
Proof. intros H. unfold registerTool. by rewrite H. Qed.

Lemma registerTool_duplicate tool this validatedTool :
  validateTool tool = Ok validatedTool →
  hasTool (name validatedTool) this = true →
  registerTool tool this = (Err (DuplicateNameError (name validatedTool)), this).
Proof. intros H Hhas. unfold registerTool, hasTool in *. by rewrite H, Hhas. Qed.

Lemma registerTool_fresh tool this validatedTool :
  validateTool tool = Ok validatedTool →
  hasTool (name validatedTool) this = false →
  registerTool tool this =
  (Ok validatedTool,
   {| tools := JsMap.set (name validatedTool) validatedTool (tools this);
      toolRegistry.tags :=
        foldl (indexTag (name validatedTool)) (toolRegistry.tags this)
          (default [] (toolSchema.tags validatedTool)) |}).
Proof.
  intros H Hhas. unfold registerTool, hasTool in *. rewrite H, Hhas.
  do 2 f_equal. destruct (toolSchema.tags validatedTool) as [[|tag ts]|]; simpl; [done| |done].
  destruct (decide (0 < S (length ts))%nat); [done|lia].
Qed.

(** The three outcomes of [registerTool]. *)
Lemma registerTool_cases tool this :
  (∃ e, validateTool tool = Err e ∧ registerTool tool this = (Err e, this)) ∨
  (∃ t, validateTool tool = Ok t ∧ hasTool (name t) this = true ∧
        registerTool tool this = (Err (DuplicateNameError (name t)), this)) ∨
  (∃ t, validateTool tool = Ok t ∧ hasTool (name t) this = false ∧
        registerTool tool this =
        (Ok t, {| tools := JsMap.set (name t) t (tools this);
                  toolRegistry.tags :=
                    foldl (indexTag (name t)) (toolRegistry.tags this)
                      (default [] (toolSchema.tags t)) |})).
Proof.
  destruct (validateTool tool) as [t|e] eqn:Hv.
  - destruct (hasTool (name t) this) eqn:Hhas.
    + right; left. eauto using registerTool_duplicate.
    + right; right. eauto using registerTool_fresh.
  - left. eauto using registerTool_invalid.
Qed.

(** A call of [registerTool] that throws leaves the registry as it was. *)
Lemma registerTool_Err_state tool this e this' :
  registerTool tool this = (Err e, this') → this' = this.
Proof.
  destruct (registerTool_cases tool this)
    as [(? & _ & ->)|[(? & _ & _ & ->)|(? & _ & _ & ->)]]; congruence.
Qed.

Lemma unregisterTool_absent name this :
  getTool name this = None → unregisterTool name this = (false, this).
Proof. unfold getTool, unregisterTool. by intros ->. Qed.

Lemma unregisterTool_present name this tool :
  getTool name this = Some tool →
  unregisterTool name this =
  (true,
   {| tools := JsMap.delete name (tools this);
      toolRegistry.tags :=
        foldl (scrubTag name) (toolRegistry.tags this)
          (default [] (toolSchema.tags tool)) |}).
Proof.
  unfold getTool, unregisterTool. intros ->.
  by destruct (toolSchema.tags tool).
Qed.

(** ** Preservation of consistency *)

Lemma consistent_empty : consistent empty.
Proof.
  split; simpl.
  - intros tag n. split; intros (? & [=] & _).
  - intros ?? [=].
  - intros ?? [=].
Qed.

Lemma consistent_registerTool tool this :
  consistent this → consistent (registerTool tool this).2.
Proof.
  intros [Hidx Hne Hkey].
  destruct (registerTool_cases tool this)
    as [(? & _ & ->)|[(? & _ & _ & ->)|(t & _ & Hhas & ->)]]; [done..|].
  apply JsMap_has_false in Hhas. split; simpl.
  - intros tag n. rewrite foldl_indexTag_inBucket, Hidx. unfold tagged.
    setoid_rewrite JsMap_get_set. split.
    + intros [(tool' & Hget & Hin)|[Hin ->]].
      * exists tool'. split; [|done].
        rewrite decide_False; [done|]. intros <-. congruence.
      * exists t. by rewrite decide_True.
    + intros (tool' & Hget & Hin).
      destruct (decide (name t = n)) as [<-|]; [|by eauto].
      injection Hget as <-. by right.
  - by apply foldl_indexTag_nonempty.
  - intros key tool'. rewrite JsMap_get_set.
    destruct (decide (name t = key)); [by intros [= <-]|by apply Hkey].
Qed.

Lemma consistent_registerTools tools this :
  consistent this → consistent (registerTools tools this).2.
Proof.
  revert this. induction tools as [|tool rest IH]; intros this Hc; simpl; [done|].
  pose proof (consistent_registerTool tool this Hc) as Hc1.
  destruct (registerTool tool this) as [[registered|e] this1]; simpl in *; [|done].
  specialize (IH this1 Hc1).
  by destruct (registerTools rest this1) as [[others|e] this2].
Qed.

Lemma consistent_unregisterTool name this :
  consistent this → consistent (unregisterTool name this).2.
Proof.
  intros [Hidx Hne Hkey].
  destruct (getTool name this) as [tool|] eqn:Hget.
  2: { by rewrite unregisterTool_absent. }
  rewrite (unregisterTool_present _ _ _ Hget). unfold getTool in Hget.
  split; simpl.
  - intros tag n. rewrite foldl_scrubTag_inBucket, Hidx. unfold tagged.
    setoid_rewrite JsMap_get_delete. split.
    + intros [(tool' & Hget' & Hin) Hnot]. exists tool'. split; [|done].
      rewrite decide_False; [done|]. intros <-.
      apply Hnot. split; [|done]. congruence.
    + intros (tool' & Hget' & Hin).
      destruct (decide (name = n)) as [|Hneq]; [done|].
      split; [by eauto|]. intros [_ ->]. done.
  - by apply foldl_scrubTag_nonempty.
  - intros key tool'. rewrite JsMap_get_delete.
    destruct (decide (name = key)); [done|by apply Hkey].
Qed.

Lemma reachable_consistent this : reachable this → consistent this.
Proof.
  induction 1;
    auto using consistent_empty, consistent_registerTool,
      consistent_registerTools, consistent_unregisterTool.
Qed.

(** ** The registry *)

Lemma validateTool_name tool validatedTool :
  validateTool tool = Ok validatedTool →
  name_of tool = VStr (name validatedTool).
Proof.
  unfold validateTool, toolSchema, z_object. destruct tool as [| | | | |?|data]; try done.
  intros (n & Hn & Hrest)%bind_Ok. apply z_string_min_Ok in Hn.
  repeat (apply bind_Ok in Hrest as (? & _ & Hrest)).
  injection Hrest as <-. done.
Qed.

(** C2: in every registry reached from a new one by [registerTool],
    [registerTools], [unregisterTool] and [clear], a name is in the bucket of
    a tag exactly when it is a key of [tools] whose tool carries that tag;
    and no bucket is empty. *)
Theorem tag_index_invariant this :
  reachable this →
  (∀ tag name,
     inBucket (toolRegistry.tags this) tag name ↔ tagged (tools this) tag name) ∧
  (∀ tag bucket,
     JsMap.get tag (toolRegistry.tags this) = Some bucket → bucket ≠ []).
Proof.
  intros [Hidx Hne _]%reachable_consistent. split; [exact Hidx|exact Hne].
Qed.

Lemma tag_index_invariant_witness :
  let this := (unregisterTool "other"
                 (registerTool samples.httpRequest_value empty).2).2 in
  reachable this ∧
  (∀ tag name,
     inBucket (toolRegistry.tags this) tag name ↔ tagged (tools this) tag name) ∧
  (∀ tag bucket,
     JsMap.get tag (toolRegistry.tags this) = Some bucket → bucket ≠ []).
Proof.
  intros this.
  assert (reachable this) as Hreach.
  { apply reachable_unregisterTool, reachable_registerTool, reachable_new. }
  split; [exact Hreach|]. exact (tag_index_invariant this Hreach).
Defined.

(** C3: registering a valid tool whose name is free returns its validated
    form, and [getTool] on the tool's name then returns that same value. *)
Theorem register_then_get tool validatedTool this :
  validateTool tool = Ok validatedTool →
  hasTool (name validatedTool) this = false →
  ∃ this',
    registerTool tool this = (Ok validatedTool, this') ∧
    name_of tool = VStr (name validatedTool) ∧
    getTool (name validatedTool) this' = Some validatedTool.
Proof.
  intros Hv Hfree. eexists. split; [by apply registerTool_fresh|].
  split; [by apply validateTool_name|].
  unfold getTool. simpl. apply JsMap_get_set_eq.
Qed.

Lemma register_then_get_witness :
  ∃ this',
    registerTool samples.httpRequest_value empty = (Ok samples.httpRequest, this') ∧
    name_of samples.httpRequest_value = VStr "httpRequest" ∧
    getTool "httpRequest" this' = Some samples.httpRequest.
Proof.
  apply (register_then_get samples.httpRequest_value samples.httpRequest empty).
  - vm_compute. reflexivity.
  - vm_compute. reflexivity.
Defined.

(** C4: registering a tool whose name is already a key of [tools] throws the
    duplicate-name error and leaves the registry as it was: same [tools],
    same tag index, hence the same [getAllTools], [size] and [tagCount]. *)
Theorem register_duplicate_unchanged tool validatedTool this :
  validateTool tool = Ok validatedTool →
  hasTool (name validatedTool) this = true →
  let after := (registerTool tool this).2 in
  (registerTool tool this).1 = Err (DuplicateNameError (name validatedTool)) ∧
  after = this ∧
  getAllTools after = getAllTools this ∧
  size after = size this ∧
  tagCount after = tagCount this.
Proof.
  intros Hv Hhas. simpl.
  by rewrite (registerTool_duplicate _ _ _ Hv Hhas).
Qed.

Lemma register_duplicate_unchanged_witness :
  let this := (registerTool samples.httpRequest_value empty).2 in
  let after := (registerTool samples.httpRequest_value this).2 in
  (registerTool samples.httpRequest_value this).1
    = Err (DuplicateNameError "httpRequest") ∧
  after = this ∧
  getAllTools after = getAllTools this ∧
  size after = size this ∧
  tagCount after = tagCount this.
Proof.
  apply (register_duplicate_unchanged samples.httpRequest_value samples.httpRequest).
  - vm_compute. reflexivity.
  - vm_compute. reflexivity.
Defined.

(** Registration keeps what was registered before. *)
Lemma registerTool_keeps tool this registered this' key stored :
  registerTool tool this = (Ok registered, this') →
  getTool key this = Some stored →
  getTool key this' = Some stored.
Proof.
  intros Hreg Hget.
  destruct (registerTool_cases tool this)
    as [(? & _ & Heq)|[(? & _ & _ & Heq)|(t & _ & Hhas & Heq)]];
    rewrite Heq in Hreg; try done.
  injection Hreg as <- <-. unfold getTool in *. simpl.
  rewrite JsMap_get_set_ne; [done|]. intros <-.
  apply JsMap_has_false in Hhas. unfold hasTool in *. congruence.
Qed.

Lemma registerTool_stores tool this registered this' :
  registerTool tool this = (Ok registered, this') →
  getTool (name registered) this' = Some registered.
Proof.
  intros Hreg.
  destruct (registerTool_cases tool this)
    as [(? & _ & Heq)|[(? & _ & _ & Heq)|(t & _ & Hhas & Heq)]];
    rewrite Heq in Hreg; try done.
  injection Hreg as <- <-. unfold getTool. simpl. apply JsMap_get_set_eq.
Qed.

Lemma registerTools_stores tools this registered this' :
  registerTools tools this = (Ok registered, this') →
  ∀ t, t ∈ registered → getTool (name t) this' = Some t.
Proof.
  revert this registered this'.
  induction tools as [|tool rest IH]; intros this registered this'; simpl.
  - intros [= <- <-] t Hin. by apply elem_of_nil in Hin.
  - destruct (registerTool tool this) as [[first|e] this1] eqn:Hfirst; [|done].
    destruct (registerTools rest this1) as [[others|e] this2] eqn:Hrest; [|done].
    intros [= <- <-] t [->|Hin]%elem_of_cons.
    + assert (∀ ts r rs r', registerTools ts r = (Ok rs, r') →
                getTool (name first) r = Some first →
                getTool (name first) r' = Some first) as Hkeep.
      { clear. induction ts as [|x ts IHts]; intros r rs r'; simpl.
        - by intros [= <- <-].
        - destruct (registerTool x r) as [[y|e] r1] eqn:Hx; [|done].
          destruct (registerTools ts r1) as [[ys|e] r2] eqn:Hts; [|done].
          intros [= <- <-] Hget. eapply IHts; [done|].
          by eapply registerTool_keeps. }
      eapply Hkeep; [done|]. by eapply registerTool_stores.
    + by eapply IH.
Qed.

Lemma registerTools_app pre post this registered this1 :
  registerTools pre this = (Ok registered, this1) →
  registerTools (pre ++ post) this =
  match registerTools post this1 with
  | (Ok others, this2) => (Ok (registered ++ others)%list, this2)
  | (Err e, this2) => (Err e, this2)
  end.
Proof.
  revert this registered. induction pre as [|tool pre IH]; intros this registered; simpl.
  - intros [= <- <-]. by destruct (registerTools post this) as [[?|?] ?].
  - destruct (registerTool tool this) as [[first|e] this0]; [|done].
    destruct (registerTools pre this0) as [[others|e] this2] eqn:Hpre; [|done].
    intros [= <- <-]. rewrite (IH _ _ Hpre).
    by destruct (registerTools post this2) as [[?|?] ?].
Qed.

(** [registerTools] goes through the sequence in order: the registry it
    leaves is the one the successive calls of [registerTool] produce, and the
    tools it returns are the validated forms, in the order of the sequence. *)
Lemma registerTools_in_order tools this registered this' :
  registerTools tools this = (Ok registered, this') →
  this' = foldl (λ reg tool, (registerTool tool reg).2) this tools ∧
  Forall2 (λ tool validated, validateTool tool = Ok validated) tools registered.
Proof.
  revert this registered.
  induction tools as [|tool rest IH]; intros this registered; simpl.
  - intros [= <- <-]. split; [done|constructor].
  - destruct (registerTool tool this) as [[first|e] this1] eqn:Hfirst; [|done].
    destruct (registerTools rest this1) as [[others|e] this2] eqn:Hrest; [|done].
    intros [= <- <-]. destruct (IH _ _ Hrest) as [-> Hall]. split; [done|].
    constructor; [|done].
    destruct (registerTool_cases tool this)
      as [(? & _ & Heq)|[(? & _ & _ & Heq)|(t & Hv & _ & Heq)]];
      rewrite Heq in Hfirst; congruence.
Qed.

(** C5: [registerTools] goes through the sequence in order.  When the tools
    of a prefix register and the next one throws, the call throws that error
    at once; the registry is the one the prefix produced, call after call,
    in which every tool of the prefix is stored, and neither the failing tool
    nor the ones after it changed it. *)
Theorem registerTools_no_rollback pre tool post this registered this1 e :
  registerTools pre this = (Ok registered, this1) →
  (registerTool tool this1).1 = Err e →
  registerTools (pre ++ tool :: post) this = (Err e, this1) ∧
  this1 = foldl (λ reg tool, (registerTool tool reg).2) this pre ∧
  Forall2 (λ tool validated, validateTool tool = Ok validated) pre registered ∧
  (∀ t, t ∈ registered → getTool (name t) this1 = Some t).
Proof.
  intros Hpre Hfail.
  destruct (registerTools_in_order _ _ _ _ Hpre) as [Hstate Hall].
  split_and!; [|done|done|by eapply registerTools_stores].
  rewrite (registerTools_app _ _ _ _ _ Hpre). simpl.
  destruct (registerTool tool this1) as [[?|e'] this'] eqn:Hreg; simpl in *; [done|].
  injection Hfail as ->. by rewrite (registerTool_Err_state _ _ _ _ Hreg).
Qed.

Lemma registerTools_no_rollback_witness :
  let this1 := (registerTool samples.httpRequest_value empty).2 in
  registerTools
    ([samples.httpRequest_value] ++ samples.httpRequest_value :: [samples.ping_value])
    empty
  = (Err (DuplicateNameError "httpRequest"), this1) ∧
  this1 = foldl (λ reg tool, (registerTool tool reg).2) empty
            [samples.httpRequest_value] ∧
  Forall2 (λ tool validated, validateTool tool = Ok validated)
    [samples.httpRequest_value] [samples.httpRequest] ∧
  (∀ t, t ∈ [samples.httpRequest] → getTool (name t) this1 = Some t).
Proof.
  apply (registerTools_no_rollback
           [samples.httpRequest_value] samples.httpRequest_value
           [samples.ping_value] empty [samples.httpRequest]).
  - vm_compute. reflexivity.
  - vm_compute. reflexivity.
Defined.

Lemma mapR_Err {A B} (f : A → result B) xs x :
  x ∈ xs → is_ok (f x) = false →
  ∃ y e, y ∈ xs ∧ f y = Err e ∧ mapR f xs = Err e.
Proof.
  induction xs as [|z xs IH]; intros Hin Hx; [by apply elem_of_nil in Hin|].
  simpl. destruct (f z) as [b|e] eqn:Hz.
  - apply elem_of_cons in Hin as [->|Hin]; [by rewrite Hz in Hx|].
    destruct (IH Hin Hx) as (y & e & Hy & Hfy & Hmap).
    exists y, e. split; [by apply list_elem_of_further|].
    split; [done|]. simpl. by rewrite Hmap.
  - exists z, e. split; [apply list_elem_of_here|]. done.
Qed.

(** C7: [getToolsByTag] returns the empty array for a tag the index does not
    have; and when the bucket of the tag holds a name that [tools] does not
    resolve, it throws the inconsistency error for such a name. *)
Theorem getToolsByTag_unknown_or_corrupt tag this :
  (JsMap.get tag (toolRegistry.tags this) = None →
   getToolsByTag tag this = Ok []) ∧
  (∀ bucket name,
     JsMap.get tag (toolRegistry.tags this) = Some bucket →
     name ∈ bucket →
     getTool name this = None →
     ∃ missing,
       missing ∈ bucket ∧ getTool missing this = None ∧
       getToolsByTag tag this = Err (RegistryCorruptionError missing)).
Proof.
  unfold getToolsByTag, getTool. split; [by intros ->|].
  intros bucket n -> Hin Hnone.
  edestruct (mapR_Err
    (λ name, match JsMap.get name (tools this) with
             | Some tool => Ok tool
             | None => Err (RegistryCorruptionError name)
             end) bucket n) as (missing & e & Hm & Hf & Hmap); [done|by rewrite Hnone|].
  exists missing. split; [done|].
  destruct (JsMap.get missing (tools this)); [done|].
  injection Hf as <-. done.
Qed.

Lemma getToolsByTag_unknown_or_corrupt_witness :
  getToolsByTag "nonexistent-tag" empty = Ok [] ∧
  ∃ missing,
    missing ∈ ["ghost"] ∧
    getTool missing {| tools := []; toolRegistry.tags := [("http", ["ghost"])] |} = None ∧
    getToolsByTag "http" {| tools := []; toolRegistry.tags := [("http", ["ghost"])] |}
    = Err (RegistryCorruptionError missing).
Proof.
  split.
  - apply (getToolsByTag_unknown_or_corrupt "nonexistent-tag" empty).
    reflexivity.
  - apply (getToolsByTag_unknown_or_corrupt "http"
             {| tools := []; toolRegistry.tags := [("http", ["ghost"])] |})
      with (name := "ghost").
    + reflexivity.
    + apply list_elem_of_here.
    + reflexivity.
Defined.

(** C8: [unregisterTool] on a name that is not registered returns [false] and
    returns the registry as it was.  On a registered name it returns [true];
    the name is no longer a key of [tools] and the other keys are untouched;
    each bucket of a tag of the tool loses the name and is deleted when
    nothing is left in it, the other buckets being untouched; and in a
    reachable registry the name is then in no bucket at all. *)
Theorem unregisterTool_spec name this :
  (getTool name this = None → unregisterTool name this = (false, this)) ∧
  (∀ tool,
     getTool name this = Some tool →
     ∃ this',
       unregisterTool name this = (true, this') ∧
       getTool name this' = None ∧
       (∀ other, other ≠ name → getTool other this' = getTool other this) ∧
       (∀ tag,
          JsMap.get tag (toolRegistry.tags this') =
          if decide (tag ∈ default [] (toolSchema.tags tool))
          then scrubbed name (JsMap.get tag (toolRegistry.tags this))
          else JsMap.get tag (toolRegistry.tags this)) ∧
       (reachable this →
        ∀ tag, ¬ inBucket (toolRegistry.tags this') tag name)).
Proof.
  split; [apply unregisterTool_absent|].
  intros tool Hget. eexists. split; [by apply unregisterTool_present|].
  unfold getTool in *. simpl. split_and!.
  - rewrite JsMap_get_delete. by rewrite decide_True.
  - intros other Hne. rewrite JsMap_get_delete. by rewrite decide_False.
  - intros tag. apply foldl_scrubTag_get.
  - intros [Hidx _ _]%reachable_consistent tag.
    rewrite foldl_scrubTag_inBucket, Hidx. intros [(tool' & Hget' & Hin) Hnot].
    apply Hnot. split; [|done]. congruence.
Qed.

Lemma unregisterTool_spec_witness :
  let this := (registerTool samples.httpRequest_value empty).2 in
  unregisterTool "ping" this = (false, this) ∧
  ∃ this',
    unregisterTool "httpRequest" this = (true, this') ∧
    getTool "httpRequest" this' = None ∧
    (∀ other, other ≠ "httpRequest" → getTool other this' = getTool other this) ∧
    (∀ tag,
       JsMap.get tag (toolRegistry.tags this') =
       if decide (tag ∈ default [] (toolSchema.tags samples.httpRequest))
       then scrubbed "httpRequest" (JsMap.get tag (toolRegistry.tags this))
       else JsMap.get tag (toolRegistry.tags this)) ∧
    (reachable this →
     ∀ tag, ¬ inBucket (toolRegistry.tags this') tag "httpRequest").
Proof.
  intros this. split.
  - apply (unregisterTool_spec "ping" this). vm_compute. reflexivity.
  - apply (unregisterTool_spec "httpRequest" this). vm_compute. reflexivity.
Defined.

(** After the only tool is unregistered both indices are empty again. *)
Example unregister_last_tool :
  unregisterTool "httpRequest" (registerTool samples.httpRequest_value empty).2
  = (true, empty).
Proof. vm_compute. reflexivity. Qed.

(** Names are compared exactly: a name that differs in case is another name. *)
Example register_case_sensitive :
  let upper := VObj {[ "name" := VStr "HttpRequest"; "description" := VStr "x" ]} in
  is_ok (registerTool upper (registerTool samples.httpRequest_value empty).2).1 = true.
Proof. vm_compute. reflexivity. Qed.

(** The scenarios of the specification. *)
Example getToolsByTag_empty_registry :
  getToolsByTag "nonexistent-tag" empty = Ok [].
Proof. reflexivity. Qed.

Example clear_resets this : size (clear this) = 0%nat ∧ tagCount (clear this) = 0%nat.
Proof. done. Qed.

(** ** Validation *)

Lemma lazySchema_unfold data :
  lazySchema (VObj data) =
  lazyUnion (lazySchema (get "items" data))
    (z_optional (z_record lazySchema) (get "properties" data)) data.
Proof.
  simpl. rewrite !lookup_fmap. unfold get.
  by destruct (data !! "items"), (data !! "properties").
Qed.

(** Whatever the variant schemas would keep, a nested parameter that the
    bare base schema accepts comes back with the four common keys only. *)
Lemma lazySchema_base_first data base :
  toolParameterSchema data = Ok base → lazySchema (VObj data) = Ok base.
Proof. intros H. rewrite lazySchema_unfold. unfold lazyUnion. by rewrite H. Qed.

Lemma mapR_z_string xs : mapR z_string (VStr <$> xs) = Ok xs.
Proof. induction xs as [|x xs IH]; csimpl; [done|]. by rewrite IH. Qed.

Lemma z_strings xs : z_optional (z_array z_string) (strings xs) = Ok (Some xs).
Proof. unfold z_optional, z_array, strings. by rewrite mapR_z_string. Qed.

Lemma get_insert_eq key v data : get key (<[key := v]> data) = v.
Proof. unfold get. by rewrite lookup_insert_eq. Qed.

Lemma get_insert_ne key key' v data :
  key ≠ key' → get key' (<[key := v]> data) = get key' data.
Proof. intros. unfold get. by rewrite lookup_insert_ne. Qed.

(** X14: [validateTool] does not look at which names [requiredParameters] lists:
    replacing the list of a valid tool by any list of names gives a valid
    tool, with that list. *)
Lemma validateTool_requiredParameters_unchecked data tool names :
  validateTool (VObj data) = Ok tool →
  validateTool (VObj (<["requiredParameters" := strings names]> data)) =
  Ok {| name := name tool; description := description tool;
        parameters := parameters tool; requiredParameters := Some names;
        returns := returns tool; toolSchema.tags := toolSchema.tags tool;
        examples := examples tool; metadata := metadata tool |}.
Proof.
  unfold validateTool, toolSchema, z_object.
  rewrite get_insert_eq, !get_insert_ne by done.
  intros (n & Hn & H)%bind_Ok. apply bind_Ok in H as (d & Hd & H).
  apply bind_Ok in H as (ps & Hps & H). apply bind_Ok in H as (rp & _ & H).
  apply bind_Ok in H as (r & Hr & H). apply bind_Ok in H as (ts & Hts & H).
  apply bind_Ok in H as (es & Hes & H). apply bind_Ok in H as (md & Hmd & H).
  injection H as <-.
  rewrite Hn; cbn [mbind result_bind]. rewrite Hd; cbn [mbind result_bind].
  rewrite Hps; cbn [mbind result_bind].
  rewrite z_strings; cbn [mbind result_bind].
  rewrite Hr; cbn [mbind result_bind]. rewrite Hts; cbn [mbind result_bind].
  rewrite Hes; cbn [mbind result_bind]. rewrite Hmd; cbn [mbind result_bind].
  done.
Qed.

(** C9: validation is structural.  Here is a value that is a well-formed
    tool, whose [requiredParameters] names a parameter that [parameters] does
    not have and whose example feeds a parameter that does not exist either;
    [validateTool] accepts it and returns it as it is. *)
Theorem validateTool_no_cross_check :
  ∃ validatedTool declared,
    validateTool samples.dangling_value = Ok validatedTool ∧
    Tool_to_value validatedTool = samples.dangling_value ∧
    parameters validatedTool = Some declared ∧
    requiredParameters validatedTool = Some ["url"; "ghost"] ∧
    declared !! "ghost" = None ∧
    (∃ example,
       examples validatedTool = Some [example] ∧
       is_Some (input example !! "nonexistent") ∧
       declared !! "nonexistent" = None).
Proof.
  exists samples.dangling. eexists. split_and!.
  - vm_compute. reflexivity.
  - vm_compute. reflexivity.
  - reflexivity.
  - reflexivity.
  - vm_compute. reflexivity.
  - eexists. split_and!; [reflexivity| |vm_compute; reflexivity].
    eexists. vm_compute. reflexivity.
Qed.

(** C10: the schema of a nested parameter tries the bare base schema first and
    objects are parsed in strip mode.  Here is a well-formed tool with an
    array parameter whose [items] is a string parameter with [minLength] and
    [enum], and an object parameter whose property is a number parameter with
    [minimum]: [validateTool] accepts it, and in the tool it returns the
    nested parameters have the four common keys only.  Validation is not the
    identity on it. *)
Theorem validateTool_strips_nested_constraints :
  ∃ validatedTool,
    validateTool (Tool_to_value samples.nested) = Ok validatedTool ∧
    at_path ["parameters"; "labels"; "items"; "minLength"]
      (Tool_to_value samples.nested) = VNum 3 ∧
    at_path ["parameters"; "labels"; "items"; "enum"]
      (Tool_to_value samples.nested) = strings ["bug"; "feature"] ∧
    at_path ["parameters"; "owner"; "properties"; "age"; "minimum"]
      (Tool_to_value samples.nested) = VNum 0 ∧
    parameters validatedTool = Some {[
      "labels" := PArray "labels" "Labels to attach" false
                    (PBase "label" "One label" TString false)
                    None None (Some true) None;
      "owner" := PObject "owner" "Who owns it"
                   (Some {[ "age" := PBase "age" "Age in years" TNumber false ]})
                   None None None ]} ∧
    at_path ["parameters"; "labels"; "items"; "minLength"]
      (Tool_to_value validatedTool) = VUndefined ∧
    at_path ["parameters"; "labels"; "items"; "enum"]
      (Tool_to_value validatedTool) = VUndefined ∧
    at_path ["parameters"; "owner"; "properties"; "age"; "minimum"]
      (Tool_to_value validatedTool) = VUndefined ∧
    validatedTool ≠ samples.nested ∧
    Tool_to_value validatedTool ≠ Tool_to_value samples.nested.
Proof.
  exists samples.nested_validated.
  assert (Tool_to_value samples.nested_validated ≠ Tool_to_value samples.nested) as Hne.
  { intros Heq.
    apply (f_equal (at_path ["parameters"; "labels"; "items"; "minLength"])) in Heq.
    vm_compute in Heq. discriminate. }
  split_and!; try (vm_compute; reflexivity); [|done].
  intros Heq. apply Hne. by rewrite Heq.
Qed.

(** ** Object literals and dictionaries *)

Lemma literal_lookup entries base key :
  literal base entries !! key =
  match entry_for key entries with
  | Some v => Some v
  | None => base !! key
  end.
Proof.
  revert base. induction entries as [|[k field] rest IH]; intros base; [done|].
  unfold literal in *. cbn [foldl entry_for fst snd]. rewrite IH.
  destruct (entry_for key rest); [done|].
  destruct (decide (k = key)) as [->|Hne].
  - destruct field; [apply lookup_insert_eq|done].
  - destruct field; [by apply lookup_insert_ne|done].
Qed.


Lemma entry_for_None key entries :
  key ∉ entries.*1 → entry_for key entries = None.
Proof.
  induction entries as [|[k field] rest IH]; [done|].
  rewrite fmap_cons, not_elem_of_cons. simpl. intros [Hne Hrest].
  rewrite IH by done. by rewrite decide_False.
Qed.

Lemma sequence_map_lookup {A} e (m : gmap string (result A)) m' key :
  sequence_map e m = Ok m' → m !! key = Ok <$> m' !! key.
Proof.
  unfold sequence_map. destruct (decide _) as [Hall|]; [|done].
  intros [= <-]. rewrite lookup_omap.
  destruct (m !! key) as [r|] eqn:Hr; [|done]. simpl.
  specialize (Hall _ _ Hr). by destruct r.
Qed.

Lemma sequence_map_total {A} e (m : gmap string (result A)) :
  (∀ key r, m !! key = Some r → is_ok r = true) →
  ∃ m', sequence_map e m = Ok m'.
Proof.
  intros Hall. unfold sequence_map. rewrite decide_True by done. eauto.
Qed.

Lemma map_fold_sum_lookup (m : gmap string nat) key n :
  m !! key = Some n →
  (n ≤ map_fold (λ _ x acc, x + acc) 0 m)%nat.
Proof.
  intros Hkey. rewrite (map_fold_delete_L _ _ key n m); [lia| |done].
  intros. lia.
Qed.

Lemma Param_size_property n d props required additionalProperties default key prop :
  props !! key = Some prop →
  (Param_size prop <
   Param_size (PObject n d (Some props) required additionalProperties default))%nat.
Proof.
  intros Hkey. cbn [Param_size]. apply Nat.lt_succ_r.
  apply (map_fold_sum_lookup _ key). by rewrite lookup_fmap, Hkey.
Qed.

(** * More on the registry *)

(** ** Keys of a [Map] *)

Lemma JsMap_elem_of_keys {V} key (m : list (string * V)) :
  key ∈ JsMap.keys m ↔ is_Some (JsMap.get key m).
Proof.
  unfold JsMap.keys. induction m as [|[k x] m IH]; simpl.
  - rewrite elem_of_nil. split; [done|]. by intros [? ?].
  - rewrite elem_of_cons, IH. destruct (decide (k = key)) as [->|Hne].
    + split; [by eauto|]. by left.
    + split; [|by right]. intros [->|?]; done.
Qed.

Lemma JsMap_set_absent {V} key (v : V) m :
  JsMap.get key m = None → JsMap.set key v m = (m ++ [(key, v)])%list.
Proof.
  induction m as [|[k x] m IH]; simpl; [done|].
  destruct (decide (k = key)); [done|]. intros H. by rewrite IH.
Qed.

Lemma JsMap_set_present {V} key (v : V) m :
  is_Some (JsMap.get key m) → JsMap.keys (JsMap.set key v m) = JsMap.keys m.
Proof.
  unfold JsMap.keys. induction m as [|[k x] m IH]; csimpl; [by intros [? ?]|].
  destruct (decide (k = key)); [done|]. intros H. csimpl. by rewrite IH.
Qed.

Lemma JsMap_set_same {V} key (v : V) m :
  JsMap.get key m = Some v → JsMap.set key v m = m.
Proof.
  induction m as [|[k x] m IH]; simpl; [done|].
  destruct (decide (k = key)) as [->|]; [by intros [= ->]|].
  intros H. by rewrite IH.
Qed.

Lemma JsMap_set_set {V} key (v v' : V) m :
  JsMap.set key v (JsMap.set key v' m) = JsMap.set key v m.
Proof.
  induction m as [|[k x] m IH]; simpl.
  - by rewrite decide_True.
  - destruct (decide (k = key)) as [->|Hne]; simpl.
    + by rewrite decide_True.
    + rewrite decide_False by done. by rewrite IH.
Qed.

Lemma JsMap_delete_set {V} key (v : V) m :
  JsMap.delete key (JsMap.set key v m) = JsMap.delete key m.
Proof.
  induction m as [|[k x] m IH]; simpl.
  - by rewrite decide_True.
  - destruct (decide (k = key)) as [->|Hne]; simpl.
    + by rewrite decide_True.
    + rewrite decide_False by done. by rewrite IH.
Qed.

Lemma JsMap_set_delete_comm {V} key key' (v : V) m :
  key ≠ key' →
  JsMap.set key v (JsMap.delete key' m) = JsMap.delete key' (JsMap.set key v m).
Proof.
  intros Hne. induction m as [|[k x] m IH]; simpl.
  - by rewrite decide_False.
  - destruct (decide (k = key')) as [->|Hk'].
    + rewrite decide_False by done. simpl. by rewrite decide_True.
    + simpl. destruct (decide (k = key)) as [->|Hk]; simpl.
      * by rewrite decide_False.
      * rewrite decide_False by done. by rewrite IH.
Qed.

Lemma JsMap_set_set_comm {V} key key' (v v' : V) m :
  key ≠ key' → is_Some (JsMap.get key' m) →
  JsMap.set key v (JsMap.set key' v' m) = JsMap.set key' v' (JsMap.set key v m).
Proof.
  intros Hne. induction m as [|[k x] m IH]; simpl; [by intros [? ?]|].
  destruct (decide (k = key')) as [->|Hk'].
  - intros _. simpl. rewrite !decide_False by done. simpl. by rewrite decide_True.
  - intros Hsome. destruct (decide (k = key)) as [->|Hk]; simpl.
    + rewrite decide_True by done. by rewrite decide_False.
    + rewrite !decide_False by done. by rewrite IH.
Qed.

Lemma JsMap_keys_delete {V} key key' (m : list (string * V)) :
  key' ∈ JsMap.keys (JsMap.delete key m) ↔ key' ≠ key ∧ key' ∈ JsMap.keys m.
Proof.
  rewrite !JsMap_elem_of_keys, JsMap_get_delete.
  destruct (decide (key = key')) as [->|].
  - split; [by intros [? ?]|]. by intros [? _].
  - split; [done|]. by intros [_ ?].
Qed.

Lemma JsMap_delete_NoDup {V} key (m : list (string * V)) :
  NoDup (JsMap.keys m) → NoDup (JsMap.keys (JsMap.delete key m)).
Proof.
  induction m as [|[k x] m IH]; simpl; [done|].
  intros [Hk Hm]%NoDup_cons. destruct (decide (k = key)); [by apply IH|].
  simpl. apply NoDup_cons. split; [|by apply IH].
  intros Hin. apply JsMap_keys_delete in Hin as [_ Hin]. done.
Qed.

Lemma JsMap_set_NoDup {V} key (v : V) (m : list (string * V)) :
  NoDup (JsMap.keys m) → NoDup (JsMap.keys (JsMap.set key v m)).
Proof.
  intros Hm. destruct (JsMap.get key m) as [x|] eqn:Hget.
  - by rewrite JsMap_set_present.
  - rewrite JsMap_set_absent by done. unfold JsMap.keys. rewrite fmap_app. simpl.
    apply NoDup_app. split_and!; [done| |apply NoDup_singleton].
    intros k Hk ->%list_elem_of_singleton.
    apply JsMap_elem_of_keys in Hk as [? ?]. congruence.
Qed.

Lemma JsMap_delete_length {V} key (x : V) (m : list (string * V)) :
  NoDup (JsMap.keys m) → JsMap.get key m = Some x →
  S (length (JsMap.delete key m)) = length m.
Proof.
  induction m as [|[k y] m IH]; simpl; [done|].
  intros [Hk Hm]%NoDup_cons. destruct (decide (k = key)) as [->|Hne].
  - intros _. rewrite JsMap_delete_absent; [done|].
    apply eq_None_not_Some. by rewrite <-JsMap_elem_of_keys.
  - intros Hget. simpl. by rewrite IH.
Qed.

Lemma JsSet_add_NoDup x s : NoDup s → NoDup (JsSet.add x s).
Proof.
  intros Hs. unfold JsSet.add. destruct (decide (x ∈ s)); [done|].
  apply NoDup_app. split_and!; [done| |apply NoDup_singleton].
  by intros y Hy ->%list_elem_of_singleton.
Qed.

Lemma JsSet_delete_NoDup x s : NoDup s → NoDup (JsSet.delete x s).
Proof.
  induction s as [|y s IH]; simpl; [done|].
  intros [Hy Hs]%NoDup_cons. destruct (decide (y = x)); [by apply IH|].
  apply NoDup_cons. split; [|by apply IH].
  intros Hin. apply JsSet_elem_of_delete in Hin as [_ Hin]. done.
Qed.

Lemma JsSet_delete_snoc x s : x ∉ s → JsSet.delete x (s ++ [x])%list = s.
Proof.
  induction s as [|y s IH]; simpl.
  - by rewrite decide_True.
  - intros [? ?]%not_elem_of_cons. rewrite decide_False by done. by rewrite IH.
Qed.

(** ** The two loops over tags, in closed form *)

Lemma indexTag_eq name index tag :
  indexTag name index tag =
  JsMap.set tag (JsSet.add name (default [] (JsMap.get tag index))) index.
Proof.
  unfold indexTag. destruct (JsMap.has tag index) eqn:Hhas.
  - apply JsMap_has_true in Hhas as [b Hb]. by rewrite Hb.
  - apply JsMap_has_false in Hhas. rewrite JsMap_get_set_eq, Hhas.
    apply JsMap_set_set.
Qed.

Lemma scrubTag_eq name index tag :
  scrubTag name index tag =
  match JsMap.get tag index with
  | Some bucket =>
      if decide (JsSet.delete name bucket = [])
      then JsMap.delete tag index
      else JsMap.set tag (JsSet.delete name bucket) index
  | None => index
  end.
Proof.
  unfold scrubTag, JsSet.size. destruct (JsMap.get tag index) as [b|]; [|done].
  destruct (decide (length (JsSet.delete name b) = 0)%nat) as [Hlen|Hlen].
  - apply length_zero_iff_nil in Hlen. rewrite decide_True by done.
    apply JsMap_delete_set.
  - rewrite decide_False; [done|]. by rewrite <-length_zero_iff_nil.
Qed.

Lemma foldl_preserves {A B} (P : A → Prop) (f : A → B → A) xs a :
  (∀ a x, P a → P (f a x)) → P a → P (foldl f a xs).
Proof.
  intros Hf. revert a. induction xs as [|x xs IH]; intros a Ha; simpl; [done|].
  apply IH. by apply Hf.
Qed.

(** ** The representation is kept *)

Lemma well_formed_empty : well_formed empty.
Proof. split; simpl; [apply NoDup_nil_2..|]. by intros ?? [=]. Qed.

Lemma well_formed_registerTool tool this :
  well_formed this → well_formed (registerTool tool this).2.
Proof.
  intros [Htools Htags Hbuckets].
  destruct (registerTool_cases tool this)
    as [(? & _ & ->)|[(? & _ & _ & ->)|(t & _ & Hhas & ->)]]; [done..|].
  split; simpl.
  - by apply JsMap_set_NoDup.
  - apply (foldl_preserves (λ index, NoDup (JsMap.keys index))); [|done].
    intros index tag Hindex. rewrite indexTag_eq. by apply JsMap_set_NoDup.
  - apply (foldl_preserves
             (λ index, ∀ tag bucket, JsMap.get tag index = Some bucket → NoDup bucket));
      [|done].
    intros index tag Hindex tag' bucket. rewrite indexTag_get.
    destruct (decide (tag = tag')) as [->|]; [|by apply Hindex].
    intros [= <-]. apply JsSet_add_NoDup.
    destruct (JsMap.get tag' index) as [b|] eqn:Hb; simpl; [by eapply Hindex|].
    apply NoDup_nil_2.
Qed.

Lemma well_formed_registerTools tools this :
  well_formed this → well_formed (registerTools tools this).2.
Proof.
  revert this. induction tools as [|tool rest IH]; intros this Hwf; simpl; [done|].
  pose proof (well_formed_registerTool tool this Hwf) as Hwf1.
  destruct (registerTool tool this) as [[registered|e] this1]; simpl in *; [|done].
  specialize (IH this1 Hwf1).
  by destruct (registerTools rest this1) as [[others|e] this2].
Qed.

Lemma well_formed_unregisterTool name this :
  well_formed this → well_formed (unregisterTool name this).2.
Proof.
  intros [Htools Htags Hbuckets].
  destruct (getTool name this) as [tool|] eqn:Hget.
  2: { by rewrite unregisterTool_absent. }
  rewrite (unregisterTool_present _ _ _ Hget). split; simpl.
  - by apply JsMap_delete_NoDup.
  - apply (foldl_preserves (λ index, NoDup (JsMap.keys index))); [|done].
    intros index tag Hindex. rewrite scrubTag_eq.
    destruct (JsMap.get tag index); [|done].
    destruct (decide _); [by apply JsMap_delete_NoDup|by apply JsMap_set_NoDup].
  - apply (foldl_preserves
             (λ index, ∀ tag bucket, JsMap.get tag index = Some bucket → NoDup bucket));
      [|done].
    intros index tag Hindex tag' bucket. rewrite scrubTag_get.
    destruct (decide (tag = tag')) as [->|]; [|by apply Hindex].
    intros (b0 & Hb0 & -> & _)%scrubbed_Some.
    apply JsSet_delete_NoDup. by eapply Hindex.
Qed.

Lemma reachable_well_formed this : reachable this → well_formed this.
Proof.
  induction 1;
    auto using well_formed_empty, well_formed_registerTool,
      well_formed_registerTools, well_formed_unregisterTool.
Qed.

(** ** Listing the tools *)

Lemma JsMap_values_lookup {V} (m : list (string * V)) v :
  NoDup (JsMap.keys m) →
  v ∈ JsMap.values m ↔ ∃ key, JsMap.get key m = Some v.
Proof.
  unfold JsMap.keys, JsMap.values. induction m as [|[k x] m IH]; csimpl.
  - intros _. rewrite elem_of_nil. split; [done|]. by intros [? ?].
  - intros [Hk Hm]%NoDup_cons. rewrite elem_of_cons, (IH Hm). split.
    + intros [->|[key Hkey]].
      * exists k. by rewrite decide_True.
      * exists key. rewrite decide_False; [done|]. intros ->.
        apply Hk. apply (JsMap_elem_of_keys key m). eauto.
    + intros [key Hkey]. destruct (decide (k = key)) as [->|].
      * left. congruence.
      * right. eauto.
Qed.

Lemma JsMap_values_names (m : list (string * Tool)) :
  NoDup (JsMap.keys m) →
  (∀ key tool, JsMap.get key m = Some tool → name tool = key) →
  name <$> JsMap.values m = JsMap.keys m.
Proof.
  unfold JsMap.keys, JsMap.values. induction m as [|[k x] m IH]; csimpl; [done|].
  intros [Hk Hm]%NoDup_cons Hkeyed. f_equal.
  - apply Hkeyed. by rewrite decide_True.
  - apply IH; [done|]. intros key tool Hget. apply Hkeyed.
    rewrite decide_False; [done|]. intros ->.
    apply Hk. apply (JsMap_elem_of_keys key m). eauto.
Qed.

(** X5: Every tool of [getAllTools] is the one [getTool] returns for its name,
    and no two of them have the same name. *)
Theorem getAllTools_names this :
  reachable this →
  NoDup (name <$> getAllTools this) ∧
  (∀ tool, tool ∈ getAllTools this ↔ getTool (name tool) this = Some tool) ∧
  (∀ key tool, getTool key this = Some tool → name tool = key).
Proof.
  intros Hreach.
  destruct (reachable_well_formed _ Hreach) as [Htools _ _].
  destruct (reachable_consistent _ Hreach) as [_ _ Hkeyed].
  unfold getAllTools, getTool. split_and!.
  - by rewrite JsMap_values_names.
  - intros tool. rewrite JsMap_values_lookup by done. split; [|by eauto].
    intros [key Hkey]. by rewrite (Hkeyed _ _ Hkey).
  - exact Hkeyed.
Qed.

Lemma getAllTools_names_witness :
  let this := (registerTools [samples.httpRequest_value; samples.ping_value] empty).2 in
  NoDup (name <$> getAllTools this) ∧
  (∀ tool, tool ∈ getAllTools this ↔ getTool (name tool) this = Some tool) ∧
  (∀ key tool, getTool key this = Some tool → name tool = key).
Proof.
  intros this. apply (getAllTools_names this).
  apply reachable_registerTools, reachable_new.
Defined.

(** X3: A successful [registerTool] puts the tool last in [getAllTools], makes
    [size] one more and leaves every other name as it was; an unsuccessful
    one leaves the registry as it was. *)
Theorem registerTool_appends tool this :
  match registerTool tool this with
  | (Ok registered, this') =>
      getAllTools this' = (getAllTools this ++ [registered])%list ∧
      size this' = S (size this) ∧
      (∀ other, other ≠ name registered → getTool other this' = getTool other this)
  | (Err _, this') => this' = this
  end.
Proof.
  destruct (registerTool_cases tool this)
    as [(? & _ & ->)|[(? & _ & _ & ->)|(t & _ & Hhas & ->)]]; [done..|].
  apply JsMap_has_false in Hhas.
  unfold getAllTools, size, getTool, JsMap.values, JsMap.size. simpl.
  rewrite JsMap_set_absent by done. split_and!.
  - by rewrite fmap_app.
  - rewrite length_app. simpl. lia.
  - intros other Hother. rewrite <-(JsMap_set_absent _ t) by done.
    by apply JsMap_get_set_ne.
Qed.

Lemma registerTool_values tool this registered this' :
  registerTool tool this = (Ok registered, this') →
  getAllTools this' = (getAllTools this ++ [registered])%list.
Proof.
  intros Hreg.
  destruct (registerTool_cases tool this)
    as [(? & _ & Heq)|[(? & _ & _ & Heq)|(t & _ & Hhas & Heq)]];
    rewrite Heq in Hreg; try done.
  injection Hreg as <- <-. apply JsMap_has_false in Hhas.
  unfold getAllTools, JsMap.values. simpl.
  rewrite JsMap_set_absent by done. by rewrite fmap_app.
Qed.

Lemma registerTools_appends tools this registered this' :
  registerTools tools this = (Ok registered, this') →
  getAllTools this' = (getAllTools this ++ registered)%list.
Proof.
  revert this registered. induction tools as [|tool rest IH]; intros this registered; simpl.
  - intros [= <- <-]. by rewrite app_nil_r.
  - destruct (registerTool tool this) as [[first|e] this1] eqn:Hfirst; [|done].
    destruct (registerTools rest this1) as [[others|e] this2] eqn:Hrest; [|done].
    intros [= <- <-].
    rewrite (IH _ _ Hrest), (registerTool_values _ _ _ _ Hfirst).
    by rewrite <-app_assoc.
Qed.

(** X4: [getAllTools] lists the tools in the order they were registered: after a
    successful [registerTools] on a new registry it is the array that
    [registerTools] returned. *)
Theorem getAllTools_registration_order tools registered this :
  registerTools tools empty = (Ok registered, this) →
  getAllTools this = registered.
Proof. intros H. by rewrite (registerTools_appends _ _ _ _ H). Qed.

Lemma getAllTools_registration_order_witness :
  getAllTools (registerTools [samples.ping_value; samples.httpRequest_value] empty).2
  = [samples.ping; samples.httpRequest].
Proof.
  apply (getAllTools_registration_order
           [samples.ping_value; samples.httpRequest_value]).
  vm_compute. reflexivity.
Defined.

(** X8: In a registry reached through the methods, unregistering a registered
    name makes [size] one less. *)
Theorem unregisterTool_size name this tool :
  reachable this →
  getTool name this = Some tool →
  S (size (unregisterTool name this).2) = size this.
Proof.
  intros [Htools _ _]%reachable_well_formed Hget.
  rewrite (unregisterTool_present _ _ _ Hget). unfold size, JsMap.size. simpl.
  by eapply JsMap_delete_length.
Qed.

Lemma unregisterTool_size_witness :
  let this := (registerTools [samples.httpRequest_value; samples.ping_value] empty).2 in
  S (size (unregisterTool "ping" this).2) = size this.
Proof.
  intros this. apply (unregisterTool_size "ping" this samples.ping).
  - apply reachable_registerTools, reachable_new.
  - vm_compute. reflexivity.
Defined.

(** ** Queries by tag *)

Lemma mapR_Ok {A B} (f : A → result B) xs :
  (∀ x, x ∈ xs → is_ok (f x) = true) →
  ∃ ys, mapR f xs = Ok ys ∧ Forall2 (λ x y, f x = Ok y) xs ys.
Proof.
  induction xs as [|x xs IH]; intros Hall; simpl.
  - exists []. split; [done|constructor].
  - destruct (f x) as [y|e] eqn:Hx.
    + destruct IH as (ys & -> & Hys).
      { intros x' Hx'. apply Hall. by apply list_elem_of_further. }
      exists (y :: ys). split; [done|]. by constructor.
    + specialize (Hall x (list_elem_of_here _ _)). by rewrite Hx in Hall.
Qed.

(** X6: In a registry reached through the methods [getToolsByTag] never throws:
    it returns the registered tools that carry the tag, each once. *)
Theorem getToolsByTag_reachable tag this :
  reachable this →
  ∃ found,
    getToolsByTag tag this = Ok found ∧
    NoDup (name <$> found) ∧
    ∀ tool,
      tool ∈ found ↔
      getTool (name tool) this = Some tool ∧
      tag ∈ default [] (toolSchema.tags tool).
Proof.
  intros Hreach.
  destruct (reachable_well_formed _ Hreach) as [_ _ Hbuckets].
  destruct (reachable_consistent _ Hreach) as [Hidx _ Hkeyed].
  unfold getToolsByTag, getTool.
  destruct (JsMap.get tag (toolRegistry.tags this)) as [bucket|] eqn:Hbucket.
  - set (resolve := λ name : string,
           match JsMap.get name (tools this) with
           | Some tool => Ok tool
           | None => Err (RegistryCorruptionError name)
           end).
    assert (∀ n, n ∈ bucket →
              ∃ tool, JsMap.get n (tools this) = Some tool ∧ resolve n = Ok tool
                      ∧ tag ∈ default [] (toolSchema.tags tool)) as Hres.
    { intros n Hn. destruct (proj1 (Hidx tag n)) as (tool & Hget & Htag); [by eexists|].
      exists tool. unfold resolve. by rewrite Hget. }
    destruct (mapR_Ok resolve bucket) as (found & Hfound & Hall).
    { intros n Hn. by destruct (Hres n Hn) as (tool & _ & -> & _). }
    exists found. split; [done|].
    assert (∀ n tool, resolve n = Ok tool → name tool = n) as Hname.
    { intros n tool. unfold resolve.
      destruct (JsMap.get n (tools this)) as [tool'|] eqn:Hget; [|done].
      intros [= <-]. by apply Hkeyed. }
    assert (name <$> found = bucket) as Hnames.
    { clear -Hall Hname.
      induction Hall as [|n tool ns ts Hn Hrest IH]; csimpl; [done|].
      f_equal; [by apply Hname|done]. }
    split; [rewrite Hnames; by eapply Hbuckets|].
    intros tool. split.
    + intros Hin. apply list_elem_of_lookup in Hin as [i Hi].
      destruct (Forall2_lookup_r _ _ _ _ _ Hall Hi) as (n & Hn & Hr).
      apply list_elem_of_lookup_2 in Hn.
      destruct (Hres n Hn) as (tool' & Hget & Hr' & Htag).
      assert (tool' = tool) as -> by congruence.
      by rewrite (Hkeyed _ _ Hget).
    + intros [Hget Htag].
      destruct (proj2 (Hidx tag (name tool))) as (b & Hb & Hin); [by eexists|].
      assert (b = bucket) as -> by congruence.
      apply list_elem_of_lookup in Hin as [i Hi].
      destruct (Forall2_lookup_l _ _ _ _ _ Hall Hi) as (tool' & Htool' & Hr).
      unfold resolve in Hr. rewrite Hget in Hr. injection Hr as ->.
      by eapply list_elem_of_lookup_2.
  - exists []. split; [done|]. split; [apply NoDup_nil_2|].
    intros tool. rewrite elem_of_nil. split; [done|]. intros [Hget Htag].
    destruct (proj2 (Hidx tag (name tool))) as (b & Hb & _); [by eexists|].
    congruence.
Qed.

Lemma getToolsByTag_reachable_witness :
  let this := (registerTools [samples.httpRequest_value; samples.ping_value] empty).2 in
  ∃ found,
    getToolsByTag "api" this = Ok found ∧
    NoDup (name <$> found) ∧
    ∀ tool,
      tool ∈ found ↔
      getTool (name tool) this = Some tool ∧
      "api" ∈ default [] (toolSchema.tags tool).
Proof.
  intros this. apply (getToolsByTag_reachable "api" this).
  apply reachable_registerTools, reachable_new.
Defined.

(** X7: In a registry reached through the methods [getAllTags] lists, each once,
    the tags that some registered tool carries; [tagCount] is their number. *)
Theorem getAllTags_reachable this :
  reachable this →
  NoDup (getAllTags this) ∧
  tagCount this = length (getAllTags this) ∧
  ∀ tag,
    tag ∈ getAllTags this ↔
    ∃ tool, tool ∈ getAllTools this ∧ tag ∈ default [] (toolSchema.tags tool).
Proof.
  intros Hreach.
  destruct (reachable_well_formed _ Hreach) as [Htools Htags _].
  destruct (reachable_consistent _ Hreach) as [Hidx Hne Hkeyed].
  unfold getAllTags, getAllTools, tagCount, JsMap.size. split_and!.
  - done.
  - unfold JsMap.keys. by rewrite length_fmap.
  - intros tag. rewrite JsMap_elem_of_keys. split.
    + intros [bucket Hbucket].
      destruct bucket as [|n bucket]; [by destruct (Hne _ _ Hbucket)|].
      destruct (proj1 (Hidx tag n)) as (tool & Hget & Htag).
      { exists (n :: bucket). split; [done|apply list_elem_of_here]. }
      exists tool. split; [|done]. apply JsMap_values_lookup; eauto.
    + intros (tool & Hin & Htag).
      apply JsMap_values_lookup in Hin as [key Hkey]; [|done].
      destruct (proj2 (Hidx tag key)) as (b & Hb & _); [by eexists|]. eauto.
Qed.

Lemma getAllTags_reachable_witness :
  let this := (registerTools [samples.httpRequest_value; samples.ping_value] empty).2 in
  NoDup (getAllTags this) ∧
  tagCount this = length (getAllTags this) ∧
  ∀ tag,
    tag ∈ getAllTags this ↔
    ∃ tool, tool ∈ getAllTools this ∧ tag ∈ default [] (toolSchema.tags tool).
Proof.
  intros this. apply (getAllTags_reachable this).
  apply reachable_registerTools, reachable_new.
Defined.

(** ** Registering, then unregistering *)

Lemma indexTag_again name index tag bucket :
  JsMap.get tag index = Some bucket → name ∈ bucket →
  indexTag name index tag = index.
Proof.
  intros Hget Hin. rewrite indexTag_eq, Hget. simpl.
  unfold JsSet.add. rewrite decide_True by done. by apply JsMap_set_same.
Qed.

Lemma scrubTag_clean name index tag :
  clean_at name index tag → scrubTag name index tag = index.
Proof.
  intros Hclean. rewrite scrubTag_eq.
  destruct (JsMap.get tag index) as [b|] eqn:Hb; [|done].
  destruct (Hclean b Hb) as [Hnin Hne].
  rewrite JsSet_delete_absent by done. rewrite decide_False by done.
  by apply JsMap_set_same.
Qed.

Lemma scrubTag_indexTag name index tag :
  clean_at name index tag →
  scrubTag name (indexTag name index tag) tag = index.
Proof.
  intros Hclean. rewrite scrubTag_eq, indexTag_eq, JsMap_get_set_eq.
  destruct (JsMap.get tag index) as [b|] eqn:Hb; cbn [default from_option id].
  - destruct (Hclean b Hb) as [Hnin Hne].
    unfold JsSet.add. rewrite (decide_False (P := name ∈ b)) by done.
    rewrite JsSet_delete_snoc by done.
    rewrite (decide_False (P := b = [])) by done.
    rewrite JsMap_set_set. by apply JsMap_set_same.
  - unfold JsSet.add.
    rewrite (decide_False (P := name ∈ [])) by apply not_elem_of_nil.
    cbn [app JsSet.delete]. rewrite (decide_True (P := name = name)) by done.
    rewrite (decide_True (P := [] = [])) by done.
    rewrite JsMap_delete_set. by apply JsMap_delete_absent.
Qed.

Lemma scrubTag_indexTag_comm name index tag tag' :
  tag ≠ tag' →
  scrubTag name (indexTag name index tag') tag =
  indexTag name (scrubTag name index tag) tag'.
Proof.
  intros Hne. rewrite !scrubTag_eq, !indexTag_eq.
  rewrite JsMap_get_set_ne by done.
  destruct (JsMap.get tag index) as [b|] eqn:Hb; [|done].
  destruct (decide (JsSet.delete name b = [])).
  - rewrite JsMap_get_delete, decide_False by done.
    by rewrite JsMap_set_delete_comm.
  - rewrite JsMap_get_set_ne by done.
    symmetry. apply JsMap_set_set_comm; [done|]. by rewrite Hb.
Qed.

Lemma foldl_indexTag_get_other name tags index tag :
  tag ∉ tags →
  JsMap.get tag (foldl (indexTag name) index tags) = JsMap.get tag index.
Proof.
  revert index. induction tags as [|t ts IH]; intros index; simpl; [done|].
  intros [Hne Hnin]%not_elem_of_cons. rewrite IH by done.
  rewrite indexTag_get. by rewrite decide_False.
Qed.

Lemma filter_other (tags : list string) tag :
  tag ∉ tags → filter (λ t, t ≠ tag) tags = tags.
Proof.
  induction tags as [|t ts IH]; [done|].
  intros [Hne Hnin]%not_elem_of_cons.
  rewrite filter_cons_True by congruence. by rewrite IH.
Qed.

Lemma scrubTag_foldl_indexTag name tags index tag :
  clean_at name index tag →
  scrubTag name (foldl (indexTag name) index tags) tag =
  foldl (indexTag name) index (filter (λ t, t ≠ tag) tags).
Proof.
  intros Hclean. induction tags as [|t ts IH] using rev_ind.
  - simpl. by apply scrubTag_clean.
  - rewrite filter_app, !foldl_app. simpl.
    destruct (decide (t = tag)) as [->|Hne].
    + rewrite filter_cons_False by (by intros ?). rewrite filter_nil. simpl.
      destruct (decide (tag ∈ ts)) as [Hin|Hnin].
      * destruct (proj2 (foldl_indexTag_inBucket name ts index tag name))
          as (b & Hb & Hname); [by right|].
        by rewrite (indexTag_again _ _ _ _ Hb Hname).
      * rewrite scrubTag_indexTag.
        -- by rewrite filter_other.
        -- intros b. rewrite foldl_indexTag_get_other by done. apply Hclean.
    + rewrite filter_cons_True by done. rewrite filter_nil. simpl.
      rewrite scrubTag_indexTag_comm by done. by rewrite IH.
Qed.

Lemma foldl_scrubTag_foldl_indexTag name indexed scrubbed_tags index :
  (∀ tag, clean_at name index tag) →
  (∀ tag, tag ∈ indexed → tag ∈ scrubbed_tags) →
  foldl (scrubTag name) (foldl (indexTag name) index indexed) scrubbed_tags
  = index.
Proof.
  intros Hclean. revert indexed.
  induction scrubbed_tags as [|t ts IH]; intros indexed Hsub.
  - destruct indexed as [|u us]; [done|].
    by destruct (elem_of_nil u) as [[] _]; apply Hsub, list_elem_of_here.
  - simpl. rewrite scrubTag_foldl_indexTag by done. apply IH.
    intros tag [Hne Htag]%list_elem_of_filter.
    apply Hsub, elem_of_cons in Htag as [?|?]; done.
Qed.

(** X9: In a registry reached through the methods, registering a tool and then
    unregistering it gives the registry back, as it was: the same tools and
    the same buckets, in the same order. *)
Theorem register_then_unregister tool this registered this' :
  reachable this →
  registerTool tool this = (Ok registered, this') →
  unregisterTool (name registered) this' = (true, this).
Proof.
  intros Hreach Hreg.
  destruct (reachable_consistent _ Hreach) as [Hidx Hnonempty _].
  destruct (registerTool_cases tool this)
    as [(? & _ & Heq)|[(? & _ & _ & Heq)|(t & _ & Hhas & Heq)]];
    rewrite Heq in Hreg; try done.
  injection Hreg as <- <-. apply JsMap_has_false in Hhas.
  rewrite (unregisterTool_present _ _ t); [|apply JsMap_get_set_eq].
  simpl. rewrite JsMap_delete_set, JsMap_delete_absent by done.
  rewrite foldl_scrubTag_foldl_indexTag; [by destruct this| |done].
  intros tag bucket Hbucket. split; [|by eapply Hnonempty].
  intros Hin. destruct (proj1 (Hidx tag (name t))) as (tool' & Hget & _);
    [by eexists|]. unfold hasTool in *. congruence.
Qed.

Lemma register_then_unregister_witness :
  let this := (registerTool samples.httpRequest_value empty).2 in
  unregisterTool "matrix" (registerTool samples.matrix_value this).2 = (true, this).
Proof.
  intros this.
  apply (register_then_unregister samples.matrix_value this samples.matrix_validated).
  - apply reachable_registerTool, reachable_new.
  - vm_compute. reflexivity.
Defined.

(** ** When [registerTools] succeeds *)

Lemma registerTool_hasTool tool this registered this' other :
  registerTool tool this = (Ok registered, this') →
  hasTool other this' = true ↔ other = name registered ∨ hasTool other this = true.
Proof.
  intros Hreg.
  destruct (registerTool_cases tool this)
    as [(? & _ & Heq)|[(? & _ & _ & Heq)|(t & _ & Hhas & Heq)]];
    rewrite Heq in Hreg; try done.
  injection Hreg as <- <-. unfold hasTool. simpl.
  rewrite !JsMap_has_true, JsMap_get_set.
  destruct (decide (name t = other)) as [->|Hne].
  - split; [by left|by eauto].
  - split; [by right|]. intros [->|?]; done.
Qed.

(** X1: [registerTools] succeeds exactly when every element is valid, no two
    elements have the same name, and none of the names is registered yet;
    it then returns the validated forms. *)
Theorem registerTools_succeeds tools this registered :
  (∃ this', registerTools tools this = (Ok registered, this')) ↔
  Forall2 (λ tool validated, validateTool tool = Ok validated) tools registered ∧
  NoDup (name <$> registered) ∧
  Forall (λ validated, hasTool (name validated) this = false) registered.
Proof.
  revert this registered. induction tools as [|tool rest IH]; intros this registered.
  - simpl. split.
    + intros [this' [= <- <-]]. split_and!; constructor.
    + intros (Hall & _ & _). inversion Hall. eauto.
  - simpl. split.
    + intros [this' Hreg].
      destruct (registerTool tool this) as [[first|e] this1] eqn:Hfirst; [|done].
      destruct (registerTools rest this1) as [[others|e] this2] eqn:Hrest; [|done].
      injection Hreg as <- <-.
      destruct (proj1 (IH this1 others)) as (Hall & Hnodup & Hfresh); [by eauto|].
      assert (validateTool tool = Ok first ∧ hasTool (name first) this = false)
        as [Hvalid Hfree].
      { destruct (registerTool_cases tool this)
          as [(? & _ & Heq)|[(? & _ & _ & Heq)|(t & ? & ? & Heq)]];
          rewrite Heq in Hfirst; try done. by injection Hfirst as <- <-. }
      rewrite Forall_forall in Hfresh. split_and!.
      * by constructor.
      * csimpl. apply NoDup_cons. split; [|done].
        intros (other & Hname & Hin)%list_elem_of_fmap.
        specialize (Hfresh _ Hin).
        assert (hasTool (name other) this1 = true) as Hhas.
        { apply (registerTool_hasTool _ _ _ _ _ Hfirst). by left. }
        congruence.
      * constructor; [done|]. apply Forall_forall. intros other Hin.
        specialize (Hfresh _ Hin).
        destruct (hasTool (name other) this) eqn:Hhas; [|done].
        assert (hasTool (name other) this1 = true) as Hhas1.
        { apply (registerTool_hasTool _ _ _ _ _ Hfirst). by right. }
        congruence.
    + intros (Hall & Hnodup & Hfresh).
      destruct registered as [|first others]; [by inversion Hall|].
      apply Forall2_cons in Hall as [Hvalid Hall].
      csimpl in Hnodup. apply NoDup_cons in Hnodup as [Hfirst Hnodup].
      apply Forall_cons in Hfresh as [Hfree Hfresh].
      pose proof (registerTool_fresh _ _ _ Hvalid Hfree) as Hreg.
      rewrite Hreg.
      match goal with
      | |- context [registerTools rest ?r] =>
          destruct (proj2 (IH r others)) as [this2 Hrest]
      end.
      { split_and!; [done..|]. apply Forall_forall. intros other Hin.
        rewrite Forall_forall in Hfresh. specialize (Hfresh _ Hin).
        match goal with |- ?h = false => destruct h eqn:Hhas; [|done] end.
        apply (registerTool_hasTool _ _ _ _ _ Hreg) in Hhas as [Heq|?];
          [|congruence].
        destruct Hfirst. apply list_elem_of_fmap. eauto. }
      rewrite Hrest. eauto.
Qed.

(** * More on validation *)

(** ** Fields of an encoded object *)

Lemma entry_for_NoDup key field entries :
  NoDup entries.*1 → (key, field) ∈ entries → entry_for key entries = field.
Proof.
  induction entries as [|[k f] rest IH]; [by intros _ ?%elem_of_nil|].
  rewrite fmap_cons. intros [Hk Hrest]%NoDup_cons [[= <- <-]|Hin]%elem_of_cons.
  - simpl. rewrite entry_for_None by done. by rewrite decide_True.
  - simpl. rewrite (IH Hrest Hin). destruct field; [done|].
    destruct (decide (k = key)) as [->|]; [|done].
    destruct Hk. apply list_elem_of_fmap. by exists (key, None).
Qed.

Lemma get_literal_entry key field entries :
  NoDup entries.*1 → (key, field) ∈ entries →
  get key (literal ∅ entries) = default VUndefined field.
Proof.
  intros Hnodup Hin. unfold get.
  rewrite literal_lookup, (entry_for_NoDup _ _ _ Hnodup Hin).
  by destruct field.
Qed.

Lemma get_literal_absent key entries :
  key ∉ entries.*1 → get key (literal ∅ entries) = VUndefined.
Proof.
  intros Hnin. unfold get. by rewrite literal_lookup, entry_for_None.
Qed.

Lemma default_defined {A} (f : A → value) (x : option A) :
  default VUndefined (defined f x) = from_option f VUndefined x.
Proof. by destruct x. Qed.

(** Read the key [k] of an encoded object in the goal. *)
Ltac read_field k :=
  match goal with
  | |- context [get k (literal ∅ ?es)] =>
      first
        [ erewrite (get_literal_entry k _ es);
          [ | apply (bool_decide_unpack _); vm_compute; exact I
            | repeat first [apply list_elem_of_here | apply list_elem_of_further] ]
        | rewrite (get_literal_absent k es)
            by (apply (bool_decide_unpack _); vm_compute; exact I) ];
      rewrite ?default_defined; cbn [default from_option id]
  end.

(** ** Stability of the primitive schemas *)

Lemma stable_z_string : stable z_string VStr.
Proof. intros v a. by destruct v; intros [= <-]. Qed.

Lemma stable_z_string_min n : stable (z_string_min n) VStr.
Proof.
  intros v a. unfold z_string_min. intros (s & Hs & Hk)%bind_Ok.
  apply z_string_Ok in Hs as ->. simpl.
  destruct (decide _); [|done]. injection Hk as <-. simpl.
  by rewrite decide_True.
Qed.

Lemma stable_z_boolean : stable z_boolean VBool.
Proof. intros v a. by destruct v; intros [= <-]. Qed.

Lemma stable_z_number : stable z_number VNum.
Proof.
  intros v a. destruct v as [| | |x| | |]; try done. simpl.
  destruct (PrimFloat.eqb x x) eqn:Hx; [|done]. intros [= <-]. simpl.
  by rewrite Hx.
Qed.

Lemma stable_z_int : stable z_int VNum.
Proof.
  intros v a. unfold z_int. intros (x & Hx & Hk)%bind_Ok.
  destruct (isInteger x) eqn:Hint; [|done]. injection Hk as <-.
  rewrite (stable_z_number _ _ Hx). simpl. by rewrite Hint.
Qed.

Lemma stable_z_record_any : stable z_record_any VObj.
Proof. intros v a. by destruct v; intros [= <-]. Qed.

Lemma mapR_z_any xs : mapR z_any xs = Ok xs.
Proof. induction xs as [|x xs IH]; csimpl; [done|]. by rewrite IH. Qed.

Lemma stable_z_array_any : stable (z_array z_any) VArr.
Proof.
  intros v a. destruct v as [| | | | |xs|]; try done. simpl.
  rewrite mapR_z_any. intros [= <-]. apply mapR_z_any.
Qed.

Lemma stable_z_array_string : stable (z_array z_string) strings.
Proof. intros v a _. unfold strings. simpl. apply mapR_z_string. Qed.

Lemma stable_ParamType : stable (z_enum ParamType_members) (VStr ∘ ParamType_literal).
Proof. intros v a _. by destruct a. Qed.

Lemma stable_StringFormat :
  stable (z_enum StringFormat_members) (VStr ∘ StringFormat_literal).
Proof. intros v a _. by destruct a. Qed.

Lemma stable_NumberFormat :
  stable (z_enum NumberFormat_members) (VStr ∘ NumberFormat_literal).
Proof. intros v a _. by destruct a. Qed.

Lemma stable_z_optional {A} (s : schema A) encode :
  stable s encode → (∀ a, encode a ≠ VUndefined) →
  stable (z_optional s) (from_option encode VUndefined).
Proof.
  intros Hs Hdef v [a|]; simpl; [|done].
  unfold z_optional at 1. destruct v; try done;
    intros (a' & Ha' & [= <-])%bind_Ok;
    (unfold z_optional; destruct (encode a') eqn:He; [by destruct (Hdef a')|..];
     rewrite <-He, (Hs _ _ Ha'); done).
Qed.

Lemma stable_z_default_boolean : stable (z_default false z_boolean) VBool.
Proof.
  intros v a. unfold z_default. destruct v; try done; by intros [= <-].
Qed.

Lemma z_optional_None {A} (s : schema A) v :
  z_optional s v = Ok None → v = VUndefined.
Proof.
  destruct v; simpl; try done; by intros (? & _ & [=])%bind_Ok.
Qed.

Lemma z_enum_single {A} lit (a a' : A) v :
  z_enum [(lit, a)] v = Ok a' → v = VStr lit.
Proof.
  simpl. destruct v; try done. destruct (decide _) as [->|]; done.
Qed.

(** ** Stability of the parameter schemas *)

Ltac invert_binds H :=
  repeat (let a := fresh "a" in
          let Ha := fresh "Ha" in
          apply bind_Ok in H as (a & Ha & H));
  apply Ok_inj in H; subst.

(** Replay on the encoded field the parse [Ha] of the original field. *)
Ltac replay lemma Ha :=
  rewrite (lemma _ _ Ha); cbn [mbind result_bind].

Lemma VStr_defined s : VStr s ≠ VUndefined.
Proof. done. Qed.
Lemma VNum_defined x : VNum x ≠ VUndefined.
Proof. done. Qed.
Lemma VBool_defined b : VBool b ≠ VUndefined.
Proof. done. Qed.
Lemma VArr_defined xs : VArr xs ≠ VUndefined.
Proof. done. Qed.
Lemma VObj_defined m : VObj m ≠ VUndefined.
Proof. done. Qed.
Lemma strings_defined xs : strings xs ≠ VUndefined.
Proof. done. Qed.

Lemma ParamType_replay v type :
  z_enum ParamType_members v = Ok type →
  z_enum ParamType_members (VStr (ParamType_literal type)) = Ok type.
Proof. intros _. by destruct type. Qed.

Lemma toolParameterSchema_stable data param :
  toolParameterSchema data = Ok param →
  ∃ data', Param_to_value param = VObj data' ∧
           toolParameterSchema data' = Ok param.
Proof.
  unfold toolParameterSchema at 1. intros H. invert_binds H.
  eexists. split; [reflexivity|]. unfold toolParameterSchema.
  read_field "name". replay (stable_z_string_min 1) Ha.
  read_field "description". replay stable_z_string Ha0.
  read_field "type". replay ParamType_replay Ha1.
  read_field "required". replay stable_z_default_boolean Ha2.
  done.
Qed.

Lemma stringParameterSchema_stable data param :
  stringParameterSchema data = Ok param →
  ∃ data', Param_to_value param = VObj data' ∧
           stringParameterSchema data' = Ok param.
Proof.
  unfold stringParameterSchema at 1. intros H. invert_binds H.
  eexists. split; [reflexivity|]. unfold stringParameterSchema.
  read_field "name". replay (stable_z_string_min 1) Ha.
  read_field "description". replay stable_z_string Ha0.
  read_field "type".
  read_field "required". replay stable_z_default_boolean Ha2.
  read_field "format".
  replay (stable_z_optional _ _ stable_StringFormat (λ a, VStr_defined _)) Ha3.
  read_field "minLength".
  replay (stable_z_optional _ _ stable_z_int VNum_defined) Ha4.
  read_field "maxLength".
  replay (stable_z_optional _ _ stable_z_int VNum_defined) Ha5.
  read_field "pattern".
  replay (stable_z_optional _ _ stable_z_string VStr_defined) Ha6.
  read_field "enum".
  replay (stable_z_optional _ _ stable_z_array_string strings_defined) Ha7.
  read_field "default".
  replay (stable_z_optional _ _ stable_z_string VStr_defined) Ha8.
  done.
Qed.

Lemma NumberFormat_optional_defined (a : NumberFormat) :
  (VStr ∘ NumberFormat_literal) a ≠ VUndefined.
Proof. done. Qed.

Lemma numberParameterSchema_stable data param :
  numberParameterSchema data = Ok param →
  ∃ data', Param_to_value param = VObj data' ∧
           numberParameterSchema data' = Ok param.
Proof.
  unfold numberParameterSchema at 1. intros H. invert_binds H.
  eexists. split; [reflexivity|]. unfold numberParameterSchema.
  read_field "name". replay (stable_z_string_min 1) Ha.
  read_field "description". replay stable_z_string Ha0.
  read_field "type".
  read_field "required". replay stable_z_default_boolean Ha2.
  read_field "minimum".
  replay (stable_z_optional _ _ stable_z_number VNum_defined) Ha3.
  read_field "maximum".
  replay (stable_z_optional _ _ stable_z_number VNum_defined) Ha4.
  read_field "multipleOf".
  replay (stable_z_optional _ _ stable_z_number VNum_defined) Ha5.
  read_field "format".
  replay (stable_z_optional _ _ stable_NumberFormat NumberFormat_optional_defined) Ha6.
  read_field "default".
  replay (stable_z_optional _ _ stable_z_number VNum_defined) Ha7.
  done.
Qed.

Lemma booleanParameterSchema_stable data param :
  booleanParameterSchema data = Ok param →
  ∃ data', Param_to_value param = VObj data' ∧
           booleanParameterSchema data' = Ok param.
Proof.
  unfold booleanParameterSchema at 1. intros H. invert_binds H.
  eexists. split; [reflexivity|]. unfold booleanParameterSchema.
  read_field "name". replay (stable_z_string_min 1) Ha.
  read_field "description". replay stable_z_string Ha0.
  read_field "type".
  read_field "required". replay stable_z_default_boolean Ha2.
  read_field "default".
  replay (stable_z_optional _ _ stable_z_boolean VBool_defined) Ha3.
  done.
Qed.

(** The array schema, the outcome for [items] being given on both sides. *)
Lemma arrayParameterSchema_stable items data param :
  arrayParameterSchema items data = Ok param →
  ∃ data' parsed,
    items = Ok parsed ∧
    Param_to_value param = VObj data' ∧
    get "items" data' = Param_to_value parsed ∧
    arrayParameterSchema (Ok parsed) data' = Ok param.
Proof.
  unfold arrayParameterSchema at 1. intros H. invert_binds H.
  eexists _, a3. split; [done|]. split; [reflexivity|]. split.
  - by read_field "items".
  - unfold arrayParameterSchema.
    read_field "name". replay (stable_z_string_min 1) Ha.
    read_field "description". replay stable_z_string Ha0.
    read_field "type".
    read_field "required". replay stable_z_default_boolean Ha2.
    read_field "minItems".
    replay (stable_z_optional _ _ stable_z_int VNum_defined) Ha4.
    read_field "maxItems".
    replay (stable_z_optional _ _ stable_z_int VNum_defined) Ha5.
    read_field "uniqueItems".
    replay (stable_z_optional _ _ stable_z_boolean VBool_defined) Ha6.
    read_field "default".
    replay (stable_z_optional _ _ stable_z_array_any VArr_defined) Ha7.
    done.
Qed.

(** The object schema, the outcome for [properties] being given on both
    sides. *)
Lemma objectParameterSchema_stable properties data param :
  objectParameterSchema properties data = Ok param →
  ∃ data' parsed,
    properties = Ok parsed ∧
    Param_to_value param = VObj data' ∧
    get "properties" data' =
      from_option (λ props, VObj (Param_to_value <$> props)) VUndefined parsed ∧
    objectParameterSchema (Ok parsed) data' = Ok param.
Proof.
  unfold objectParameterSchema at 1. intros H. invert_binds H.
  eexists _, a2. split; [done|]. split; [reflexivity|]. split.
  - by read_field "properties".
  - unfold objectParameterSchema.
    read_field "name". replay (stable_z_string_min 1) Ha.
    read_field "description". replay stable_z_string Ha0.
    read_field "type". cbn [mbind result_bind].
    read_field "required".
    replay (stable_z_optional _ _ stable_z_array_string strings_defined) Ha3.
    read_field "additionalProperties".
    replay (stable_z_optional _ _ stable_z_boolean VBool_defined) Ha4.
    read_field "default".
    replay (stable_z_optional _ _ stable_z_record_any VObj_defined) Ha5.
    done.
Qed.

(** ** Which variant a schema returns *)

Lemma stringParameterSchema_type data param :
  stringParameterSchema data = Ok param →
  get "type" data = VStr "string" ∧ is_ok (toolParameterSchema data) = true
  ∧ param_type param = TString ∧ ¬ is_base param.
Proof.
  unfold stringParameterSchema, toolParameterSchema. intros H. invert_binds H.
  apply z_enum_single in Ha1. rewrite Ha, Ha0, Ha1, Ha2. by split_and!; [..|intros []].
Qed.

Lemma numberParameterSchema_type data param :
  numberParameterSchema data = Ok param →
  get "type" data = VStr "number" ∧ is_ok (toolParameterSchema data) = true
  ∧ param_type param = TNumber ∧ ¬ is_base param.
Proof.
  unfold numberParameterSchema, toolParameterSchema. intros H. invert_binds H.
  apply z_enum_single in Ha1. rewrite Ha, Ha0, Ha1, Ha2. by split_and!; [..|intros []].
Qed.

Lemma booleanParameterSchema_type data param :
  booleanParameterSchema data = Ok param →
  get "type" data = VStr "boolean" ∧ is_ok (toolParameterSchema data) = true
  ∧ param_type param = TBoolean ∧ ¬ is_base param.
Proof.
  unfold booleanParameterSchema, toolParameterSchema. intros H. invert_binds H.
  apply z_enum_single in Ha1. rewrite Ha, Ha0, Ha1, Ha2. by split_and!; [..|intros []].
Qed.

Lemma arrayParameterSchema_type items data param :
  arrayParameterSchema items data = Ok param →
  get "type" data = VStr "array" ∧ is_ok (toolParameterSchema data) = true
  ∧ param_type param = TArray ∧ ¬ is_base param.
Proof.
  unfold arrayParameterSchema, toolParameterSchema. intros H. invert_binds H.
  apply z_enum_single in Ha1. rewrite Ha, Ha0, Ha1, Ha2. by split_and!; [..|intros []].
Qed.

(** The object schema replaces the boolean [required] of the base schema by
    a list of names: what it returns without such a list, the base schema
    accepts as well. *)
Lemma objectParameterSchema_type properties data param :
  objectParameterSchema properties data = Ok param →
  get "type" data = VStr "object" ∧
  param_type param = TObject ∧ ¬ is_base param ∧
  ∃ n d props required ap df,
    param = PObject n d props required ap df ∧
    match required with
    | Some names => get "required" data = strings names
    | None => is_ok (toolParameterSchema data) = true
    end.
Proof.
  unfold objectParameterSchema, toolParameterSchema. intros H. invert_binds H.
  apply z_enum_single in Ha1. split_and!; [done|done|by intros []|].
  eexists _, _, _, a3, _, _. split; [done|].
  destruct a3 as [names|].
  - unfold z_optional in Ha3. destruct (get "required" data); try done;
      apply bind_Ok in Ha3 as (names' & Hnames & [= ->]).
    unfold z_array in Hnames. unfold strings. f_equal.
    clear -Hnames. revert names Hnames.
    induction xs as [|x xs IH]; intros names; simpl.
    + by intros [= <-].
    + intros (s & ->%z_string_Ok & (ss & Hss & [= <-])%bind_Ok)%bind_Ok.
      csimpl. f_equal. by apply IH.
  - apply z_optional_None in Ha3. by rewrite Ha, Ha0, Ha1, Ha3.
Qed.

(** ** Nested parameters *)

Lemma z_or_skip {A} (a b : result A) : is_ok a = false → z_or a b = b.
Proof. by destruct a. Qed.

Lemma z_enum_Ok {A} (members : list (string * A)) (literal_of : A → string) v a :
  Forall (λ member, literal_of member.2 = member.1) members →
  z_enum members v = Ok a → v = VStr (literal_of a).
Proof.
  induction members as [|[lit a'] rest IH]; [done|].
  intros [Hlit Hrest]%Forall_cons. simpl in *.
  destruct v as [| | | |s| |]; try done.
  destruct (decide (s = lit)) as [->|]; [|by apply IH].
  intros [= <-]. by rewrite Hlit.
Qed.

Lemma ParamType_Ok v type :
  z_enum ParamType_members v = Ok type → v = VStr (ParamType_literal type).
Proof. apply z_enum_Ok. by repeat constructor. Qed.

Lemma lazySchema_cases v param :
  lazySchema v = Ok param →
  ∃ data,
    v = VObj data ∧
    get "name" data = VStr (param_name param) ∧
    get "description" data = VStr (param_description param) ∧
    get "type" data = VStr (ParamType_literal (param_type param)) ∧
    match param with
    | PBase _ _ _ _ => toolParameterSchema data = Ok param
    | PObject _ _ _ (Some names) _ _ =>
        is_ok (toolParameterSchema data) = false ∧
        get "required" data = strings names
    | _ => False
    end.
Proof.
  destruct v as [| | | | | |data]; try done. rewrite lazySchema_unfold.
  unfold lazyUnion. intros H. exists data. split; [done|].
  destruct (toolParameterSchema data) as [base|] eqn:Hbase.
  { injection H as <-. unfold toolParameterSchema in Hbase.
    pose proof Hbase as Hbase'. invert_binds Hbase'.
    apply z_string_min_Ok in Ha. apply z_string_Ok in Ha0.
    apply ParamType_Ok in Ha1. done. }
  simpl in H.
  destruct (stringParameterSchema data) as [p|] eqn:Hs.
  { apply stringParameterSchema_type in Hs as (_ & Hok & _). by rewrite Hbase in Hok. }
  destruct (numberParameterSchema data) as [p|] eqn:Hn.
  { apply numberParameterSchema_type in Hn as (_ & Hok & _). by rewrite Hbase in Hok. }
  destruct (booleanParameterSchema data) as [p|] eqn:Hb.
  { apply booleanParameterSchema_type in Hb as (_ & Hok & _). by rewrite Hbase in Hok. }
  destruct (arrayParameterSchema _ data) as [p|] eqn:Harr.
  { apply arrayParameterSchema_type in Harr as (_ & Hok & _). by rewrite Hbase in Hok. }
  simpl in H. pose proof H as Hobj.
  apply objectParameterSchema_type
    in H as (Htype & _ & _ & n & d & props & required & ap & df & -> & Hreq).
  unfold objectParameterSchema in Hobj. invert_binds Hobj.
  apply z_string_min_Ok in Ha. apply z_string_Ok in Ha0.
  simplify_eq. destruct required as [names|]; [|by rewrite Hbase in Hreq].
  done.
Qed.

(** ** Validation is idempotent *)

Lemma sequence_map_fmap_Ok {A} e (g : A → result A) (m : gmap string A) :
  (∀ key a, m !! key = Some a → g a = Ok a) →
  sequence_map e (g <$> m) = Ok m.
Proof.
  intros Hg. unfold sequence_map. rewrite decide_True.
  - f_equal. apply map_eq. intros key. rewrite lookup_omap, lookup_fmap.
    destruct (m !! key) as [a|] eqn:Ha; [|done]. simpl. by rewrite (Hg _ _ Ha).
  - intros key r. rewrite lookup_fmap.
    destruct (m !! key) as [a|] eqn:Ha; [|done]. simpl. intros [= <-].
    by rewrite (Hg _ _ Ha).
Qed.

(** An optional record all of whose parsed entries parse again to
    themselves. *)
Lemma z_optional_record_again {A} (s : schema A) encode v parsed :
  z_optional (z_record s) v = Ok parsed →
  (∀ m key a v', parsed = Some m → m !! key = Some a → s v' = Ok a →
                 s (encode a) = Ok a) →
  z_optional (z_record s)
    (from_option (λ m, VObj (encode <$> m)) VUndefined parsed) = Ok parsed.
Proof.
  intros Hparsed Hagain. destruct parsed as [m|]; [|done]. simpl.
  assert (z_record s v = Ok m) as Hrecord.
  { unfold z_optional in Hparsed.
    destruct v; try done; by apply bind_Ok in Hparsed as (? & ? & [= <-]). }
  unfold z_record in Hrecord. destruct v as [| | | | | |pm]; try done.
  rewrite <-map_fmap_compose. rewrite sequence_map_fmap_Ok; [done|].
  intros key a Ha.
  pose proof (sequence_map_lookup _ _ _ key Hrecord) as Hkey.
  rewrite lookup_fmap, Ha in Hkey.
  destruct (pm !! key) as [v'|] eqn:Hv'; [|done]. injection Hkey as Hkey.
  by eapply (Hagain m key a v').
Qed.

Lemma lazySchema_stable param :
  ∀ v, lazySchema v = Ok param → lazySchema (Param_to_value param) = Ok param.
Proof.
  remember (Param_size param) as size eqn:Hsize. revert param Hsize.
  induction (lt_wf size) as [size _ IH]. intros param -> v Hv.
  destruct (lazySchema_cases _ _ Hv) as (data & -> & _ & _ & _ & Hcase).
  destruct param as [n d type r| | | | |n d props [names|] ap df]; try done.
  - destruct (toolParameterSchema_stable _ _ Hcase) as (data' & -> & Hbase).
    by apply lazySchema_base_first.
  - destruct Hcase as [Hbase Hrequired].
    rewrite lazySchema_unfold in Hv. unfold lazyUnion in Hv.
    rewrite z_or_skip in Hv by done.
    rewrite !z_or_skip in Hv.
    2-5: apply not_true_is_false; intros Hok;
         match type of Hok with
         | is_ok ?r = true => destruct r as [p|] eqn:Hp; [|done]
         end.
    2: apply arrayParameterSchema_type in Hp as (_ & ? & _); congruence.
    2: apply booleanParameterSchema_type in Hp as (_ & ? & _); congruence.
    2: apply numberParameterSchema_type in Hp as (_ & ? & _); congruence.
    2: apply stringParameterSchema_type in Hp as (_ & ? & _); congruence.
    destruct (objectParameterSchema_stable _ _ _ Hv)
      as (data' & parsed & Hparsed & Hvalue & Hprops & Hobject).
    rewrite Hvalue, lazySchema_unfold. unfold lazyUnion.
    assert (get "type" data' = VStr "object" ∧ get "required" data' = strings names)
      as [Htype Hreq].
    { cbn [Param_to_value] in Hvalue. injection Hvalue as <-.
      split; by read_field "type" || read_field "required". }
    rewrite z_or_skip.
    2: { unfold toolParameterSchema. rewrite Hreq.
         by destruct (z_string_min 1 _), (z_string _), (z_enum _ _). }
    rewrite !z_or_skip.
    2-5: apply not_true_is_false; intros Hok;
         match type of Hok with
         | is_ok ?r = true => destruct r as [p|] eqn:Hp; [|done]
         end.
    2: apply arrayParameterSchema_type in Hp as (? & _); congruence.
    2: apply booleanParameterSchema_type in Hp as (? & _); congruence.
    2: apply numberParameterSchema_type in Hp as (? & _); congruence.
    2: apply stringParameterSchema_type in Hp as (? & _); congruence.
    rewrite Hprops.
    rewrite (z_optional_record_again lazySchema Param_to_value _ parsed Hparsed);
      [done|].
    intros m key a v' -> Ha Hv'.
    assert (props = Some m) as ->.
    { unfold objectParameterSchema in Hv. rewrite Hparsed in Hv.
      invert_binds Hv. by simplify_eq. }
    eapply (IH (Param_size a)); [by eapply Param_size_property|done|done].
Qed.

(** X13: What the lazy union returns for a nested parameter is a bare base
    parameter, or an object parameter with its list of required names; its
    name, description and type are those of the value.  A value that the
    base schema accepts comes back bare, whatever other keys it has.  And
    what it returns it accepts again, unchanged. *)
Theorem lazySchema_bare v param :
  lazySchema v = Ok param →
  (∃ data,
     v = VObj data ∧
     get "name" data = VStr (param_name param) ∧
     get "description" data = VStr (param_description param) ∧
     get "type" data = VStr (ParamType_literal (param_type param)) ∧
     match param with
     | PBase _ _ _ _ => toolParameterSchema data = Ok param
     | PObject _ _ _ (Some names) _ _ =>
         is_ok (toolParameterSchema data) = false ∧
         get "required" data = strings names
     | _ => False
     end) ∧
  lazySchema (Param_to_value param) = Ok param.
Proof.
  intros Hv. split; [by apply lazySchema_cases|by eapply lazySchema_stable].
Qed.

Lemma lazySchema_bare_witness :
  let v := Param_to_value (PString "label" "One label" false
                             None (Some 3%float) None None None None) in
  let param := PBase "label" "One label" TString false in
  (∃ data,
     v = VObj data ∧
     get "name" data = VStr "label" ∧
     get "description" data = VStr "One label" ∧
     get "type" data = VStr "string" ∧
     toolParameterSchema data = Ok param) ∧
  lazySchema (Param_to_value param) = Ok param.
Proof.
  intros v param. apply (lazySchema_bare v param). vm_compute. reflexivity.
Defined.

Lemma Param_to_value_defined param : Param_to_value param ≠ VUndefined.
Proof. by destruct param. Qed.

(** X11: [validateParameter] returns the variant that [type] names, never a bare
    base parameter, with the name and the description of the value; a value
    that is not an object is refused. *)
Theorem validateParameter_variant v param :
  validateParameter v = Ok param →
  ¬ is_base param ∧
  ∃ data,
    v = VObj data ∧
    get "name" data = VStr (param_name param) ∧
    get "description" data = VStr (param_description param) ∧
    get "type" data = VStr (ParamType_literal (param_type param)).
Proof.
  unfold validateParameter, parameterSchema, z_object.
  destruct v as [| | | | | |data]; try done. intros H.
  destruct (stringParameterSchema data) as [p|] eqn:Hs.
  { injection H as <-. pose proof Hs as (? & _ & Ht & ?)%stringParameterSchema_type.
    unfold stringParameterSchema in Hs. invert_binds Hs.
    apply z_string_min_Ok in Ha. apply z_string_Ok in Ha0. eauto 10. }
  destruct (numberParameterSchema data) as [p|] eqn:Hn.
  { injection H as <-. pose proof Hn as (? & _ & Ht & ?)%numberParameterSchema_type.
    unfold numberParameterSchema in Hn. invert_binds Hn.
    apply z_string_min_Ok in Ha. apply z_string_Ok in Ha0. eauto 10. }
  destruct (booleanParameterSchema data) as [p|] eqn:Hb.
  { injection H as <-. pose proof Hb as (? & _ & Ht & ?)%booleanParameterSchema_type.
    unfold booleanParameterSchema in Hb. invert_binds Hb.
    apply z_string_min_Ok in Ha. apply z_string_Ok in Ha0. eauto 10. }
  destruct (arrayParameterSchema _ data) as [p|] eqn:Harr.
  { injection H as <-. pose proof Harr as (? & _ & Ht & ?)%arrayParameterSchema_type.
    unfold arrayParameterSchema in Harr. invert_binds Harr.
    apply z_string_min_Ok in Ha. apply z_string_Ok in Ha0. eauto 10. }
  simpl in H. pose proof H as (? & Ht & ? & _)%objectParameterSchema_type.
  unfold objectParameterSchema in H. invert_binds H.
  apply z_string_min_Ok in Ha. apply z_string_Ok in Ha0. eauto 10.
Qed.

Lemma validateParameter_variant_witness :
  let param := PString "label" "One label" false
                 None (Some 3%float) None None None None in
  ¬ is_base param ∧
  ∃ data,
    Param_to_value param = VObj data ∧
    get "name" data = VStr "label" ∧
    get "description" data = VStr "One label" ∧
    get "type" data = VStr "string".
Proof.
  intros param. apply (validateParameter_variant (Param_to_value param) param).
  vm_compute. reflexivity.
Defined.

(** Ruling out the options of a union that are tried before the one that
    accepts: each asks for another [type]. *)
Ltac other_type :=
  let Hok := fresh "Hok" in
  let Hp := fresh "Hp" in
  let p := fresh "p" in
  apply not_true_is_false; intros Hok;
  match type of Hok with
  | is_ok ?r = true => destruct r as [p|] eqn:Hp; [|done]
  end;
  first [ apply stringParameterSchema_type in Hp as (? & _)
        | apply numberParameterSchema_type in Hp as (? & _)
        | apply booleanParameterSchema_type in Hp as (? & _)
        | apply arrayParameterSchema_type in Hp as (? & _) ];
  congruence.

Tactic Notation "skip_other_types" integer(n) :=
  do n (rewrite z_or_skip; [|other_type]).

Lemma parameterSchema_stable : stable parameterSchema Param_to_value.
Proof.
  intros v param. unfold parameterSchema, z_object.
  destruct v as [| | | | | |data]; try done. intros H.
  destruct (stringParameterSchema data) as [p|] eqn:Hs.
  { injection H as <-.
    destruct (stringParameterSchema_stable _ _ Hs) as (data' & -> & Hs').
    by rewrite Hs'. }
  destruct (numberParameterSchema data) as [p|] eqn:Hn.
  { injection H as <-.
    destruct (numberParameterSchema_stable _ _ Hn) as (data' & -> & Hn').
    pose proof (numberParameterSchema_type _ _ Hn') as (? & _).
    skip_other_types 1. by rewrite Hn'. }
  destruct (booleanParameterSchema data) as [p|] eqn:Hb.
  { injection H as <-.
    destruct (booleanParameterSchema_stable _ _ Hb) as (data' & -> & Hb').
    pose proof (booleanParameterSchema_type _ _ Hb') as (? & _).
    skip_other_types 2. by rewrite Hb'. }
  destruct (arrayParameterSchema _ data) as [p|] eqn:Harr.
  { injection H as <-.
    destruct (arrayParameterSchema_stable _ _ _ Harr)
      as (data' & parsed & Hparsed & -> & Hitems & Harr').
    pose proof (arrayParameterSchema_type _ _ _ Harr') as (? & _).
    rewrite Hitems, (lazySchema_stable _ _ Hparsed).
    skip_other_types 3. by rewrite Harr'. }
  simpl in H.
  destruct (objectParameterSchema_stable _ _ _ H)
    as (data' & parsed & Hparsed & -> & Hprops & Hobj').
  pose proof (objectParameterSchema_type _ _ _ Hobj') as (? & _).
  rewrite Hprops.
  rewrite (z_optional_record_again lazySchema Param_to_value _ parsed Hparsed).
  2: { intros m key a v' _ _ Hv'. by eapply lazySchema_stable. }
  skip_other_types 4. by rewrite Hobj'.
Qed.

Lemma mapR_Ok_inv {A B} (f : A → result B) xs ys :
  mapR f xs = Ok ys → Forall2 (λ x y, f x = Ok y) xs ys.
Proof.
  revert ys. induction xs as [|x xs IH]; intros ys; simpl.
  - intros [= <-]. constructor.
  - intros (y & Hy & (ys' & Hys' & [= <-])%bind_Ok)%bind_Ok.
    constructor; [done|by apply IH].
Qed.

Lemma stable_z_array {A} (s : schema A) encode :
  stable s encode → stable (z_array s) (λ xs, VArr (encode <$> xs)).
Proof.
  intros Hs v xs. destruct v as [| | | | |vs|]; try done. simpl.
  intros Hall%mapR_Ok_inv.
  induction Hall as [|v x vs xs Hx Hrest IH]; csimpl; [done|].
  by rewrite (Hs _ _ Hx), IH.
Qed.

Lemma stable_exampleSchema : stable exampleSchema ToolExample_to_value.
Proof.
  intros v example. unfold exampleSchema at 1, z_object.
  destruct v as [| | | | | |data]; try done. intros H. invert_binds H.
  unfold ToolExample_to_value, exampleSchema, z_object.
  cbn [input output example_description].
  read_field "input". cbn [z_record_any mbind result_bind].
  destruct a0;
    (read_field "output"; cbn [z_any mbind result_bind];
     read_field "description";
     replay (stable_z_optional _ _ stable_z_string VStr_defined) Ha1;
     done).
Qed.

(** X10: Validating a second time changes nothing: what [validateTool] returns is
    a tool that [validateTool] accepts and returns as it is. *)
Theorem validateTool_idempotent v tool :
  validateTool v = Ok tool → validateTool (Tool_to_value tool) = Ok tool.
Proof.
  unfold validateTool, toolSchema at 1, z_object.
  destruct v as [| | | | | |data]; try done. intros H. invert_binds H.
  unfold Tool_to_value, toolSchema, z_object.
  cbn [name description parameters requiredParameters returns toolSchema.tags
       examples metadata].
  read_field "name". replay (stable_z_string_min 1) Ha.
  read_field "description". replay (stable_z_string_min 1) Ha0.
  read_field "parameters".
  rewrite (z_optional_record_again parameterSchema Param_to_value _ a1 Ha1).
  2: { intros m key a' v' _ _ Hv'. by eapply parameterSchema_stable. }
  cbn [mbind result_bind].
  read_field "requiredParameters".
  replay (stable_z_optional _ _ stable_z_array_string strings_defined) Ha2.
  read_field "returns".
  replay (stable_z_optional _ _ parameterSchema_stable Param_to_value_defined) Ha3.
  read_field "tags".
  replay (stable_z_optional _ _ stable_z_array_string strings_defined) Ha4.
  read_field "examples".
  replay (stable_z_optional _ _ (stable_z_array _ _ stable_exampleSchema)
            (λ xs, VArr_defined _)) Ha5.
  read_field "metadata".
  replay (stable_z_optional _ _ stable_z_record_any VObj_defined) Ha6.
  done.
Qed.

Lemma validateTool_idempotent_witness :
  validateTool (Tool_to_value samples.nested_validated) = Ok samples.nested_validated.
Proof.
  apply (validateTool_idempotent (Tool_to_value samples.nested)).
  vm_compute. reflexivity.
Defined.

Lemma validateTool_requiredParameters_unchecked_witness :
  validateTool
    (VObj (<["requiredParameters" := strings ["nowhere"]]>
             {[ "name" := VStr "ping"; "description" := VStr "Check liveness" ]}))
  = Ok {| name := "ping"; description := "Check liveness";
          parameters := None; requiredParameters := Some ["nowhere"];
          returns := None; toolSchema.tags := None;
          examples := None; metadata := None |}.
Proof.
  apply (validateTool_requiredParameters_unchecked
           {[ "name" := VStr "ping"; "description" := VStr "Check liveness" ]}
           samples.ping ["nowhere"]).
  vm_compute. reflexivity.
Defined.

(** ** What the parsers throw *)

Lemma throws_ZodError_bind {A B} (r : result A) (k : A → result B) :
  throws_ZodError r → (∀ a, throws_ZodError (k a)) → throws_ZodError (r ≫= k).
Proof.
  intros Hr Hk. destruct r as [a|e]; simpl; [apply Hk|].
  intros e' [= <-]. by apply Hr.
Qed.

Lemma throws_ZodError_Ok {A} (a : A) : throws_ZodError (Ok a).
Proof. by intros e. Qed.

Lemma throws_ZodError_Err {A} : throws_ZodError (A := A) (Err ZodError).
Proof. by intros e [= <-]. Qed.

Lemma throws_ZodError_z_string v : throws_ZodError (z_string v).
Proof. destruct v; simpl; auto using throws_ZodError_Ok, throws_ZodError_Err. Qed.

Lemma throws_ZodError_z_string_min n v : throws_ZodError (z_string_min n v).
Proof.
  apply throws_ZodError_bind; [apply throws_ZodError_z_string|].
  intros s. destruct (decide _); auto using throws_ZodError_Ok, throws_ZodError_Err.
Qed.

Lemma throws_ZodError_z_boolean v : throws_ZodError (z_boolean v).
Proof. destruct v; simpl; auto using throws_ZodError_Ok, throws_ZodError_Err. Qed.

Lemma throws_ZodError_z_number v : throws_ZodError (z_number v).
Proof.
  destruct v as [| | |x| | |]; simpl;
    try destruct (PrimFloat.eqb x x);
    auto using throws_ZodError_Ok, throws_ZodError_Err.
Qed.

Lemma throws_ZodError_z_int v : throws_ZodError (z_int v).
Proof.
  apply throws_ZodError_bind; [apply throws_ZodError_z_number|].
  intros x. destruct (isInteger x); auto using throws_ZodError_Ok, throws_ZodError_Err.
Qed.

Lemma throws_ZodError_z_enum {A} (members : list (string * A)) v :
  throws_ZodError (z_enum members v).
Proof.
  induction members as [|[lit a] rest IH]; simpl; [apply throws_ZodError_Err|].
  destruct v; auto using throws_ZodError_Err.
  destruct (decide _); auto using throws_ZodError_Ok.
Qed.

Lemma throws_ZodError_z_optional {A} (s : schema A) v :
  (∀ v, throws_ZodError (s v)) → throws_ZodError (z_optional s v).
Proof.
  intros Hs. destruct v; simpl; auto using throws_ZodError_Ok;
    (apply throws_ZodError_bind; [apply Hs|intros; apply throws_ZodError_Ok]).
Qed.

Lemma throws_ZodError_z_default {A} (d : A) (s : schema A) v :
  (∀ v, throws_ZodError (s v)) → throws_ZodError (z_default d s v).
Proof. intros Hs. destruct v; simpl; auto using throws_ZodError_Ok. Qed.

Lemma throws_ZodError_mapR {A B} (s : A → result B) xs :
  (∀ x, throws_ZodError (s x)) → throws_ZodError (mapR s xs).
Proof.
  intros Hs. induction xs as [|x xs IH]; simpl; [apply throws_ZodError_Ok|].
  apply throws_ZodError_bind; [apply Hs|]. intros y.
  apply throws_ZodError_bind; [apply IH|]. intros ys. apply throws_ZodError_Ok.
Qed.

Lemma throws_ZodError_z_array {A} (s : schema A) v :
  (∀ v, throws_ZodError (s v)) → throws_ZodError (z_array s v).
Proof.
  intros Hs. destruct v; simpl; auto using throws_ZodError_Err, throws_ZodError_mapR.
Qed.

Lemma throws_ZodError_z_record_any v : throws_ZodError (z_record_any v).
Proof. destruct v; simpl; auto using throws_ZodError_Ok, throws_ZodError_Err. Qed.

Lemma throws_ZodError_z_record {A} (s : schema A) v :
  throws_ZodError (z_record s v).
Proof.
  destruct v; simpl; auto using throws_ZodError_Err.
  unfold sequence_map. destruct (decide _);
    auto using throws_ZodError_Ok, throws_ZodError_Err.
Qed.

Lemma throws_ZodError_z_or {A} (a b : result A) :
  throws_ZodError b → throws_ZodError (z_or a b).
Proof. intros Hb. destruct a; simpl; auto using throws_ZodError_Ok. Qed.

(** Close a goal [throws_ZodError r] for a parser built from the primitives. *)
Ltac only_ZodError :=
  repeat first
    [ apply throws_ZodError_Ok
    | apply throws_ZodError_Err
    | apply throws_ZodError_z_string_min
    | apply throws_ZodError_z_string
    | apply throws_ZodError_z_boolean
    | apply throws_ZodError_z_int
    | apply throws_ZodError_z_number
    | apply throws_ZodError_z_enum
    | apply throws_ZodError_z_record_any
    | apply throws_ZodError_z_record
    | apply throws_ZodError_z_optional; intros
    | apply throws_ZodError_z_default; intros
    | apply throws_ZodError_z_array; intros
    | apply throws_ZodError_z_or
    | apply throws_ZodError_bind; [|intros]
    | intros ].

Lemma throws_ZodError_objectParameterSchema properties data :
  throws_ZodError properties →
  throws_ZodError (objectParameterSchema properties data).
Proof. intros Hp. unfold objectParameterSchema. only_ZodError; done. Qed.

Lemma throws_ZodError_parameterSchema v : throws_ZodError (parameterSchema v).
Proof.
  unfold parameterSchema, z_object. destruct v; only_ZodError.
Qed.

Lemma throws_ZodError_exampleSchema v : throws_ZodError (exampleSchema v).
Proof. unfold exampleSchema, z_object, z_any. destruct v; only_ZodError. Qed.

Lemma throws_ZodError_validateTool v : throws_ZodError (validateTool v).
Proof.
  unfold validateTool, toolSchema, z_object. destruct v; only_ZodError;
    auto using throws_ZodError_parameterSchema, throws_ZodError_exampleSchema.
Qed.

(** X2: [registerTool] throws the [ZodError] of the validation or the error of
    a name already taken, and nothing else. *)
Theorem registerTool_throws tool this e :
  (registerTool tool this).1 = Err e →
  (e = ZodError ∧ validateTool tool = Err ZodError) ∨
  (∃ validated, validateTool tool = Ok validated ∧
                hasTool (name validated) this = true ∧
                e = DuplicateNameError (name validated)).
Proof.
  destruct (registerTool_cases tool this)
    as [(e' & Hv & ->)|[(t & Hv & Hhas & ->)|(t & _ & _ & ->)]]; simpl; [| |done].
  - intros [= <-]. left. pose proof (throws_ZodError_validateTool tool e' Hv) as ->.
    done.
  - intros [= <-]. right. eauto.
Qed.

Lemma registerTool_throws_witness :
  (ZodError = ZodError ∧ validateTool (VArr []) = Err ZodError) ∨
  (∃ validated, validateTool (VArr []) = Ok validated ∧
                hasTool (name validated) empty = true ∧
                ZodError = DuplicateNameError (name validated)).
Proof.
  apply (registerTool_throws (VArr []) empty ZodError). reflexivity.
Defined.

(** X12: An object parameter of a tool cannot carry the boolean [required] of
    the other variants: the object schema wants a list of names under that
    key, and [validateParameter] refuses the value. *)
Theorem validateParameter_object_required_flag data flag :
  get "type" data = VStr "object" →
  get "required" data = VBool flag →
  validateParameter (VObj data) = Err ZodError.
Proof.
  intros Htype Hflag.
  destruct (validateParameter (VObj data)) as [param|e] eqn:Hv.
  - exfalso. unfold validateParameter, parameterSchema, z_object in Hv.
    do 4 (rewrite z_or_skip in Hv; [|other_type]).
    unfold objectParameterSchema in Hv. invert_binds Hv.
    rewrite Hflag in Ha3. done.
  - by rewrite (throws_ZodError_parameterSchema _ _ Hv).
Qed.

Lemma validateParameter_object_required_flag_witness :
  validateParameter
    (VObj {[ "name" := VStr "headers"; "description" := VStr "HTTP headers";
             "type" := VStr "object"; "required" := VBool false ]})
  = Err ZodError.
Proof.
  apply (validateParameter_object_required_flag _ false); reflexivity.
Defined.

(** ** The built-in tools *)

Import builtInTools.

(** A loop of [registerBuiltInTools] over tools that are all invalid
    registers nothing: it ends without a throw when every name is already
    taken, and otherwise throws the [ZodError] of the first tool whose name
    is free. *)
Lemma registerEach_invalid tools this :
  Forall (λ tool, validateTool tool = Err ZodError) tools →
  (registerEach tools this).2 = this ∧
  (registerEach tools this).1 =
    (if forallb (λ tool, hasToolNamed tool this) tools then Ok tt
     else Err ZodError).
Proof.
  induction 1 as [|tool rest Htool Hrest [IHstate IHresult]]; simpl; [done|].
  destruct (hasToolNamed tool this); simpl; [done|].
  by rewrite (registerTool_invalid _ _ _ Htool).
Qed.

Lemma builtInTools_invalid :
  Forall (λ tool, validateTool tool = Err ZodError) builtInTools.
Proof. repeat constructor; vm_compute; reflexivity. Qed.

(** X16: None of the four built-in tools passes [validateTool]: each has an
    object parameter, or an object as [returns], with a boolean under
    [required].  So [registerBuiltInTools] never registers anything: it
    returns when the four names are already registered, and otherwise throws
    a [ZodError]; the registry is left as it was. *)
Theorem registerBuiltInTools_registers_nothing this :
  (registerBuiltInTools this).2 = this ∧
  (registerBuiltInTools this).1 =
    (if hasTool "httpRequest" this && hasTool "databaseQuery" this
        && hasTool "fileOperation" this && hasTool "weatherInfo" this
     then Ok tt else Err ZodError).
Proof.
  unfold registerBuiltInTools.
  destruct (registerEach_invalid builtInTools this builtInTools_invalid)
    as [Hstate Hresult].
  split; [done|]. rewrite Hresult. unfold builtInTools, hasToolNamed.
  cbn [forallb].
  change (name_of httpRequestTool) with (VStr "httpRequest").
  change (name_of databaseQueryTool) with (VStr "databaseQuery").
  change (name_of fileOperationTool) with (VStr "fileOperation").
  change (name_of weatherTool) with (VStr "weatherInfo").
  by destruct (hasTool "httpRequest" this), (hasTool "databaseQuery" this),
    (hasTool "fileOperation" this), (hasTool "weatherInfo" this).
Qed.

(** On a new registry [registerBuiltInTools] throws, and [registerTool] on
    the first built-in tool does as well. *)
Example registerBuiltInTools_new :
  registerBuiltInTools empty = (Err ZodError, empty) ∧
  registerTool httpRequestTool empty = (Err ZodError, empty).
Proof. split; vm_compute; reflexivity. Qed.

(** X17: [getBuiltInTool] returns a built-in tool of the given name, and none
    for a name that is not one of the four; what it returns [validateTool]
    refuses. *)
Theorem getBuiltInTool_named name :
  match getBuiltInTool name with
  | Some tool => name_of tool = VStr name ∧ validateTool tool = Err ZodError
  | None => name ∉ ["httpRequest"; "databaseQuery"; "fileOperation"; "weatherInfo"]
  end.
Proof.
  unfold getBuiltInTool.
  destruct (List.find (isNamed name) builtInTools) as [tool|] eqn:Hfind.
  - apply find_some in Hfind as [Hin Hnamed]. split.
    + unfold isNamed in Hnamed. destruct (name_of tool); try done.
      by apply bool_decide_eq_true in Hnamed as ->.
    + pose proof builtInTools_invalid as Hall. rewrite Forall_forall in Hall.
      apply Hall. by apply list_elem_of_In.
  - intros Hin.
    assert (∃ tool, tool ∈ builtInTools ∧ isNamed name tool = true)
      as (tool & Htool & Hnamed).
    { repeat (apply elem_of_cons in Hin as [->|Hin]);
        [exists httpRequestTool|exists databaseQueryTool
        |exists fileOperationTool|exists weatherTool
        |by apply elem_of_nil in Hin];
        (split; [apply list_elem_of_In; simpl; tauto|vm_compute; reflexivity]). }
    apply list_elem_of_In in Htool.
    by rewrite (find_none _ _ Hfind _ Htool) in Hnamed.
Qed.

(** * The converter *)

(** ** Entries by index *)

Lemma indexed_fmap {A B} (f : A → B) (xs : list A) :
  indexed (f <$> xs) = f <$> indexed xs.
Proof.
  unfold indexed. rewrite <-list_to_map_fmap. f_equal.
  rewrite imap_fmap, fmap_imap. by apply imap_ext.
Qed.

Lemma indexed_lookup {A} (xs : list A) key x :
  indexed xs !! key = Some x → x ∈ xs.
Proof.
  intros Hkey. apply elem_of_list_to_map_2, elem_of_lookup_imap in Hkey
    as (i & y & [= _ <-] & Hy).
  by eapply list_elem_of_lookup_2.
Qed.

Lemma convert_entries_Object_entries v :
  convert_entries parameterToJsonSchema v
  = parameterToJsonSchema <$> Object_entries v.
Proof.
  destruct v; simpl; try by rewrite fmap_empty.
  - rewrite <-indexed_fmap. f_equal.
    unfold chars. rewrite <-!list_fmap_compose. done.
  - by rewrite indexed_fmap.
  - done.
Qed.

(** ** The equations of [parameterToJsonSchema] *)

(** The equation of the source: [items] is converted by the recursive call
    on [param.items], and every entry of [Object.entries(param.properties)]
    by the recursive call on it. *)
Lemma parameterToJsonSchema_unfold data isRequired :
  parameterToJsonSchema (VObj data) isRequired =
  convertParameter data
    (parameterToJsonSchema (get "items" data) false)
    (parameterToJsonSchema <$> Object_entries (get "properties" data)).
Proof.
  cbn [parameterToJsonSchema]. rewrite !lookup_fmap. unfold get.
  destruct (data !! "items") as [items|],
    (data !! "properties") as [properties|]; cbn [fmap option_fmap option_map default];
    rewrite ?convert_entries_Object_entries; try done.
  all: by rewrite fmap_empty.
Qed.

Lemma is_string_true s v : is_string s v = true → v = VStr s.
Proof.
  destruct v; try done. simpl. by intros ->%bool_decide_eq_true.
Qed.

(** ** Object literals *)





(** ** One parameter *)

Lemma Object_entries_falsy v : truthy v = false → Object_entries v = ∅.
Proof.
  destruct v as [| | | |s| |]; try done. simpl.
  intros Hs%negb_false_iff%bool_decide_eq_true. by subst.
Qed.



Lemma is_string_other s s' v :
  is_string s v = true → s ≠ s' → is_string s' v = false.
Proof.
  intros ->%is_string_true Hne. simpl. by apply bool_decide_eq_false.
Qed.










(** ** Every depth *)




(** ** The tool *)

(** [tool.requiredParameters ?? []] *)
Lemma toolToJsonSchema_unfold tool :
  tool ≠ VUndefined → tool ≠ VNull →
  toolToJsonSchema tool =
  (let required :=
     match read "requiredParameters" tool with
     | VUndefined | VNull => VArr []
     | requiredParameters => requiredParameters
     end in
   properties ←
     (if truthy (read "parameters" tool) then
        forEach_entry (λ name, includes name required)
          (parameterToJsonSchema <$> Object_entries (read "parameters" tool))
      else Ok ∅);
   returns' ←
     (if truthy (read "returns" tool) then
        r ← parameterToJsonSchema (read "returns" tool) true; Ok (Some r)
      else Ok None);
   Ok (VObj (literal
     {[ "name" := read "name" tool;
        "description" := read "description" tool;
        "parameters" := VObj {[ "type" := VStr "object";
                                "properties" := assign_all properties;
                                "required" := required ]} ]}
     [("returns", returns')]))).
Proof. by destruct tool. Qed.


(** ** When the converter throws *)

Lemma sequence_map_Err {A} e (m : gmap string (result A)) key e' :
  m !! key = Some (Err e') → sequence_map e m = Err e.
Proof.
  intros Hkey. unfold sequence_map. rewrite decide_False; [done|].
  intros Hall. by specialize (Hall _ _ Hkey).
Qed.

Lemma sequence_map_cases {A} e (m : gmap string (result A)) :
  (∃ m', sequence_map e m = Ok m') ∨
  (sequence_map e m = Err e ∧ ∃ key e', m !! key = Some (Err e')).
Proof.
  unfold sequence_map. destruct (decide _) as [Hall|Hsome]; [by eauto|].
  right. split; [done|].
  apply map_not_Forall in Hsome as (key & [a|e'] & Hkey & Hr); [done|by eauto|].
  intros ? r. destruct r; [by left|by right].
Qed.

Lemma forEach_entry_Err isRequired entries key convert :
  entries !! key = Some convert →
  is_ok (required ← isRequired key; convert required) = false →
  forEach_entry isRequired entries = Err TypeError.
Proof.
  intros Hkey Herr. unfold forEach_entry.
  destruct (required ← isRequired key; convert required) as [|e] eqn:He; [done|].
  apply (sequence_map_Err _ _ key e). by rewrite map_lookup_imap, Hkey; simpl; f_equal.
Qed.

Lemma forEach_entry_cases isRequired entries :
  (∃ properties, forEach_entry isRequired entries = Ok properties) ∨
  (forEach_entry isRequired entries = Err TypeError ∧
   ∃ key convert e,
     entries !! key = Some convert ∧
     (required ← isRequired key; convert required) = Err e).
Proof.
  unfold forEach_entry.
  destruct (sequence_map_cases TypeError
              (map_imap (λ name convert,
                 Some (required ← isRequired name; convert required)) entries))
    as [?|[-> (key & e & Hkey)]]; [by left|right].
  split; [done|]. rewrite map_lookup_imap in Hkey.
  destruct (entries !! key) as [convert|] eqn:Hconvert; [|done].
  injection Hkey as Hkey. by exists key, convert, e.
Qed.

Lemma optional_includes_Err x xs :
  (∃ e, optional_includes x xs = Err e) ↔ no_includes xs.
Proof.
  destruct xs; simpl; split; try done; try by eauto.
  all: by intros [? ?].
Qed.

Lemma no_includes_optional x xs :
  no_includes xs → optional_includes x xs = Err TypeError.
Proof. by destruct xs. Qed.

(** The size of what is nested. *)
Lemma value_size_elem x (xs : list value) :
  x ∈ xs → (value_size x ≤ foldr (λ n acc, n + acc) 0 (value_size <$> xs))%nat.
Proof.
  induction 1 as [|? ? ? _ IH]; csimpl; lia.
Qed.

Lemma value_size_get key data :
  (value_size (get key data) < value_size (VObj data))%nat.
Proof.
  unfold get. cbn [value_size]. apply Nat.lt_succ_r.
  destruct (data !! key) as [v|] eqn:Hv; simpl; [|lia].
  apply (map_fold_sum_lookup _ key). by rewrite lookup_fmap, Hv.
Qed.

Lemma value_size_entry v key entry :
  Object_entries v !! key = Some entry → (value_size entry ≤ value_size v)%nat.
Proof.
  destruct v as [| | | |s|xs|m]; simpl; try done.
  - intros Hin%indexed_lookup. unfold chars in Hin.
    apply list_elem_of_fmap in Hin as (c & -> & _). done.
  - intros Hin%indexed_lookup. apply value_size_elem in Hin. lia.
  - intros Hin. apply Nat.lt_le_incl, Nat.lt_succ_r.
    apply (map_fold_sum_lookup _ key). by rewrite lookup_fmap, Hin.
Qed.

Lemma parameterToJsonSchema_array data isRequired :
  is_string "array" (get "type" data) = true →
  parameterToJsonSchema (VObj data) isRequired =
  items ← parameterToJsonSchema (get "items" data) false;
  Ok (VObj (literal
    {[ "type" := get "type" data; "description" := get "description" data ]}
    [("items", Some items);
     ("minItems", if_defined (get "minItems" data));
     ("maxItems", if_defined (get "maxItems" data));
     ("uniqueItems", if_defined (get "uniqueItems" data));
     ("default", if_defined (get "default" data))])).
Proof.
  intros Harray. rewrite parameterToJsonSchema_unfold. unfold convertParameter.
  rewrite !(is_string_other _ _ _ Harray) by done. by rewrite Harray.
Qed.

Lemma parameterToJsonSchema_object_type data isRequired :
  is_string "object" (get "type" data) = true →
  parameterToJsonSchema (VObj data) isRequired =
  properties ←
    (if truthy (get "properties" data) then
       forEach_entry
         (λ propName, optional_includes propName (get "required" data))
         (parameterToJsonSchema <$> Object_entries (get "properties" data))
     else Ok ∅);
  Ok (VObj (literal
    {[ "type" := get "type" data; "description" := get "description" data ]}
    [("properties", Some (assign_all properties));
     ("required", if_truthy (get "required" data));
     ("additionalProperties", if_defined (get "additionalProperties" data));
     ("default", if_defined (get "default" data))])).
Proof.
  intros Hobject. rewrite parameterToJsonSchema_unfold. unfold convertParameter.
  rewrite !(is_string_other _ _ _ Hobject) by done. by rewrite Hobject.
Qed.

Lemma parameterToJsonSchema_flat data isRequired :
  is_string "array" (get "type" data) = false →
  is_string "object" (get "type" data) = false →
  is_ok (parameterToJsonSchema (VObj data) isRequired) = true.
Proof.
  intros Harray Hobject. rewrite parameterToJsonSchema_unfold.
  unfold convertParameter. rewrite Harray, Hobject.
  by repeat match goal with
            | |- context [if is_string ?s ?v then _ else _] =>
                destruct (is_string s v)
            end.
Qed.

Lemma Object_entries_truthy v key entry :
  Object_entries v !! key = Some entry → truthy v = true.
Proof.
  destruct (truthy v) eqn:Hv; [done|].
  by rewrite (Object_entries_falsy _ Hv), lookup_empty.
Qed.

Lemma throws_Err param :
  throws param → ∀ isRequired, parameterToJsonSchema param isRequired = Err TypeError.
Proof.
  induction 1 as [| |data Harray _ IH|data key prop Hobject Hkey _ IH
                  |data Hobject Hsome Hrequired]; intros isRequired; try done.
  - rewrite parameterToJsonSchema_array by done. by rewrite IH.
  - rewrite parameterToJsonSchema_object_type by done.
    rewrite (Object_entries_truthy _ _ _ Hkey).
    erewrite forEach_entry_Err; [done|by rewrite lookup_fmap, Hkey|].
    cbn beta.
    destruct (optional_includes key (get "required" data)) as [required|e] eqn:Hr;
      simpl; [by rewrite IH|reflexivity].
  - rewrite parameterToJsonSchema_object_type by done.
    apply map_choose in Hsome as (key & prop & Hkey).
    rewrite (Object_entries_truthy _ _ _ Hkey).
    erewrite forEach_entry_Err; [done|by rewrite lookup_fmap, Hkey|].
    cbn beta. by rewrite no_includes_optional.
Qed.

Lemma parameterToJsonSchema_cases param isRequired :
  (∃ out, parameterToJsonSchema param isRequired = Ok out) ∨ throws param.
Proof.
  remember (value_size param) as size eqn:Hsize. revert param isRequired Hsize.
  induction (lt_wf size) as [size _ IH]. intros param isRequired ->.
  destruct param as [| | | | | |data];
    try (left; by eexists); try (right; by constructor).
  destruct (is_string "array" (get "type" data)) eqn:Harray.
  { rewrite parameterToJsonSchema_array by done.
    edestruct (IH _ (value_size_get "items" data) (get "items" data) false)
      as [[items ->]|Hthrows]; [done|left; by eexists|].
    right. by apply throws_items. }
  destruct (is_string "object" (get "type" data)) eqn:Hobject.
  { rewrite parameterToJsonSchema_object_type by done.
    destruct (truthy (get "properties" data)) eqn:Htruthy; [|left; by eexists].
    edestruct forEach_entry_cases as [[properties ->]|[_ (key & convert & e & Hkey & Herr)]];
      [left; by eexists|right].
    rewrite lookup_fmap in Hkey.
    destruct (Object_entries (get "properties" data) !! key) as [prop|] eqn:Hprop;
      [|done].
    injection Hkey as <-.
    destruct (optional_includes key (get "required" data)) as [required|e'] eqn:Hr.
    - simpl in Herr.
      edestruct (IH (value_size prop)) with (param := prop) (isRequired := required)
        as [[out Hout]|Hthrows]; [|done|congruence|by eapply throws_property].
      pose proof (value_size_entry _ _ _ Hprop).
      pose proof (value_size_get "properties" data). lia.
    - apply throws_required; [done| |].
      + intros Hempty. by rewrite Hempty, lookup_empty in Hprop.
      + apply (optional_includes_Err key). by eexists. }
  left. pose proof (parameterToJsonSchema_flat data isRequired Harray Hobject) as Hok.
  destruct (parameterToJsonSchema (VObj data) isRequired); [by eexists|done].
Qed.

Lemma parameterToJsonSchema_throws param isRequired :
  (throws param ↔ parameterToJsonSchema param isRequired = Err TypeError) ∧
  (¬ throws param ↔ is_ok (parameterToJsonSchema param isRequired) = true).
Proof.
  destruct (parameterToJsonSchema_cases param isRequired) as [[out Hout]|Hthrows].
  - assert (¬ throws param) as Hnot.
    { intros Hthrows. by rewrite (throws_Err _ Hthrows) in Hout. }
    rewrite Hout. split; split; done.
  - rewrite (throws_Err _ Hthrows). split; split; done.
Qed.

Lemma nullish_cases (v : value) :
  v = VUndefined ∨ v = VNull ∨ (v ≠ VUndefined ∧ v ≠ VNull).
Proof. destruct v; auto. Qed.

Lemma tool_throws_Err tool : tool_throws tool → toolToJsonSchema tool = Err TypeError.
Proof.
  intros Hthrows.
  destruct (nullish_cases tool) as [->|[->|[? ?]]]; [done..|].
  rewrite toolToJsonSchema_unfold by done. cbn zeta.
  destruct Hthrows as [| |tool key param Hkey Hparam|tool Hsome Hrequired
                       |tool Htruthy Hreturns]; try done.
  - rewrite (Object_entries_truthy _ _ _ Hkey).
    erewrite forEach_entry_Err; [done|by rewrite lookup_fmap, Hkey|].
    cbn beta. destruct (includes key _); simpl; [|done].
    by rewrite (throws_Err _ Hparam).
  - apply map_choose in Hsome as (key & param & Hkey).
    rewrite (Object_entries_truthy _ _ _ Hkey).
    erewrite forEach_entry_Err; [done|by rewrite lookup_fmap, Hkey|].
    cbn beta. destruct (read "requiredParameters" tool); try done.
  - rewrite Htruthy, (throws_Err _ Hreturns).
    destruct (truthy (read "parameters" tool)); [|done].
    by edestruct forEach_entry_cases as [[properties ->]|[-> _]].
Qed.

Lemma toolToJsonSchema_cases tool :
  (∃ out, toolToJsonSchema tool = Ok out) ∨ tool_throws tool.
Proof.
  destruct (nullish_cases tool) as [->|[->|[? ?]]]; [right; constructor..|].
  rewrite toolToJsonSchema_unfold by done. cbn zeta.
  set (required := match read "requiredParameters" tool with
                   | VUndefined | VNull => VArr []
                   | requiredParameters => requiredParameters
                   end).
  assert ((∃ properties,
             (if truthy (read "parameters" tool) then
                forEach_entry (λ name, includes name required)
                  (parameterToJsonSchema <$> Object_entries (read "parameters" tool))
              else Ok ∅) = Ok properties) ∨ tool_throws tool)
    as [[properties ->]|?]; [|simpl|by right].
  { destruct (truthy (read "parameters" tool)); [|left; by eexists].
    edestruct forEach_entry_cases
      as [[properties ->]|[_ (key & convert & e & Hkey & Herr)]];
      [left; by eexists|right].
    rewrite lookup_fmap in Hkey.
    destruct (Object_entries (read "parameters" tool) !! key) as [param|] eqn:Hparam;
      [|done].
    injection Hkey as <-.
    destruct (includes key required) as [isRequired|e'] eqn:Hr.
    - simpl in Herr.
      destruct (parameterToJsonSchema_cases param isRequired) as [[out Hout]|Hthrows];
        [congruence|].
      by eapply tool_throws_parameter.
    - apply tool_throws_required.
      + intros Hempty. by rewrite Hempty, lookup_empty in Hparam.
      + subst required. by destruct (read "requiredParameters" tool). }
  destruct (truthy (read "returns" tool)) eqn:Htruthy; [|left; by eexists].
  destruct (parameterToJsonSchema_cases (read "returns" tool) true)
    as [[out ->]|Hthrows]; [left; by eexists|].
  right. by apply tool_throws_returns.
Qed.

(** ** Typed tools *)

(** Read the key [k] of an encoded object in the hypothesis [H]. *)
(** Read the key [k] that an encoded object in the goal does not have. *)
Ltac read_absent k :=
  match goal with
  | |- context [get k (literal ∅ ?es)] =>
      rewrite (get_literal_absent k es)
        by (apply (bool_decide_unpack _); vm_compute; exact I)
  end.

Tactic Notation "read_field_in" constr(k) ident(H) :=
  revert H; read_field k; intros H.

Lemma throws_items_present v :
  throws v → ∀ param, v = Param_to_value param → items_present param = false.
Proof.
  induction 1 as [| |data Harray _ IH|data key prop Hobject Hkey _ IH
                  |data Hobject Hsome Hrequired]; intros param Hparam.
  - by destruct param.
  - by destruct param.
  - destruct param as [? ? []| | | |? ? ? items|]; cbn [Param_to_value] in Hparam;
      injection Hparam as ->; read_field_in "type" Harray; try done.
    cbn [items_present]. apply (IH items). by read_field "items".
  - destruct param as [? ? []| | | | |? ? [props|]]; cbn [Param_to_value] in Hparam;
      injection Hparam as ->; read_field_in "type" Hobject; try done;
      read_field_in "properties" Hkey; try done.
    cbn [Object_entries] in Hkey. rewrite lookup_fmap in Hkey.
    destruct (props !! key) as [param|] eqn:Hprop; [|done].
    injection Hkey as <-. cbn [items_present].
    apply bool_decide_eq_false. intros Hall.
    specialize (Hall key false).
    rewrite lookup_fmap, Hprop in Hall. simpl in Hall.
    rewrite (IH param eq_refl) in Hall. by specialize (Hall eq_refl).
  - destruct param as [? ? []| | | | |? ? [props|] required]; cbn [Param_to_value] in Hparam;
      injection Hparam as ->; read_field_in "type" Hobject; try done;
      read_field_in "properties" Hsome; try done.
    read_field_in "required" Hrequired. by destruct required.
Qed.

Lemma items_present_throws param :
  items_present param = false → throws (Param_to_value param).
Proof.
  remember (Param_size param) as size eqn:Hsize. revert param Hsize.
  induction (lt_wf size) as [size _ IH]. intros param -> Hitems.
  destruct param as [n d type r| | | |n d r items ? ? ? ?|n d [props|] required ? ?];
    cbn [items_present] in Hitems; try done.
  - destruct type; try done. cbn [Param_to_value].
    apply throws_items; [by read_field "type"|].
    read_absent "items". constructor.
  - cbn [Param_to_value].
    apply throws_items; [by read_field "type"|].
    read_field "items".
    eapply (IH (Param_size items)); [cbn [Param_size]; lia|done|done].
  - apply bool_decide_eq_false in Hitems.
    apply map_not_Forall in Hitems as (key & b & Hkey & Hb);
      [|intros ? b; destruct b; [by left|by right]].
    rewrite lookup_fmap in Hkey.
    destruct (props !! key) as [prop|] eqn:Hprop; [|done].
    injection Hkey as <-. cbn [Param_to_value].
    apply (throws_property _ key (Param_to_value prop)); [by read_field "type"| |].
    + read_field "properties". cbn [Object_entries].
      by rewrite lookup_fmap, Hprop.
    + eapply (IH (Param_size prop)); [by eapply Param_size_property|done|].
      by destruct (items_present prop).
Qed.

(** On a typed parameter the converter returns exactly when every array has
    its [items]. *)
Lemma parameterToJsonSchema_typed param isRequired :
  is_ok (parameterToJsonSchema (Param_to_value param) isRequired)
  = items_present param.
Proof.
  destruct (items_present param) eqn:Hitems.
  - apply parameterToJsonSchema_throws. intros Hthrows.
    by rewrite (throws_items_present _ Hthrows param eq_refl) in Hitems.
  - by rewrite (throws_Err _ (items_present_throws _ Hitems)).
Qed.

Lemma read_Tool_to_value_parameters tool :
  read "parameters" (Tool_to_value tool)
  = from_option (λ params, VObj (Param_to_value <$> params)) VUndefined
      (parameters tool).
Proof. unfold Tool_to_value. cbn [read]. by read_field "parameters". Qed.

Lemma read_Tool_to_value_requiredParameters tool :
  read "requiredParameters" (Tool_to_value tool)
  = from_option strings VUndefined (requiredParameters tool).
Proof. unfold Tool_to_value. cbn [read]. by read_field "requiredParameters". Qed.

Lemma read_Tool_to_value_returns tool :
  read "returns" (Tool_to_value tool)
  = from_option Param_to_value VUndefined (returns tool).
Proof. unfold Tool_to_value. cbn [read]. by read_field "returns". Qed.

Lemma toolToJsonSchema_typed tool :
  is_ok (toolToJsonSchema (Tool_to_value tool)) = tool_items_present tool.
Proof.
  destruct (tool_items_present tool) eqn:Hitems.
  - destruct (toolToJsonSchema_cases (Tool_to_value tool)) as [[out ->]|Hthrows];
      [done|exfalso].
    unfold tool_items_present in Hitems.
    apply andb_true_iff in Hitems as [Hparams%bool_decide_eq_true Hreturns].
    remember (Tool_to_value tool) as v eqn:Hv.
    destruct Hthrows as [| |v key param Hkey Hparam|v Hsome Hrequired
                         |v Htruthy Hthrows]; try done; subst v.
    + rewrite read_Tool_to_value_parameters in Hkey.
      destruct (parameters tool) as [params|]; simpl in *; [|done].
      rewrite lookup_fmap in Hkey.
      destruct (params !! key) as [param'|] eqn:Hparam'; [|done].
      injection Hkey as <-.
      pose proof (Hparams _ _ Hparam') as Hpresent. simpl in Hpresent.
      by rewrite (throws_items_present _ Hparam param' eq_refl) in Hpresent.
    + rewrite read_Tool_to_value_requiredParameters in Hrequired.
      by destruct (requiredParameters tool).
    + rewrite read_Tool_to_value_returns in Htruthy, Hthrows.
      destruct (returns tool) as [r|]; simpl in *; [|done].
      by rewrite (throws_items_present _ Hthrows r eq_refl) in Hreturns.
  - rewrite tool_throws_Err; [done|].
    unfold tool_items_present in Hitems.
    apply andb_false_iff in Hitems as [Hparams%bool_decide_eq_false|Hreturns].
    + apply map_not_Forall in Hparams as (key & param & Hkey & Hparam);
        [|intros ? p; destruct (items_present p); [by left|by right]].
      destruct (parameters tool) as [params|] eqn:Hparams; simpl in Hkey; [|done].
      apply (tool_throws_parameter _ key (Param_to_value param)).
      * rewrite read_Tool_to_value_parameters, Hparams. simpl.
        by rewrite lookup_fmap, Hkey.
      * apply items_present_throws. by destruct (items_present param).
    + destruct (returns tool) as [r|] eqn:Hr; simpl in Hreturns; [|done].
      apply tool_throws_returns; rewrite read_Tool_to_value_returns, Hr; simpl.
      * by destruct r.
      * by apply items_present_throws.
Qed.

(** The converter returns on every typed tool in which each array has its
    [items]. *)
Lemma toolToJsonSchema_total (tool : Tool) :
  tool_items_present tool = true →
  ∃ out, toolToJsonSchema (Tool_to_value tool) = Ok out.
Proof.
  intros Hitems. rewrite <-toolToJsonSchema_typed in Hitems.
  destruct (toolToJsonSchema (Tool_to_value tool)); [by eexists|done].
Qed.

(** ** The claims about the converter *)





(** C6 fails on this tool.  It is well-formed and converts as it is; once
    registered, the stored tool has lost the [items] of the inner array
    (the lazy union accepted it as a bare base parameter) and [toolToJsonSchema]
    throws on it instead of returning an object of the expected shape. *)
Theorem toolToJsonSchema_registered_throws :
  Tool_to_value samples.matrix = samples.matrix_value ∧
  is_ok (toolToJsonSchema (Tool_to_value samples.matrix)) = true ∧
  ∃ this,
    registerTool samples.matrix_value empty = (Ok samples.matrix_validated, this) ∧
    getTool "matrix" this = Some samples.matrix_validated ∧
    toolToJsonSchema (Tool_to_value samples.matrix_validated) = Err TypeError.
Proof.
  split_and!; [vm_compute; reflexivity..|].
  eexists. split_and!; vm_compute; reflexivity.
Qed.

(** The scenario of the specification. *)
Example httpRequest_schema :
  ∃ out,
    toolToJsonSchema (Tool_to_value samples.httpRequest) = Ok out ∧
    at_path ["parameters"; "properties"; "url"; "type"] out = VStr "string" ∧
    at_path ["parameters"; "properties"; "method"; "enum"] out
      = VArr [VStr "GET"; VStr "POST"] ∧
    at_path ["parameters"; "required"] out = VArr [VStr "url"; VStr "method"].
Proof. eexists. split_and!; vm_compute; reflexivity. Qed.

(** X15: [toolToJsonSchema] throws exactly in the cases of [tool_throws]:
    the tool is [undefined] or [null]; or a parameter it converts is
    [undefined] or [null], be it an entry of [parameters], the [returns], an
    entry of the [properties] of an object parameter or the [items] of an
    array parameter, missing [items] included; or the [required] of an
    object parameter with some property, or the [requiredParameters] of a
    tool with some parameter, is a boolean, a number or an object.  What it
    throws is a [TypeError].  On a typed tool, as [validateTool] returns
    them, that is exactly when some array, at any depth, is without
    [items]. *)
Theorem toolToJsonSchema_throws :
  (∀ tool : value,
     (tool_throws tool ↔ toolToJsonSchema tool = Err TypeError) ∧
     (¬ tool_throws tool ↔ is_ok (toolToJsonSchema tool) = true)) ∧
  (∀ tool : Tool,
     is_ok (toolToJsonSchema (Tool_to_value tool)) = tool_items_present tool).
Proof.
  split; [|apply toolToJsonSchema_typed].
  intros tool.
  destruct (toolToJsonSchema_cases tool) as [[out Hout]|Hthrows].
  - assert (¬ tool_throws tool) as Hnot.
    { intros Hthrows. by rewrite (tool_throws_Err _ Hthrows) in Hout. }
    rewrite Hout. split; split; done.
  - rewrite (tool_throws_Err _ Hthrows). split; split; done.
Qed.

(** X18: [toolToJsonSchema] throws a [TypeError] on each of the four
    built-in tools: the [returns] of each is an object with properties and
    the boolean [true] under [required], on which [includes] is called. *)
Theorem toolToJsonSchema_builtInTools :
  Forall (λ tool, toolToJsonSchema tool = Err TypeError ∧
                  no_includes (at_path ["returns"; "required"] tool) ∧
                  Object_entries (at_path ["returns"; "properties"] tool) ≠ ∅)
         builtInTools.
Proof.
  repeat apply Forall_cons_2; [..|apply Forall_nil_2];
    (split_and!; [vm_compute; reflexivity|done|]);
    intros Hempty%(f_equal (λ m : gmap string value, length (map_to_list m)));
    vm_compute in Hempty; discriminate.
Qed.
